(** * knot-exporter: response interpretation and metric materialisation

    A shallow embedding of the Go packages [utils] (duration codec, name
    sanitiser) and [collector] (descriptor registry, the four collection
    phases, [Collect]) together with the parts of the Go standard library
    they call, and the properties of the exporter proved over it.

    Go strings are byte sequences: they are modelled by [string], whose
    characters are the 256 byte values.  [float64] is IEEE 754 binary64,
    taken from the standard library's executable specification
    [SpecFloat] (precision 53, exponent bound 1024). *)

From Stdlib Require Import ZArith String Ascii List Lia Bool.
From Stdlib Require Import Floats.SpecFloat.
From stdpp Require Import base option list strings gmap.

Open Scope string_scope.
Open Scope Z_scope.

(** ** Bytes and strings *)

Definition byte_val (c : ascii) : Z := Z.of_N (N_of_ascii c).

Definition is_digit (c : ascii) : bool :=
  (48 <=? byte_val c) && (byte_val c <=? 57).

Definition is_sign (c : ascii) : bool :=
  Ascii.eqb c "+" || Ascii.eqb c "-".

Definition digit_val (c : ascii) : Z := byte_val c - 48.

Definition str1 (c : ascii) : string := String c "".

Fixpoint str_all (p : ascii -> bool) (s : string) : bool :=
  match s with
  | "" => true
  | String c s' => p c && str_all p s'
  end.

Fixpoint str_map (f : ascii -> ascii) (s : string) : string :=
  match s with
  | "" => ""
  | String c s' => String (f c) (str_map f s')
  end.

Fixpoint str_take (n : nat) (s : string) : string :=
  match n, s with
  | S n', String c s' => String c (str_take n' s')
  | _, _ => ""
  end.

Fixpoint str_drop (n : nat) (s : string) : string :=
  match n, s with
  | S n', String _ s' => str_drop n' s'
  | _, _ => s
  end.

Definition str_nonempty (s : string) : bool :=
  match s with "" => false | _ => true end.

(** The value of a string of decimal digits, most significant first. *)
Fixpoint decimal_from (acc : Z) (s : string) : Z :=
  match s with
  | "" => acc
  | String c s' => decimal_from (10 * acc + digit_val c) s'
  end.

Definition decimal (s : string) : Z := decimal_from 0 s.

(** ** float64 *)

Module F64.

Definition float64 : Type := spec_float.

Definition prec : Z := 53.
Definition emax : Z := 1024.

Definition add : float64 -> float64 -> float64 := SFadd prec emax.
Definition mul : float64 -> float64 -> float64 := SFmul prec emax.
Definition neg : float64 -> float64 := SFopp.

(** Conversion of an integer, [float64(n)] in Go: round to nearest, ties
    to even. *)
Definition of_Z (n : Z) : float64 := binary_normalize prec emax n 0 false.

Definition zero : float64 := S754_zero false.

Definition is_inf (x : float64) : bool :=
  match x with S754_infinity _ => true | _ => false end.

(** The integer a float64 is, when it is one with a non-negative exponent
    (or zero). *)
Definition int_value (x : float64) : option Z :=
  match x with
  | S754_zero _ => Some 0
  | S754_finite s m e =>
      if 0 <=? e then Some ((if s then -1 else 1) * Zpos m * 2 ^ e) else None
  | _ => None
  end.

(** [q * 2^ex] is the integer [n], with [q] a 53-bit mantissa: the
    normal float64 that is exactly [n]. *)
Definition Rep (q : positive) (ex n : Z) : Prop :=
  2 ^ 52 <= Zpos q < 2 ^ 53 /\ -52 <= ex <= 1 /\ Zpos q * 2 ^ (ex + 52) = n * 2 ^ 52.

End F64.

Abbreviation float64 := F64.float64.

(** ** The Go library functions left open

    Three library tables are not reproduced: what [strconv.ParseFloat]
    answers outside plain decimal digit strings, the Unicode case table
    of [unicode.ToLower] above ASCII, and whether [prometheus.NewDesc]
    sets the descriptor's error for a metric name, help text and label
    names ([true] when it does) outside the plain names that every version
    of the library accepts.  The exporter is verified for every such
    table. *)

Class GoLib := {
  ParseFloat_other : string -> option float64;
  lower_table : Z -> Z;
  NewDesc_other : string -> string -> list string -> bool
}.

(** ** strconv *)

Module Strconv.

(** [strconv.ParseInt(s, 10, 64)]: an optional sign, then one or more
    decimal digits (no underscores in base 10), the value within the range
    of [int64].  [None] stands for a non-nil error. *)
Definition ParseUint (s : string) : option Z :=
  if str_nonempty s && str_all is_digit s then Some (decimal s) else None.

Definition ParseInt (s : string) : option Z :=
  match s with
  | "" => None
  | String c s' =>
      let neg := Ascii.eqb c "-" in
      let body := if Ascii.eqb c "+" || neg then s' else s in
      match ParseUint body with
      | None => None
      | Some un =>
          if negb neg && (2 ^ 63 <=? un) then None
          else if neg && (2 ^ 63 <? un) then None
          else Some (if neg then - un else un)
      end
  end.

(** [strconv.ParseUint(s, 10, 64)]: one or more decimal digits, the value
    below 2^64. *)
Definition ParseUint64 (s : string) : option Z :=
  match ParseUint s with
  | Some v => if v <? 2 ^ 64 then Some v else None
  | None => None
  end.

(** [strconv.ParseFloat(s, 64)] on a non-empty string of ASCII decimal
    digits: the nearest float64 of the number written, and [ErrRange]
    (a non-nil error) when that is an infinity. *)
Definition ParseFloat_digits (s : string) : option float64 :=
  let f := F64.of_Z (decimal s) in
  if F64.is_inf f then None else Some f.

Definition is_decimal_digits (s : string) : bool :=
  str_nonempty s && str_all is_digit s.

Definition ParseFloat `{GoLib} (s : string) : option float64 :=
  if is_decimal_digits s then ParseFloat_digits s else ParseFloat_other s.

End Strconv.

(** ** regexp

    The fragment of Go's [regexp] syntax that [durationRegex] is written
    in, with Go's leftmost-first (backtracking order) submatch semantics:
    greedy operators try the longer alternative first, and the first
    overall match found in that order is the one reported. *)

Module Regexp.

Inductive regex : Type :=
| Lit (c : ascii)                 (* a literal byte *)
| Class (p : ascii -> bool)       (* a character class *)
| Cat (r1 r2 : regex)             (* r1 r2 *)
| Opt (r : regex)                 (* r?  greedy *)
| PlusClass (p : ascii -> bool)   (* [class]+  greedy *)
| Group (n : nat) (r : regex)     (* capturing group number n *)
| Bol                             (* ^  without the m flag: start of text *)
| Eol.                            (* $  without the m flag: end of text *)

(** The text between two positions, each given by what remains of the
    input there. *)
Definition consumed (s s' : string) : string :=
  str_take (String.length s - String.length s') s.

Definition cont : Type := string -> list string -> option (list string).

(** [class]* , longest first. *)
Fixpoint many (p : ascii -> bool) (s : string) (caps : list string)
    (k : cont) : option (list string) :=
  match s with
  | String c s' =>
      if p c then
        match many p s' caps k with
        | Some m => Some m
        | None => k s caps
        end
      else k s caps
  | "" => k s caps
  end.

Fixpoint rmatch (txt : string) (r : regex) (s : string) (caps : list string)
    (k : cont) : option (list string) :=
  match r with
  | Lit c =>
      match s with
      | String a s' => if Ascii.eqb a c then k s' caps else None
      | "" => None
      end
  | Class p =>
      match s with
      | String a s' => if p a then k s' caps else None
      | "" => None
      end
  | Cat r1 r2 =>
      rmatch txt r1 s caps (fun s' caps' => rmatch txt r2 s' caps' k)
  | Opt r1 =>
      match rmatch txt r1 s caps k with
      | Some m => Some m
      | None => k s caps
      end
  | PlusClass p =>
      match s with
      | String a s' => if p a then many p s' caps k else None
      | "" => None
      end
  | Group n r1 =>
      rmatch txt r1 s caps (fun s' caps' => k s' (<[n := consumed s s']> caps'))
  | Bol => if (String.length s =? String.length txt)%nat then k s caps else None
  | Eol => match s with "" => k s caps | _ => None end
  end.

Fixpoint num_groups (r : regex) : nat :=
  match r with
  | Cat r1 r2 => num_groups r1 + num_groups r2
  | Opt r1 => num_groups r1
  | Group _ r1 => S (num_groups r1)
  | _ => 0
  end.

(** A match attempt starting where [s] remains of [txt]. *)
Definition match_at (re : regex) (txt s : string) : option (list string) :=
  rmatch txt re s (replicate (S (num_groups re)) "")
    (fun s' caps => Some (<[0%nat := consumed s s']> caps)).

Fixpoint find_from (re : regex) (txt s : string) : option (list string) :=
  match match_at re txt s with
  | Some m => Some m
  | None =>
      match s with
      | "" => None
      | String _ s' => find_from re txt s'
      end
  end.

(** What a pattern can take: [spans txt r s s'] when [r], started where
    [s] remains of [txt], can finish where [s'] remains. *)
Fixpoint spans (txt : string) (r : regex) (s s' : string) : Prop :=
  match r with
  | Lit c => s = String c s'
  | Class p => exists a, s = String a s' /\ p a = true
  | Cat r1 r2 => exists mid, spans txt r1 s mid /\ spans txt r2 mid s'
  | Opt r1 => spans txt r1 s s' \/ s = s'
  | PlusClass p => exists w, str_nonempty w = true /\ str_all p w = true /\ s = w +:+ s'
  | Group _ r1 => spans txt r1 s s'
  | Bol => s = s' /\ String.length s = String.length txt
  | Eol => s = "" /\ s' = ""
  end.

(** [re.FindStringSubmatch(txt)]: the leftmost match and its groups, an
    unmatched group being the empty string; [None] is the nil slice. *)
Definition FindStringSubmatch (re : regex) (txt : string) : option (list string) :=
  find_from re txt txt.

End Regexp.

(** ** unicode/utf8

    Runes are code points in [Z].  [decode] is what a [for range] loop over
    a string yields: each well-formed UTF-8 sequence gives its code point,
    every other byte gives [RuneError] on its own. *)

Module Utf8.

Definition RuneError : Z := 65533.
Definition MaxRune : Z := 1114111.

Definition byte_of (v : Z) : ascii := ascii_of_N (Z.to_N v).

Definition is_cont (v : Z) : bool := (128 <=? v) && (v <=? 191).

Definition ValidRune (r : Z) : bool :=
  ((0 <=? r) && (r <? 55296)) || ((57343 <? r) && (r <=? MaxRune)).

(** The second byte a leading byte accepts (Go's [acceptRanges]). *)
Definition second_ok (v0 v1 : Z) : bool :=
  if v0 =? 224 then (160 <=? v1) && (v1 <=? 191)
  else if v0 =? 237 then (128 <=? v1) && (v1 <=? 159)
  else if v0 =? 240 then (144 <=? v1) && (v1 <=? 191)
  else if v0 =? 244 then (128 <=? v1) && (v1 <=? 143)
  else is_cont v1.

Definition lead2 (v0 : Z) : bool := (194 <=? v0) && (v0 <=? 223).
Definition lead3 (v0 : Z) : bool := (224 <=? v0) && (v0 <=? 239).
Definition lead4 (v0 : Z) : bool := (240 <=? v0) && (v0 <=? 244).

Fixpoint decode (s : string) : list Z :=
  match s with
  | "" => []
  | String b0 s1 =>
      let v0 := byte_val b0 in
      if v0 <? 128 then v0 :: decode s1
      else
        match s1 with
        | String b1 s2 =>
            let v1 := byte_val b1 in
            if lead2 v0 && is_cont v1 then
              ((v0 mod 32) * 64 + v1 mod 64) :: decode s2
            else
              match s2 with
              | String b2 s3 =>
                  let v2 := byte_val b2 in
                  if lead3 v0 && second_ok v0 v1 && is_cont v2 then
                    ((v0 mod 16) * 4096 + (v1 mod 64) * 64 + v2 mod 64) :: decode s3
                  else
                    match s3 with
                    | String b3 s4 =>
                        let v3 := byte_val b3 in
                        if lead4 v0 && second_ok v0 v1 && is_cont v2 && is_cont v3 then
                          ((v0 mod 8) * 262144 + (v1 mod 64) * 4096
                           + (v2 mod 64) * 64 + v3 mod 64) :: decode s4
                        else RuneError :: decode s1
                    | "" => RuneError :: decode s1
                    end
              | "" => RuneError :: decode s1
              end
        | "" => [RuneError]
        end
  end.

(** [utf8.ValidString]: the string is a sequence of well-formed UTF-8
    sequences. *)
Fixpoint ValidString (s : string) : bool :=
  match s with
  | "" => true
  | String b0 s1 =>
      let v0 := byte_val b0 in
      if v0 <? 128 then ValidString s1
      else
        match s1 with
        | String b1 s2 =>
            let v1 := byte_val b1 in
            if lead2 v0 then is_cont v1 && ValidString s2
            else
              match s2 with
              | String b2 s3 =>
                  let v2 := byte_val b2 in
                  if lead3 v0 then second_ok v0 v1 && is_cont v2 && ValidString s3
                  else
                    match s3 with
                    | String b3 s4 =>
                        let v3 := byte_val b3 in
                        lead4 v0 && second_ok v0 v1 && is_cont v2 && is_cont v3
                        && ValidString s4
                    | "" => false
                    end
              | "" => false
              end
        | "" => false
        end
  end.

(** [utf8.AppendRune]: an invalid rune is written as [RuneError]. *)
Definition encode3 (r : Z) : string :=
  String (byte_of (224 + r / 4096))
    (String (byte_of (128 + (r / 64) mod 64))
      (String (byte_of (128 + r mod 64)) "")).

Definition encode (r : Z) : string :=
  if (0 <=? r) && (r <=? 127) then String (byte_of r) ""
  else if (0 <=? r) && (r <=? 2047) then
    String (byte_of (192 + r / 64)) (String (byte_of (128 + r mod 64)) "")
  else if negb (ValidRune r) then encode3 RuneError
  else if r <=? 65535 then encode3 r
  else
    String (byte_of (240 + r / 262144))
      (String (byte_of (128 + (r / 4096) mod 64))
        (String (byte_of (128 + (r / 64) mod 64))
          (String (byte_of (128 + r mod 64)) ""))).

Fixpoint encode_all (rs : list Z) : string :=
  match rs with
  | [] => ""
  | r :: rs' => encode r +:+ encode_all rs'
  end.

End Utf8.

(** ** unicode and strings *)

Module Strings.

(** [unicode.ToLower]: ASCII letters are handled in place, everything
    above goes through the case table. *)
Definition unicode_ToLower `{GoLib} (r : Z) : Z :=
  if r <=? 127 then
    if (65 <=? r) && (r <=? 90) then r + 32 else r
  else lower_table r.

(** What is assumed of the case table above ASCII: it sends valid runes
    to valid runes, and what it returns is in lower case already. *)
Definition lower_table_ok `{GoLib} : Prop :=
  forall r, 127 < r -> Utf8.ValidRune r = true ->
    Utf8.ValidRune (lower_table r) = true
    /\ unicode_ToLower (lower_table r) = lower_table r.

(** [strings.Map(mapping, s)]: a negative result drops the character. *)
Definition Map (mapping : Z -> Z) (s : string) : string :=
  Utf8.encode_all
    (List.filter (fun r => 0 <=? r) (List.map mapping (Utf8.decode s))).

Definition lower_byte (c : ascii) : ascii :=
  if (65 <=? byte_val c) && (byte_val c <=? 90)
  then Utf8.byte_of (byte_val c + 32) else c.

Definition isASCII (s : string) : bool :=
  str_all (fun c => byte_val c <? 128) s.

(** [strings.ToLower]: a byte loop on ASCII-only strings, otherwise
    [Map(unicode.ToLower, s)]. *)
Definition ToLower `{GoLib} (s : string) : string :=
  if isASCII s then str_map lower_byte s
  else Map unicode_ToLower s.

Definition HasPrefix (s prefix : string) : bool :=
  (String.length prefix <=? String.length s)%nat
  && String.eqb (str_take (String.length prefix) s) prefix.

Definition HasSuffix (s suffix : string) : bool :=
  (String.length suffix <=? String.length s)%nat
  && String.eqb (str_drop (String.length s - String.length suffix) s) suffix.

(** [strings.ReplaceAll(s, old, new)] for a non-empty [old]: the
    non-overlapping occurrences of [old], leftmost first.  [skip] counts the
    bytes of an occurrence still to pass over. *)
Fixpoint replace_from (old new : string) (skip : nat) (s : string) : string :=
  match s with
  | "" => ""
  | String c s' =>
      match skip with
      | S n => replace_from old new n s'
      | O =>
          if HasPrefix s old
          then new +:+ replace_from old new (String.length old - 1) s'
          else String c (replace_from old new 0 s')
      end
  end.

Definition ReplaceAll (s old new : string) : string := replace_from old new 0 s.

(** The width in bytes of the white space character (per
    [unicode.IsSpace]) that [s] starts with, 0 when it starts with none:
    tab, LF, VT, FF, CR, space; U+0085, U+00A0; U+1680, U+2000..U+200A,
    U+2028, U+2029, U+202F, U+205F, U+3000 in UTF-8. *)
Definition space_width (s : string) : nat :=
  match s with
  | "" => 0
  | String b0 s1 =>
      let v0 := byte_val b0 in
      if ((9 <=? v0) && (v0 <=? 13)) || (v0 =? 32) then 1
      else
        match s1 with
        | "" => 0
        | String b1 s2 =>
            let v1 := byte_val b1 in
            if (v0 =? 194) && ((v1 =? 133) || (v1 =? 160)) then 2
            else
              match s2 with
              | "" => 0
              | String b2 _ =>
                  let v2 := byte_val b2 in
                  if (v0 =? 225) && (v1 =? 154) && (v2 =? 128) then 3
                  else if (v0 =? 226) && (v1 =? 128)
                          && (((128 <=? v2) && (v2 <=? 138)) || (v2 =? 168)
                              || (v2 =? 169) || (v2 =? 175)) then 3
                  else if (v0 =? 226) && (v1 =? 129) && (v2 =? 159) then 3
                  else if (v0 =? 227) && (v1 =? 128) && (v2 =? 128) then 3
                  else 0
              end
        end
  end.

Definition close_field (cur : string) (fs : list string) : list string :=
  if str_nonempty cur then cur :: fs else fs.

(** The field under construction at the head of [s], and the complete
    fields after it. *)
Fixpoint fields_from (skip : nat) (s : string) : string * list string :=
  match s with
  | "" => ("", [])
  | String c s' =>
      match skip with
      | S n => let '(cur, fs) := fields_from n s' in ("", close_field cur fs)
      | O =>
          match space_width s with
          | S w => let '(cur, fs) := fields_from w s' in ("", close_field cur fs)
          | O => let '(cur, fs) := fields_from 0 s' in (String c cur, fs)
          end
      end
  end.

(** [strings.Fields(s)]: the maximal runs of non-space characters. *)
Definition Fields (s : string) : list string :=
  let '(cur, fs) := fields_from 0 s in close_field cur fs.

End Strings.

(** ** package utils *)

Module Utils.
Import Regexp.

Definition unit_group (n : nat) (u : ascii) : regex :=
  Opt (Group n (Cat (Group (S n) (PlusClass is_digit)) (Lit u))).

(** [^([+-])((\d+)D)?((\d+)h)?((\d+)m)?((\d+)s)?$] *)
Definition durationRegex : regex :=
  Cat Bol
    (Cat (Group 1 (Class is_sign))
      (Cat (unit_group 2 "D")
        (Cat (unit_group 4 "h")
          (Cat (unit_group 6 "m")
            (Cat (unit_group 8 "s") Eol))))).

(** [len(s) >= len(prefix) && s[:len(prefix)] == prefix] for some prefix. *)
Definition IsPrefixIn (s : string) (prefixes : list string) : bool :=
  existsb (fun prefix =>
             (String.length prefix <=? String.length s)%nat
             && String.eqb (str_take (String.length prefix) s) prefix)
          prefixes.

Definition sub (matches : list string) (i : nat) : string :=
  default "" (matches !! i).

(** One unit of [ParseDurationString]: the group's digits, when present
    and parsed, add [value * scale] to the running total; a parse error is
    logged and the group skipped. *)
Definition add_unit `{GoLib} (digits : string) (scale : Z) (totalSeconds : float64)
    : float64 :=
  if str_nonempty digits then
    match Strconv.ParseFloat digits with
    | Some v => F64.add totalSeconds (F64.mul v (F64.of_Z scale))
    | None => totalSeconds
    end
  else totalSeconds.

Definition ParseDurationString `{GoLib} (durationStr : string) : float64 * bool :=
  match FindStringSubmatch durationRegex durationStr with
  | None => (F64.zero, false)
  | Some matches =>
      let sign := if String.eqb (sub matches 1) "-" then F64.of_Z (-1) else F64.of_Z 1 in
      let totalSeconds := F64.zero in
      let totalSeconds := add_unit (sub matches 3) 86400 totalSeconds in
      let totalSeconds := add_unit (sub matches 5) 3600 totalSeconds in
      let totalSeconds := add_unit (sub matches 7) 60 totalSeconds in
      let totalSeconds :=
        if str_nonempty (sub matches 9) then
          match Strconv.ParseFloat (sub matches 9) with
          | Some seconds => F64.add totalSeconds seconds
          | None => totalSeconds
          end
        else totalSeconds in
      (F64.mul totalSeconds sign, true)
  end.

(** *** The duration grammar, for stating the codec's properties

    A string of the grammar is a sign followed by the units that are
    present, each a non-empty run of digits and its letter, in the order
    D, h, m, s. *)
Definition unit_text (digits : option string) (u : ascii) : string :=
  match digits with
  | Some d => d +:+ String u ""
  | None => ""
  end.

Definition duration_text (neg : bool) (D h m s : option string) : string :=
  String (if neg then "-" else "+")%char
    (unit_text D "D" +:+ unit_text h "h" +:+ unit_text m "m" +:+ unit_text s "s").

Definition digits_ok (digits : option string) : Prop :=
  match digits with
  | Some d => Strconv.is_decimal_digits d = true
  | None => True
  end.

Definition unit_digits (digits : option string) : string :=
  match digits with
  | Some d => d
  | None => ""
  end.

Definition unit_value (digits : option string) : Z :=
  match digits with
  | Some d => decimal d
  | None => 0
  end.

Definition duration_total (D h m s : option string) : Z :=
  unit_value D * 86400 + unit_value h * 3600 + unit_value m * 60 + unit_value s.

(** Text over which the optional group of unit [u] matches nothing: a run
    of digits (possibly empty), then the end or a byte that is neither a
    digit nor [u]. *)
Definition skips (u : ascii) (t : string) : Prop :=
  exists ds rest,
    t = ds +:+ rest /\ str_all is_digit ds = true
    /\ match rest with
       | "" => True
       | String v _ => is_digit v = false /\ v <> u
       end.

(** [n] zeros. *)
Fixpoint zeros (n : nat) : string :=
  match n with
  | O => ""
  | S n' => String "0" (zeros n')
  end.

(** What the groups of a unit become in the submatch list. *)
Definition set_unit (n : nat) (u : ascii) (digits : option string)
    (caps : list string) : list string :=
  match digits with
  | Some d => <[n := d +:+ String u ""]> (<[S n := d]> caps)
  | None => caps
  end.

(** The submatches of a string of the grammar. *)
Definition duration_groups (neg : bool) (D h m s : option string) : list string :=
  [ duration_text neg D h m s; (if neg then "-" else "+");
    unit_text D "D"; unit_digits D; unit_text h "h"; unit_digits h;
    unit_text m "m"; unit_digits m; unit_text s "s"; unit_digits s ].

(** The five replacements of [SanitizeMetricName] on one byte, and on one
    rune: hyphen, space, dot, slash and plus become an underscore. *)
Definition sep_byte (c : ascii) : ascii :=
  if Ascii.eqb c "-" || Ascii.eqb c " " || Ascii.eqb c "." || Ascii.eqb c "/"
     || Ascii.eqb c "+"
  then "_"%char else c.

Definition sep_rune (r : Z) : Z :=
  if (r =? 45) || (r =? 32) || (r =? 46) || (r =? 47) || (r =? 43) then 95 else r.

Definition sanitize_rune `{GoLib} (r : Z) : Z :=
  sep_rune (Strings.unicode_ToLower r).

Definition SanitizeMetricName `{GoLib} (name : string) : string :=
  let result := Strings.ToLower name in
  let result := Strings.ReplaceAll result "-" "_" in
  let result := Strings.ReplaceAll result " " "_" in
  let result := Strings.ReplaceAll result "." "_" in
  let result := Strings.ReplaceAll result "/" "_" in
  let result := Strings.ReplaceAll result "+" "_" in
  result.

End Utils.


(** ** package libknot: the control interface as the collector sees it *)

Module Libknot.

(** [type CtlType int] *)
Definition CtlType : Type := Z.
Definition CtlTypeEnd : CtlType := 0.
Definition CtlTypeData : CtlType := 1.
Definition CtlTypeExtra : CtlType := 2.
Definition CtlTypeBlock : CtlType := 3.

Record CtlData : Type := {
  Section_ : string;
  ID : string;
  Item : string;
  Zone : string;
  Data : string
}.

(** Go [error] values.  The transport's errors carry a tag and the text of
    [Error()]; [Errorf] is the fresh error that [fmt.Errorf] without [%w]
    returns. *)
Inductive error : Type :=
| CtlError (tag : string) (message : string)
| Errorf (message : string).

Definition Error (e : error) : string :=
  match e with
  | CtlError _ m => m
  | Errorf m => m
  end.

(** What one call of [ReceiveResponse] returns. *)
Inductive response : Type :=
| RecvError (err : error)
| Recv (dataType : CtlType) (data : CtlData).

(** A connected control object, as far as one command goes: the result of
    sending it, and the answer to each later [ReceiveResponse] call,
    numbered from 0. *)
Record Ctl : Type := {
  SendCommand : string -> option error;
  SendCommandWithType : string -> string -> option error;
  ReceiveResponse : nat -> response
}.

End Libknot.

(** *** The control object of package libknot

    [libknot.Ctl] wraps a [knot_ctl_t] pointer and talks to libknot through
    the C functions of the package's preamble.  The calls into libknot are
    recorded; what libknot answers to a call is an argument of the function
    that makes it.  A C string is given by a [string]: its bytes up to the
    first NUL. *)

Module LibknotCtl.
Import Libknot.

(** A [knot_ctl_t*] that is not NULL. *)
Definition handle : Type := nat.

(** What C reads of a Go string passed through [C.CString], and what
    [C.GoString] reads of a buffer. *)
Fixpoint until_nul (s : string) : string :=
  match s with
  | "" => ""
  | String c s' => if byte_val c =? 0 then "" else String c (until_nul s')
  end.

Inductive libcall : Type :=
| knot_ctl_alloc
| knot_ctl_free (h : handle)
| knot_ctl_connect (h : handle) (path : string)
| knot_ctl_close (h : handle)
| knot_ctl_set_timeout (h : handle) (timeout_ms : Z)
| knot_ctl_send (h : handle) (type : CtlType) (data : option (string * option string))
| knot_ctl_receive (h : handle).

(** The entries of a [knot_ctl_data_t] that the package reads; [None] is
    a NULL entry. *)
Record RawData : Type := {
  raw_section : option string;
  raw_id : option string;
  raw_item : option string;
  raw_zone : option string;
  raw_data : option string
}.

(** **** The C preamble *)

Definition knot_ctl_close_wrapper (h : handle) : list libcall :=
  [knot_ctl_send h CtlTypeEnd None; knot_ctl_close h].

(** [send_command_with_type]: the DATA unit with the command and, when
    given and not empty, the record type; then BLOCK, unless sending the
    DATA unit failed.  [ret_data] and [ret_block] are what [knot_ctl_send]
    returns. *)
Definition send_command_with_type (h : handle) (cmd : string) (rtype : option string)
    (ret_data ret_block : Z) : Z * list libcall :=
  let type_entry :=
    match rtype with
    | Some t => if str_nonempty (until_nul t) then Some (until_nul t) else None
    | None => None
    end in
  let data := knot_ctl_send h CtlTypeData (Some (until_nul cmd, type_entry)) in
  if negb (ret_data =? 0) then (ret_data, [data])
  else (ret_block, [data; knot_ctl_send h CtlTypeBlock None]).

(** [strncpy(dst, src, size - 1); dst[size - 1] = 0], or [dst[0] = 0] for
    a NULL entry, as [C.GoString] reads the buffer afterwards. *)
Definition copy_field (src : option string) (size : nat) : string :=
  match src with
  | Some s => str_take (size - 1) (until_nul s)
  | None => ""
  end.

Definition bufSize : nat := 1024.

(** [receive_simple_response], given what [knot_ctl_receive] returned:
    the return code and the five buffers (zeroed by Go, left alone on an
    error). *)
Definition receive_simple_response (ret : Z) (raw : RawData) : Z * CtlData :=
  if negb (ret =? 0) then
    (ret, {| Section_ := ""; ID := ""; Item := ""; Zone := ""; Data := "" |})
  else
    (0, {| Section_ := copy_field (raw_section raw) bufSize;
           ID := copy_field (raw_id raw) bufSize;
           Item := copy_field (raw_item raw) bufSize;
           Zone := copy_field (raw_zone raw) bufSize;
           Data := copy_field (raw_data raw) bufSize |}).

(** **** The Go wrapper *)

(** [type Ctl struct { ctl *C.knot_ctl_t }]: [None] is the nil pointer. *)
Record Ctl : Type := { ctl : option handle }.

(** [New()], given what [knot_ctl_alloc] returned; [None] is the nil
    [*Ctl]. *)
Definition New (alloc : option handle) : option Ctl * list libcall :=
  (match alloc with
   | Some h => Some {| ctl := Some h |}
   | None => None
   end, [knot_ctl_alloc]).

Definition Close (k : Ctl) : Ctl * list libcall :=
  match ctl k with
  | Some h => ({| ctl := None |}, (knot_ctl_close_wrapper h ++ [knot_ctl_free h])%list)
  | None => (k, [])
  end.

(** The [C.int] that [SetTimeout] passes on. *)
Definition cTimeout (timeout : Z) : Z :=
  if (0 <? timeout) && (timeout <=? 2147483647) then timeout
  else if timeout <=? 0 then 0
  else 2147483647.

Definition SetTimeout (k : Ctl) (timeout : Z) : list libcall :=
  match ctl k with
  | Some h => [knot_ctl_set_timeout h (cTimeout timeout)]
  | None => []
  end.

Definition not_initialized (tag : string) : error :=
  CtlError tag "control object not initialized".

Definition Connect (k : Ctl) (path : string) (ret : Z) (knot_strerror : Z -> string)
    : option error * list libcall :=
  match ctl k with
  | None => (Some (not_initialized "connect"), [])
  | Some h =>
      (if negb (ret =? 0) then Some (CtlError "connect" (knot_strerror ret)) else None,
       [knot_ctl_connect h (until_nul path)])
  end.

Definition send_with (k : Ctl) (cmd : string) (rtype : option string)
    (ret_data ret_block : Z) (knot_strerror : Z -> string)
    : option error * list libcall :=
  match ctl k with
  | None => (Some (not_initialized "send"), [])
  | Some h =>
      let '(ret, calls) := send_command_with_type h cmd rtype ret_data ret_block in
      (if negb (ret =? 0) then Some (CtlError "send" (knot_strerror ret)) else None,
       calls)
  end.

Definition SendCommand (k : Ctl) (cmd : string) :=
  send_with k cmd None.

Definition SendCommandWithType (k : Ctl) (cmd rtype : string) :=
  send_with k cmd (Some rtype).

(** [ReceiveResponse()]: the type, the data ([None] is nil) and the
    error. *)
Definition ReceiveResponse (k : Ctl) (ret : Z) (dataType : CtlType) (raw : RawData)
    (knot_strerror : Z -> string)
    : (CtlType * option CtlData * option error) * list libcall :=
  match ctl k with
  | None => ((0, None, Some (not_initialized "receive")), [])
  | Some h =>
      let '(ret', data) := receive_simple_response ret raw in
      (if negb (ret' =? 0) then (0, None, Some (CtlError "receive" (knot_strerror ret')))
       else (dataType, Some data, None),
       [knot_ctl_receive h])
  end.

(** The five fields of a response, and the entries they are copied
    from, in the same order. *)
Definition fields (d : CtlData) : list string :=
  [Section_ d; ID d; Item d; Zone d; Data d].

Definition raw_fields (raw : RawData) : list (option string) :=
  [raw_section raw; raw_id raw; raw_item raw; raw_zone raw; raw_data raw].


End LibknotCtl.

(** ** package collector *)

Module Collector.
Import Libknot.

(** *** Descriptors and metrics (prometheus) *)

(** A [*prometheus.Desc]: [addr] is the identity of the allocation. *)
Record Desc : Type := {
  addr : nat;
  fqName : string;
  help : string;
  variableLabels : list string
}.

Definition DescPair : Type := Desc * Desc.

Inductive ValueType : Type := GaugeValue | CounterValue.

(** What [prometheus.MustNewConstMetric] builds. *)
Record Metric : Type := {
  desc : Desc;
  valueType : ValueType;
  value : float64;
  labelValues : list string
}.

(** The names that [prometheus.NewDesc] accepts under every validation
    scheme of the library: metric names of letters, digits, [_] and [:]
    that do not start with a digit, label names of letters, digits and [_]
    that start with neither a digit nor [__], no label name twice, and a
    help text that is not empty.  For every other descriptor the
    library's version decides. *)
Definition name_char (c : ascii) : bool :=
  ((65 <=? byte_val c) && (byte_val c <=? 90))
  || ((97 <=? byte_val c) && (byte_val c <=? 122))
  || is_digit c || (byte_val c =? 95) || (byte_val c =? 58).

Definition plain_metric_name (s : string) : bool :=
  match s with
  | "" => false
  | String c _ => negb (is_digit c) && str_all name_char s
  end.

Definition plain_label_name (s : string) : bool :=
  match s with
  | "" => false
  | String c _ =>
      negb (is_digit c)
      && str_all (fun c => name_char c && negb (byte_val c =? 58)) s
      && negb (Strings.HasPrefix s "__")
  end.

(** [desc.err != nil], as [NewDesc] has set it. *)
Definition NewDesc_err `{GoLib} (fqName help : string) (variableLabels : list string)
    : bool :=
  if plain_metric_name fqName && str_nonempty help
     && forallb plain_label_name variableLabels
     && bool_decide (NoDup variableLabels)
  then false
  else NewDesc_other fqName help variableLabels.

Definition desc_err `{GoLib} (d : Desc) : bool :=
  NewDesc_err (fqName d) (help d) (variableLabels d).

(** Why [MustNewConstMetric] panics: the descriptor carries an error, the
    number of label values is not the number of variable labels, or a
    label value is not valid UTF-8; the checks are made in this order. *)
Inductive refusal : Type :=
| InvalidDesc
| LabelCount
| LabelNotUTF8.

Inductive made : Type :=
| Made (m : Metric)
| Panics (why : refusal).

Definition MustNewConstMetric `{GoLib} (d : Desc) (valueType : ValueType)
    (value : float64) (labelValues : list string) : made :=
  if desc_err d then Panics InvalidDesc
  else if negb (List.length labelValues =? List.length (variableLabels d))%nat then
    Panics LabelCount
  else if negb (forallb Utf8.ValidString labelValues) then Panics LabelNotUTF8
  else Made {| desc := d; valueType := valueType; value := value;
               labelValues := labelValues |}.

(** What a stretch of code has sent on the channel, in order, and the
    panic that ended it, if one did. *)
Definition Sent : Type := list Metric * option refusal.

Definition nothing : Sent := ([], None).

(** One statement after another: the second runs unless the first
    panicked. *)
Definition andThen (a b : Sent) : Sent :=
  match a.2 with
  | Some _ => a
  | None => ((a.1 ++ b.1)%list, b.2)
  end.

(** [ch <- prometheus.MustNewConstMetric(...)] *)
Definition send1 (m : made) : Sent :=
  match m with
  | Made m => ([m], None)
  | Panics why => ([], Some why)
  end.

Definition makeDescPair (a : nat) (fqName help : string) (variableLabels : list string)
    : DescPair :=
  ({| addr := a; fqName := fqName; help := help; variableLabels := variableLabels |},
   {| addr := S a; fqName := fqName +:+ "_total"; help := help;
      variableLabels := variableLabels |}).

(** The package-level descriptors, allocated once at start-up. *)
Definition memoryUsageDesc : DescPair :=
  makeDescPair 0 "knot_memory_usage_bytes" "Memory usage of Knot DNS processes" ["pid"].
Definition zoneSerialDesc : DescPair :=
  makeDescPair 2 "knot_zone_serial" "Zone serial number from Knot DNS" ["zone"].
Definition zoneRefreshDesc : DescPair :=
  makeDescPair 4 "knot_zone_refresh_seconds" "Zone SOA refresh timer" ["zone"].
Definition zoneRetryDesc : DescPair :=
  makeDescPair 6 "knot_zone_retry_seconds" "Zone SOA retry timer" ["zone"].
Definition zoneExpirationDesc : DescPair :=
  makeDescPair 8 "knot_zone_expiration_seconds" "Zone SOA expiration timer" ["zone"].
Definition zoneStatusExpirationDesc : DescPair :=
  makeDescPair 10 "knot_zone_status_expiration_seconds"
    "Zone expiration timer from zone-status" ["zone"].
Definition zoneStatusRefreshDesc : DescPair :=
  makeDescPair 12 "knot_zone_status_refresh_seconds"
    "Zone refresh timer from zone-status" ["zone"].
Definition buildInfoDesc : Desc :=
  {| addr := 14; fqName := "knot_build_info";
     help := "Build information about the exporter and libknot";
     variableLabels := ["version"; "build_time"; "git_commit"; "go_version";
                        "libknot_version"; "platform"] |}.

Definition first_dynamic_addr : nat := 15.

(** *** The dynamic descriptor maps

    [globalStatsDescriptors] and [zoneStatsDescriptors], with the next
    free allocation.  The locks are not modelled: calls are sequential. *)
Record Registry : Type := {
  globalStatsDescriptors : gmap string DescPair;
  zoneStatsDescriptors : gmap string DescPair;
  next_addr : nat
}.

Definition initial_registry : Registry :=
  {| globalStatsDescriptors := ∅; zoneStatsDescriptors := ∅;
     next_addr := first_dynamic_addr |}.

Definition getGlobalStatsDescriptor `{GoLib} (item : string) (reg : Registry)
    : DescPair * Registry :=
  match globalStatsDescriptors reg !! item with
  | Some d => (d, reg)
  | None =>
      (* under the write lock: check again, then create *)
      match globalStatsDescriptors reg !! item with
      | Some d => (d, reg)
      | None =>
          let metricName := "knot_stats_" +:+ Utils.SanitizeMetricName item in
          let help := "Global statistic: " +:+ item in
          let labels := ["module"; "type"] in
          let d := makeDescPair (next_addr reg) metricName help labels in
          (d, {| globalStatsDescriptors := <[item := d]> (globalStatsDescriptors reg);
                 zoneStatsDescriptors := zoneStatsDescriptors reg;
                 next_addr := S (S (next_addr reg)) |})
      end
  end.

Definition getZoneStatsDescriptor `{GoLib} (item : string) (reg : Registry)
    : DescPair * Registry :=
  match zoneStatsDescriptors reg !! item with
  | Some d => (d, reg)
  | None =>
      match zoneStatsDescriptors reg !! item with
      | Some d => (d, reg)
      | None =>
          let metricName := "knot_zone_stats_" +:+ Utils.SanitizeMetricName item in
          let help := "Zone statistic: " +:+ item in
          let labels := ["zone"; "module"; "type"] in
          let d := makeDescPair (next_addr reg) metricName help labels in
          (d, {| globalStatsDescriptors := globalStatsDescriptors reg;
                 zoneStatsDescriptors := <[item := d]> (zoneStatsDescriptors reg);
                 next_addr := S (S (next_addr reg)) |})
      end
  end.

(** *** The collector *)

Record KnotCollector : Type := {
  sockPath : string;
  timeout : Z;
  collectMemInfo : bool;
  collectStats : bool;
  collectZoneStats : bool;
  collectZoneStatus : bool;
  collectZoneTimers : bool;
  collectZoneSerial : bool;
  libknotVersion : string
}.

Definition convertStateTime `{GoLib} (timeStr : string) : option float64 :=
  if Utils.IsPrefixIn timeStr ["pending"; "running"; "frozen"] then Some (F64.of_Z 0)
  else if String.eqb timeStr "not scheduled" || String.eqb timeStr "-" then None
  else
    let '(seconds, ok) := Utils.ParseDurationString timeStr in
    if ok then Some seconds else None.

(** [Describe]: the descriptors sent on the channel, in order.  The
    dynamic descriptors are not announced. *)
Definition sendDesc (d : DescPair) : list Desc := [d.1; d.2].

Definition Describe (c : KnotCollector) : list Desc :=
  (buildInfoDesc
   :: (if collectMemInfo c then sendDesc memoryUsageDesc else [])
   ++ (if collectZoneSerial c then sendDesc zoneSerialDesc else [])
   ++ (if collectZoneTimers c then
         sendDesc zoneRefreshDesc ++ sendDesc zoneRetryDesc
         ++ sendDesc zoneExpirationDesc ++ sendDesc zoneStatusExpirationDesc
         ++ sendDesc zoneStatusRefreshDesc
       else []))%list.

(** The gauge, then its [_total] counter: each is built by
    [MustNewConstMetric] and sent; a panic of the first leaves the second
    unbuilt. *)
Definition sendMetrics `{GoLib} (d : DescPair) (v : float64) (labelValues : list string)
    : Sent :=
  andThen (send1 (MustNewConstMetric d.1 GaugeValue v labelValues))
    (send1 (MustNewConstMetric d.2 CounterValue v labelValues)).

(** How a phase left its receive loop: it returned, with the error or
    nil, it panicked in [MustNewConstMetric], or it was still receiving
    when the step budget of the model ran out. *)
Inductive outcome : Type :=
| Returned (err : option error)
| Panicked (why : refusal)
| Receiving.

Record PhaseResult (St : Type) : Type := {
  emitted : list Metric;
  final : St;
  result : outcome;
  calls : nat        (* ReceiveResponse calls made *)
}.
Arguments emitted {St}.
Arguments final {St}.
Arguments result {St}.
Arguments calls {St}.

Definition is_end (dataType : CtlType) : bool :=
  (dataType =? CtlTypeBlock) || (dataType =? CtlTypeEnd).

(** The receive loop the four phases share: receive; a transport error
    returns it; BLOCK or END ends the loop; any other record goes through
    the phase's [body], whose panic ends the phase.  [budget] bounds the
    iterations, [i] numbers the next call. *)
Fixpoint receive_loop {St : Type} (body : St -> CtlType -> CtlData -> St * Sent)
    (ctl : Ctl) (budget : nat) (i : nat) (st : St) : PhaseResult St :=
  match budget with
  | O => {| emitted := []; final := st; result := Receiving; calls := 0 |}
  | S budget' =>
      match ReceiveResponse ctl i with
      | RecvError err =>
          {| emitted := []; final := st; result := Returned (Some err); calls := 1 |}
      | Recv dataType data =>
          if is_end dataType then
            {| emitted := []; final := st; result := Returned None; calls := 1 |}
          else
            let '(st', (ms, panic)) := body st dataType data in
            match panic with
            | Some why =>
                {| emitted := ms; final := st'; result := Panicked why; calls := 1 |}
            | None =>
                let r := receive_loop body ctl budget' (S i) st' in
                {| emitted := (ms ++ emitted r)%list; final := final r;
                   result := result r; calls := S (calls r) |}
            end
      end
  end.

Definition send_failed {St : Type} (st : St) (err : error) : PhaseResult St :=
  {| emitted := []; final := st; result := Returned (Some err); calls := 0 |}.

(** **** Global statistics *)

Definition globalStatsRecord `{GoLib} (reg : Registry) (dataType : CtlType) (data : CtlData)
    : Registry * Sent :=
  if ((dataType =? CtlTypeData) || (dataType =? CtlTypeExtra))
     && str_nonempty (Item data) && str_nonempty (Data data) then
    match Strconv.ParseFloat (Data data) with
    | Some v =>
        let '(d, reg') := getGlobalStatsDescriptor (Item data) reg in
        (reg', sendMetrics d v [Section_ data; ID data])
    | None => (reg, nothing)
    end
  else (reg, nothing).

Definition collectGlobalStats `{GoLib} (ctl : Ctl) (budget : nat) (reg : Registry)
    : PhaseResult Registry :=
  match SendCommand ctl "stats" with
  | Some err => send_failed reg err
  | None => receive_loop globalStatsRecord ctl budget 0 reg
  end.

(** **** Zone status *)

(** Go's [int] on a 64-bit platform: [responseIndex++] wraps around. *)
Definition int_wrap (z : Z) : Z := (z + 2 ^ 63) mod 2 ^ 64 - 2 ^ 63.

Record ZoneCursor : Type := {
  currentZone : string;
  responseIndex : Z
}.

Definition zoneStatusRecord `{GoLib} (c : KnotCollector) (cur : ZoneCursor)
    (dataType : CtlType) (data : CtlData) : ZoneCursor * Sent :=
  if (dataType =? CtlTypeData) || (dataType =? CtlTypeExtra) then
    if (dataType =? CtlTypeData) && str_nonempty (Zone data)
       && negb (String.eqb (Zone data) (currentZone cur)) then
      ({| currentZone := Zone data; responseIndex := 0 |}, nothing)
    else if (dataType =? CtlTypeExtra) && str_nonempty (currentZone cur) then
      let responseIndex := int_wrap (responseIndex cur + 1) in
      let serial :=
        if collectZoneSerial c && (responseIndex =? 1) then
          match Strconv.ParseFloat (Data data) with
          | Some serial => sendMetrics zoneSerialDesc serial [currentZone cur]
          | None => nothing
          end
        else nothing in
      let timers :=
        if collectZoneStatus c && str_nonempty (Data data)
           && negb (String.eqb (Data data) "-") then
          if responseIndex =? 7 then
            match convertStateTime (Data data) with
            | Some seconds => sendMetrics zoneStatusRefreshDesc seconds [currentZone cur]
            | None => nothing
            end
          else if responseIndex =? 9 then
            match convertStateTime (Data data) with
            | Some seconds => sendMetrics zoneStatusExpirationDesc seconds [currentZone cur]
            | None => nothing
            end
          else nothing
        else nothing in
      ({| currentZone := currentZone cur; responseIndex := responseIndex |},
       andThen serial timers)
    else (cur, nothing)
  else (cur, nothing).

Definition collectZoneStatusInfo `{GoLib} (c : KnotCollector) (ctl : Ctl) (budget : nat)
    : PhaseResult ZoneCursor :=
  let start := {| currentZone := ""; responseIndex := 0 |} in
  match SendCommand ctl "zone-status" with
  | Some err => send_failed start err
  | None => receive_loop (zoneStatusRecord c) ctl budget 0 start
  end.

(** **** Zone statistics *)

Definition zoneStatsRecord `{GoLib} (reg : Registry) (dataType : CtlType) (data : CtlData)
    : Registry * Sent :=
  if ((dataType =? CtlTypeData) || (dataType =? CtlTypeExtra))
     && str_nonempty (Zone data) && str_nonempty (Item data)
     && str_nonempty (Data data) then
    let statType := Item data in
    let statSubtype := ID data in
    match Strconv.ParseFloat (Data data) with
    | Some v =>
        let '(d, reg') := getZoneStatsDescriptor statType reg in
        (reg', sendMetrics d v [Zone data; Section_ data; statSubtype])
    | None => (reg, nothing)
    end
  else (reg, nothing).

Definition collectZoneStatistics `{GoLib} (ctl : Ctl) (budget : nat) (reg : Registry)
    : PhaseResult Registry :=
  match SendCommand ctl "zone-stats" with
  | Some err => send_failed reg err
  | None => receive_loop zoneStatsRecord ctl budget 0 reg
  end.

(** **** Zone timers, from the SOA records *)

Definition maxResponses : Z := 100000.

(** Fields 2 to 6 of the SOA, each through [ParseInt]; the first failure
    gives up ([allNumeric = false]). *)
Fixpoint parse_numeric (fields : list string) : option (list Z) :=
  match fields with
  | [] => Some []
  | f :: fields' =>
      match Strconv.ParseInt f with
      | None => None
      | Some val =>
          match parse_numeric fields' with
          | None => None
          | Some vals => Some (val :: vals)
          end
      end
  end.

Definition zoneTimerRecord `{GoLib} (_ : unit) (dataType : CtlType) (data : CtlData)
    : unit * Sent :=
  if (dataType =? CtlTypeData) && str_nonempty (Zone data) then
    let soaFields := Strings.Fields (Data data) in
    if (List.length soaFields =? 7)%nat then
      let isPrimarySuffix := Strings.HasSuffix (default "" (soaFields !! 0%nat)) "." in
      let isAdminValid := Strings.HasSuffix (default "" (soaFields !! 1%nat)) "." in
      if isPrimarySuffix && isAdminValid then
        match parse_numeric (drop 2 soaFields) with
        | Some numericValues =>
            (tt,
             andThen
               (sendMetrics zoneRefreshDesc
                  (F64.of_Z (default 0 (numericValues !! 1%nat))) [Zone data])
               (andThen
                  (sendMetrics zoneRetryDesc
                     (F64.of_Z (default 0 (numericValues !! 2%nat))) [Zone data])
                  (sendMetrics zoneExpirationDesc
                     (F64.of_Z (default 0 (numericValues !! 3%nat))) [Zone data])))
        | None => (tt, nothing)
        end
      else (tt, nothing)
    else (tt, nothing)
  else (tt, nothing).

(** The loop runs while [count < maxResponses]; leaving it by the bound
    falls through to [return nil]. *)
Definition leave_at_bound (r : PhaseResult unit) : PhaseResult unit :=
  match result r with
  | Receiving =>
      {| emitted := emitted r; final := tt; result := Returned None; calls := calls r |}
  | _ => r
  end.

Definition collectZoneTimerInfo `{GoLib} (ctl : Ctl) : PhaseResult unit :=
  match SendCommandWithType ctl "zone-read" "SOA" with
  | Some err =>
      send_failed tt (Errorf ("zone-read SOA command failed: " +:+ Error err))
  | None =>
      leave_at_bound (receive_loop zoneTimerRecord ctl (Z.to_nat maxResponses) 0 tt)
  end.

(** **** Memory usage

    The host is given by what [pidof knotd] printed ([None] when the
    command failed) and, for each pid, the lines that the scanner yields
    for [/proc/<pid>/status] ([None] when the file cannot be read). *)

Record Host : Type := {
  pidof : option string;
  proc_status : Z -> option (list string)
}.

(** The scan for the first [VmRSS:] line; [uint64] arithmetic wraps. *)
Fixpoint vmRSS (lines : list string) : Z :=
  match lines with
  | [] => 0
  | line :: rest =>
      if Strings.HasPrefix line "VmRSS:" then
        let fields := Strings.Fields line in
        if (2 <=? List.length fields)%nat then
          match Strconv.ParseUint64 (default "" (fields !! 1%nat)) with
          | Some kb => (kb * 1024) mod 2 ^ 64
          | None => 0
          end
        else 0
      else vmRSS rest
  end.

Definition getProcessMemory (host : Host) (pid : Z) : Z :=
  if (pid <=? 0) || (4194304 <? pid) then 0
  else
    match proc_status host pid with
    | None => 0
    | Some lines => vmRSS lines
    end.

Definition memoryUsage (host : Host) : gmap string Z :=
  match pidof host with
  | None => ∅
  | Some output =>
      foldl (fun out pidStr =>
               match Strconv.ParseInt pidStr with
               | Some pid =>
                   let usage := getProcessMemory host pid in
                   if 0 <? usage then <[pidStr := usage]> out else out
               | None => out
               end)
        ∅ (Strings.Fields output)
  end.

(** A host with two knotd processes, of which one has gone. *)
Definition example_host : Host :=
  {| pidof := Some ("4711 4712" +:+ String "010" "");
     proc_status := fun pid =>
       if pid =? 4711 then
         Some ["Name:   knotd"; "VmPeak:   812345 kB"; "VmRSS:     51200 kB";
               "Threads:        7"]
       else None |}.

(** **** Collect

    One pass talks to up to four control objects, one per command.  The
    world of a pass fixes what each [libknot.New()] returns ([None] is the
    nil object), whether connecting it fails, and what [memoryUsage()]
    finds, in the order the map is ranged over. *)

Record Session : Type := {
  connectError : option error;
  ctl : Ctl
}.

Record World : Type := {
  sessions : nat -> option Session;
  memUsage : list (string * Z)
}.

(** The package variables set at build time, and [GOOS/GOARCH]. *)
Record BuildInfo : Type := {
  Version : string;
  BuildTime : string;
  GitCommit : string;
  GoVersion : string;
  platform : string
}.

(** What a pass does that is visible outside: observations sent on the
    channel, and the life of each control object. *)
Inductive event : Type :=
| Observe (m : Metric)
| CtlNew (n : nat)
| CtlConnect (n : nat) (path : string)
| CtlSetTimeout (n : nat) (timeout : Z)
| CtlClose (n : nat).

Record CState : Type := {
  trace : list event;
  registry : Registry;
  deferred : list nat      (* deferred [ctl.Close()] calls, latest first *)
}.

Inductive flow (A : Type) : Type :=
| Next (a : A)            (* go on with the next statement *)
| Return_                 (* [return] *)
| Panic (why : refusal)   (* [MustNewConstMetric] has panicked *)
| Stuck.                  (* a receive loop has not finished *)
Arguments Next {A}.
Arguments Return_ {A}.
Arguments Panic {A}.
Arguments Stuck {A}.

Definition M (A : Type) : Type := CState -> flow A * CState.

#[export] Instance M_ret : MRet M := fun A a st => (Next a, st).

#[export] Instance M_bind : MBind M := fun A B f m st =>
  match m st with
  | (Next a, st') => f a st'
  | (Return_, st') => (Return_, st')
  | (Panic why, st') => (Panic why, st')
  | (Stuck, st') => (Stuck, st')
  end.

Definition event_ (e : event) : M unit := fun st =>
  (Next tt, {| trace := (trace st ++ [e])%list; registry := registry st;
               deferred := deferred st |}).

(** Statements that send observations: what was sent is on the channel
    whether or not a panic ended them. *)
Definition send (s : Sent) : M unit := fun st =>
  let st' := {| trace := (trace st ++ List.map Observe s.1)%list; registry := registry st;
                deferred := deferred st |} in
  match s.2 with
  | None => (Next tt, st')
  | Some why => (Panic why, st')
  end.

Definition defer_Close (n : nat) : M unit := fun st =>
  (Next tt, {| trace := trace st; registry := registry st;
               deferred := n :: deferred st |}).

Definition return_ {A : Type} : M A := fun st => (Return_, st).

Definition when (b : bool) (m : M unit) : M unit := if b then m else mret tt.

(** Run a phase: its observations are sent; its error, if any, is only
    logged; its panic goes up through [Collect]. *)
Definition phase {St : Type} (r : PhaseResult St) : M St := fun st =>
  let st' := {| trace := (trace st ++ List.map Observe (emitted r))%list;
                registry := registry st; deferred := deferred st |} in
  match result r with
  | Returned _ => (Next (final r), st')
  | Panicked why => (Panic why, st')
  | Receiving => (Stuck, st')
  end.

(** The statistics phases work on the package's descriptor maps: what
    they have added stays, also when the phase panics. *)
Definition with_registry (f : Registry -> PhaseResult Registry) : M unit := fun st =>
  match phase (f (registry st)) st with
  | (Next reg', st') =>
      (Next tt, {| trace := trace st'; registry := reg'; deferred := deferred st' |})
  | (Return_, st') => (Return_, st')
  | (Panic why, st') =>
      (Panic why, {| trace := trace st'; registry := final (f (registry st));
                     deferred := deferred st' |})
  | (Stuck, st') => (Stuck, st')
  end.

(** [ctl := libknot.New(); if ctl == nil { return }; defer ctl.Close();
    if err := ctl.Connect(c.sockPath); err != nil { return };
    ctl.SetTimeout(c.timeout)] *)
Definition open_ctl (c : KnotCollector) (w : World) (n : nat) : M Ctl :=
  event_ (CtlNew n);;
  match sessions w n with
  | None => return_
  | Some s =>
      defer_Close n;;
      event_ (CtlConnect n (sockPath c));;
      match connectError s with
      | Some _ => return_
      | None => event_ (CtlSetTimeout n (timeout c));; mret (ctl s)
      end
  end.

Definition buildInfoMetric `{GoLib} (c : KnotCollector) (b : BuildInfo) : made :=
  MustNewConstMetric buildInfoDesc GaugeValue (F64.of_Z 1)
    [Version b; BuildTime b; GitCommit b; GoVersion b; libknotVersion c; platform b].

(** [for pid, usage := range memUsage { sendMetrics(...) }] *)
Definition memoryMetrics `{GoLib} (w : World) : Sent :=
  foldr (fun '(pid, usage) rest =>
           andThen (sendMetrics memoryUsageDesc (F64.of_Z usage) [pid]) rest)
    nothing (memUsage w).

Definition Collect_body `{GoLib} (c : KnotCollector) (b : BuildInfo) (w : World)
    (budget : nat) : M unit :=
  send (send1 (buildInfoMetric c b));;
  ctl0 ← open_ctl c w 0;
  when (collectMemInfo c) (send (memoryMetrics w));;
  when (collectStats c) (with_registry (collectGlobalStats ctl0 budget));;
  event_ (CtlClose 0);;
  ctl1 ← open_ctl c w 1;
  when (collectZoneStatus c || collectZoneSerial c)
    (phase (collectZoneStatusInfo c ctl1 budget);; mret tt);;
  last ← (if collectZoneStats c then
            event_ (CtlClose 1);;
            ctl2 ← open_ctl c w 2;
            with_registry (collectZoneStatistics ctl2 budget);;
            mret 2%nat
          else mret 1%nat);
  when (collectZoneTimers c)
    (event_ (CtlClose last);;
     ctl3 ← open_ctl c w (S last);
     phase (collectZoneTimerInfo ctl3);; mret tt).

Record CollectResult : Type := {
  events : list event;
  finished : bool;                (* [Collect] has returned *)
  panicked : option refusal;      (* [Collect] has panicked *)
  registry_after : Registry
}.

(** The deferred closes run when [Collect] returns or panics, latest
    first. *)
Definition Collect `{GoLib} (c : KnotCollector) (b : BuildInfo) (w : World)
    (budget : nat) (reg : Registry) : CollectResult :=
  let '(fl, st) :=
    Collect_body c b w budget {| trace := []; registry := reg; deferred := [] |} in
  match fl with
  | Stuck =>
      {| events := trace st; finished := false; panicked := None;
         registry_after := registry st |}
  | Panic why =>
      {| events := (trace st ++ List.map CtlClose (deferred st))%list; finished := false;
         panicked := Some why; registry_after := registry st |}
  | _ =>
      {| events := (trace st ++ List.map CtlClose (deferred st))%list; finished := true;
         panicked := None; registry_after := registry st |}
  end.

(** *** Notions used to state the properties *)

(** What the first [n] records from call [i] on make the phase's body
    send, one record after the other up to the first that panics, and the
    phase state then. *)
Fixpoint records_emitted {St : Type} (body : St -> CtlType -> CtlData -> St * Sent)
    (ctl : Ctl) (n : nat) (i : nat) (st : St) : St * Sent :=
  match n with
  | O => (st, nothing)
  | S n' =>
      match ReceiveResponse ctl i with
      | RecvError _ => (st, nothing)
      | Recv dataType data =>
          let '(st', s) := body st dataType data in
          match s.2 with
          | Some _ => (st', s)
          | None =>
              let '(st'', s') := records_emitted body ctl n' (S i) st' in
              (st'', andThen s s')
          end
      end
  end.

(** Call [i] answers with a record that is neither BLOCK nor END. *)
Definition plain_record (ctl : Ctl) (i : nat) : Prop :=
  exists dataType data,
    ReceiveResponse ctl i = Recv dataType data
    /\ dataType <> CtlTypeBlock /\ dataType <> CtlTypeEnd.

(** Call [i] answers with a transport error, BLOCK or END. *)
Definition stops_at (ctl : Ctl) (i : nat) : Prop :=
  match ReceiveResponse ctl i with
  | RecvError _ => True
  | Recv dataType _ => dataType = CtlTypeBlock \/ dataType = CtlTypeEnd
  end.

(** A statistic name of letters, digits, [_], [:] and the five
    characters that [SanitizeMetricName] replaces: its sanitized form
    makes a metric name that every version of the library accepts. *)
Definition plain_item (item : string) : bool :=
  str_all (fun c => name_char c
                    || Ascii.eqb c "-" || Ascii.eqb c " " || Ascii.eqb c "."
                    || Ascii.eqb c "/" || Ascii.eqb c "+")%char item.

(** A record whose section, id and zone are valid UTF-8 and whose item is
    a plain statistic name: nothing in it makes [MustNewConstMetric]
    panic. *)
Definition clean_record (data : CtlData) : bool :=
  Utf8.ValidString (Section_ data) && Utf8.ValidString (ID data)
  && Utf8.ValidString (Zone data) && plain_item (Item data).

(** The records that the calls before [n] answer with are clean; and the
    same of every call. *)
Definition clean_upto (ctl : Ctl) (n : nat) : Prop :=
  forall j dataType data,
    (j < n)%nat -> ReceiveResponse ctl j = Recv dataType data -> clean_record data = true.

Definition clean_stream (ctl : Ctl) : Prop :=
  forall j dataType data,
    ReceiveResponse ctl j = Recv dataType data -> clean_record data = true.

(** The registries a process can be in: the initial one, and whatever the
    two get operations make of a reachable one. *)
Inductive reachable `{GoLib} : Registry -> Prop :=
| reachable_initial : reachable initial_registry
| reachable_global item reg :
    reachable reg -> reachable (getGlobalStatsDescriptor item reg).2
| reachable_zone item reg :
    reachable reg -> reachable (getZoneStatsDescriptor item reg).2.

(** The number of entries a descriptor map holds under a key. *)
Definition entries (m : gmap string DescPair) (item : string) : nat :=
  List.length (List.filter (fun kv => String.eqb kv.1 item) (map_to_list m)).

(** What every entry of the two maps looks like: the pair that the get
    operation builds for its key, allocated among the dynamic addresses. *)
Definition global_entry_ok `{GoLib} (next : nat) (item : string) (d : DescPair) : Prop :=
  exists a,
    d = makeDescPair a ("knot_stats_" +:+ Utils.SanitizeMetricName item)
          ("Global statistic: " +:+ item) ["module"; "type"]
    /\ (first_dynamic_addr <= a)%nat /\ (S a < next)%nat.

Definition zone_entry_ok `{GoLib} (next : nat) (item : string) (d : DescPair) : Prop :=
  exists a,
    d = makeDescPair a ("knot_zone_stats_" +:+ Utils.SanitizeMetricName item)
          ("Zone statistic: " +:+ item) ["zone"; "module"; "type"]
    /\ (first_dynamic_addr <= a)%nat /\ (S a < next)%nat.

Definition registry_ok `{GoLib} (reg : Registry) : Prop :=
  (forall item d, globalStatsDescriptors reg !! item = Some d ->
                  global_entry_ok (next_addr reg) item d)
  /\ (forall item d, zoneStatsDescriptors reg !! item = Some d ->
                     zone_entry_ok (next_addr reg) item d)
  /\ (first_dynamic_addr <= next_addr reg)%nat.


Definition not_build_info (m : Metric) : Prop :=
  String.eqb (fqName (desc m)) "knot_build_info" = false.

(** Every control object of the world answers some call before the
    budget with an error, BLOCK or END. *)
Definition streams_end (w : World) (budget : nat) : Prop :=
  forall n s, sessions w n = Some s ->
              exists k, (k < budget)%nat /\ stops_at (ctl s) k.

(** The strings of the build-info observation are valid UTF-8. *)
Definition valid_build (c : KnotCollector) (b : BuildInfo) : bool :=
  forallb Utf8.ValidString
    [Version b; BuildTime b; GitCommit b; GoVersion b; libknotVersion c; platform b].

(** The build-info observation. *)
Definition build_observation (c : KnotCollector) (b : BuildInfo) : Metric :=
  {| desc := buildInfoDesc; valueType := GaugeValue; value := F64.of_Z 1;
     labelValues := [Version b; BuildTime b; GitCommit b; GoVersion b;
                     libknotVersion c; platform b] |}.

(** The pids are valid UTF-8 and every stream of the world is clean. *)
Definition clean_world (w : World) : Prop :=
  Forall (fun p => Utf8.ValidString p.1 = true) (memUsage w)
  /\ forall n s, sessions w n = Some s -> clean_stream (ctl s).

(** The observation with these contents. *)
Definition observation (d : Desc) (t : ValueType) (v : Z) (labels : list string)
    : Metric :=
  {| desc := d; valueType := t; value := F64.of_Z v; labelValues := labels |}.




(** A step of [Collect] that keeps the registry well formed and whose
    panic, if it has one, is for a reason in [R]. *)
Definition panics_only `{GoLib} (R : refusal -> Prop) {A : Type} (m : M A) : Prop :=
  forall st, registry_ok (registry st) ->
    registry_ok (registry (m st).2) /\ forall why, (m st).1 = Panic why -> R why.

(** A step of [Collect] that keeps [I] of the state, and hands on a value
    that satisfies [Q]. *)
Definition steps (I : CState -> Prop) {A : Type} (Q : A -> Prop) (m : M A) : Prop :=
  forall st, I st -> I (m st).2 /\ forall a, (m st).1 = Next a -> Q a.

(** The observations among the events of a pass, in order. *)
Definition observed (es : list event) : list Metric :=
  List.concat (List.map (fun e => match e with Observe m => [m] | _ => [] end) es).

(** Every entry of [reg] is an entry of [reg']. *)
Definition grows (reg reg' : Registry) : Prop :=
  (forall item p, globalStatsDescriptors reg !! item = Some p ->
                  globalStatsDescriptors reg' !! item = Some p)
  /\ (forall item p, zoneStatsDescriptors reg !! item = Some p ->
                     zoneStatsDescriptors reg' !! item = Some p).

(** As many label values as the descriptor has variable labels: what
    [MustNewConstMetric] checks first. *)
Definition arity_ok (m : Metric) : Prop :=
  List.length (labelValues m) = List.length (variableLabels (desc m)).

(** [P] of the observations among the events. *)
Definition event_metric (P : Metric -> Prop) (e : event) : Prop :=
  match e with
  | Observe m => P m
  | _ => True
  end.

(** The gauge or the counter of a descriptor pair. *)
Definition pair_metric (d : DescPair) (m : Metric) : Prop :=
  (desc m = d.1 /\ valueType m = GaugeValue)
  \/ (desc m = d.2 /\ valueType m = CounterValue).

(** Labelled with one zone name, not empty. *)
Definition zone_labelled (m : Metric) : Prop :=
  exists zone, labelValues m = [zone] /\ str_nonempty zone = true.

(** An observation of a global statistic, or of a zone statistic, under a
    pair that the registry holds. *)
Definition global_stat (reg : Registry) (m : Metric) : Prop :=
  exists item p section id,
    globalStatsDescriptors reg !! item = Some p /\ pair_metric p m
    /\ labelValues m = [section; id].

Definition zone_stat (reg : Registry) (m : Metric) : Prop :=
  exists item p zone section id,
    zoneStatsDescriptors reg !! item = Some p /\ pair_metric p m
    /\ labelValues m = [zone; section; id] /\ str_nonempty zone = true.

(** A descriptor made on demand, or one that [Describe] announces. *)
Definition announced (c : KnotCollector) (m : Metric) : Prop :=
  (first_dynamic_addr <= addr (desc m))%nat \/ List.In (desc m) (Describe c).

(** The registry satisfies [R] and every event so far satisfies [P]. *)
Definition inv (R : Registry -> Prop) (P : event -> Prop) (st : CState) : Prop :=
  R (registry st) /\ Forall P (trace st).

(** The control objects are numbered below four. *)
Definition few_objects (e : event) : Prop :=
  match e with
  | CtlNew n => (n < 4)%nat
  | _ => True
  end.

(** The control objects a pass has created and not closed are all among
    the deferred closes. *)
Definition closes_pending (w : World) (st : CState) : Prop :=
  forall n, List.In (CtlNew n) (trace st) -> sessions w n <> None ->
            List.In n (deferred st).

(** The cursor of the zone-status example at position [k]. *)
Definition at_position (k : Z) : ZoneCursor :=
  {| currentZone := "example.com"; responseIndex := k |}.

(** A control object that answers a fixed list of responses, then BLOCK. *)
Definition no_data : CtlData :=
  {| Section_ := ""; ID := ""; Item := ""; Zone := ""; Data := "" |}.

Definition scripted (sendResult : option error) (rs : list response) : Ctl :=
  {| SendCommand := fun _ => sendResult;
     SendCommandWithType := fun _ _ => sendResult;
     ReceiveResponse := fun i => default (Recv CtlTypeBlock no_data) (rs !! i) |}.

(** A control object whose stream never ends. *)
Definition endless : Ctl :=
  {| SendCommand := fun _ => None;
     SendCommandWithType := fun _ _ => None;
     ReceiveResponse := fun _ => Recv CtlTypeData no_data |}.

(** Concrete inputs: a collector with every option on, the zone-status
    stream and the SOA record of the examples, and a host on which the
    control object cannot be allocated. *)
Definition example_collector : KnotCollector :=
  {| sockPath := "/run/knot/knot.sock"; timeout := 2000;
     collectMemInfo := true; collectStats := true; collectZoneStats := true;
     collectZoneStatus := true; collectZoneTimers := true;
     collectZoneSerial := true; libknotVersion := "3.3.0" |}.

(** The same collector started without [-zone-timers]. *)
Definition status_only_collector : KnotCollector :=
  {| sockPath := "/run/knot/knot.sock"; timeout := 2000;
     collectMemInfo := true; collectStats := true; collectZoneStats := true;
     collectZoneStatus := true; collectZoneTimers := false;
     collectZoneSerial := true; libknotVersion := "3.3.0" |}.

Definition zone_record (zone value : string) : CtlData :=
  {| Section_ := ""; ID := ""; Item := ""; Zone := zone; Data := value |}.

Definition zone_status_script : Ctl :=
  scripted None
    [ Recv CtlTypeData (zone_record "example.com" "master");
      Recv CtlTypeExtra (zone_record "" "2023101801");
      Recv CtlTypeExtra (zone_record "" "open");
      Recv CtlTypeExtra (zone_record "" "none");
      Recv CtlTypeExtra (zone_record "" "not scheduled");
      Recv CtlTypeExtra (zone_record "" "not scheduled");
      Recv CtlTypeExtra (zone_record "" "not scheduled");
      Recv CtlTypeExtra (zone_record "" "+1h30m");
      Recv CtlTypeExtra (zone_record "" "not scheduled");
      Recv CtlTypeExtra (zone_record "" "+30D") ].

Definition soa_record : CtlData :=
  zone_record "example.com"
    "ns1.example.com. admin.example.com. 2023101801 3600 600 86400 300".

Definition soa_script : Ctl := scripted None [Recv CtlTypeData soa_record].




(** A stream that ends with END after the SOA record; what follows the
    END is not to be read. *)
Definition ended_script : Ctl :=
  scripted None
    [Recv CtlTypeData soa_record; Recv CtlTypeEnd no_data; Recv CtlTypeData soa_record].

(** A stream that breaks after the SOA record. *)
Definition broken_error : error := CtlError "receive" "connection reset by peer".

Definition broken_script : Ctl :=
  scripted None [Recv CtlTypeData soa_record; RecvError broken_error].

(** A statistics stream: a server counter, a record without a value, a
    per-zone counter, then BLOCK. *)
Definition stats_script : Ctl :=
  scripted None
    [ Recv CtlTypeData
        {| Section_ := "server"; ID := ""; Item := "zone-count"; Zone := "";
           Data := "3" |};
      Recv CtlTypeData
        {| Section_ := "mod-stats"; ID := "udp4"; Item := "request-protocol"; Zone := "";
           Data := "" |};
      Recv CtlTypeData
        {| Section_ := "mod-stats"; ID := "NOERROR"; Item := "response-code";
           Zone := "example.com."; Data := "17" |} ].

Definition example_build : BuildInfo :=
  {| Version := "1.0.0"; BuildTime := "2024-01-01"; GitCommit := "abcdef0";
     GoVersion := "go1.22"; platform := "linux/amd64" |}.



(** A host with one knotd process, whose four control objects connect and
    answer the statistics stream, the zone-status stream, the statistics
    stream again and the SOA record. *)
Definition online_world : World :=
  {| sessions := fun n =>
       Some {| connectError := None;
               ctl := match n with
                      | 0 => stats_script
                      | 1 => zone_status_script
                      | 2 => stats_script
                      | _ => soa_script
                      end%nat |};
     memUsage := [("4711", 52428800)] |}.

End Collector.

(** ** package main: the connection test behind the health check *)

Module Main.
Import Libknot LibknotCtl.







End Main.

(** ** A reference instance of the open library tables *)

#[export] Instance plainLib : GoLib :=
  {| ParseFloat_other := fun _ => None; lower_table := fun r => r;
     NewDesc_other := fun _ _ _ => true |}.

(** * Properties *)

(** ** Strings *)

Module StringFacts.

Lemma append_cons a s t : String a s +:+ t = String a (s +:+ t).
Proof. reflexivity. Qed.

Lemma append_nil_l t : "" +:+ t = t.
Proof. reflexivity. Qed.

Lemma append_nil_r s : s +:+ "" = s.
Proof. induction s as [|a s IH]; [reflexivity|]. now rewrite append_cons, IH. Qed.

Lemma append_assoc s t u : (s +:+ t) +:+ u = s +:+ (t +:+ u).
Proof. induction s as [|a s IH]; [reflexivity|]. now rewrite !append_cons, IH. Qed.

Lemma length_append s t :
  String.length (s +:+ t) = (String.length s + String.length t)%nat.
Proof. induction s as [|a s IH]; [reflexivity|]. rewrite append_cons. simpl. now rewrite IH. Qed.

Lemma str_take_append s t : str_take (String.length s) (s +:+ t) = s.
Proof. induction s as [|a s IH]; [now destruct t|]. rewrite append_cons. simpl. now rewrite IH. Qed.

Lemma str_take_all s : str_take (String.length s) s = s.
Proof. induction s as [|a s IH]; [reflexivity|]. simpl. now rewrite IH. Qed.

Lemma str_all_append p s t :
  str_all p (s +:+ t) = str_all p s && str_all p t.
Proof.
  induction s as [|a s IH]; [reflexivity|]. rewrite append_cons. simpl.
  now rewrite IH, andb_assoc.
Qed.

End StringFacts.

(** ** float64 on integers up to 2^53 is exact *)

Module F64Facts.

Lemma digits2_size m : digits2_pos m = Pos.size m.
Proof. induction m as [m IH|m IH|]; simpl; now rewrite ?IH. Qed.

Lemma digits2_log2 m : Zpos (digits2_pos m) = Z.log2 (Zpos m) + 1.
Proof.
  rewrite digits2_size. destruct m as [m|m|]; simpl; try lia.
Qed.

(** The number of binary digits from bounds. *)
Lemma digits2_bounds m d : 2 ^ (d - 1) <= Zpos m < 2 ^ d -> 1 <= d -> Zpos (digits2_pos m) = d.
Proof.
  intros Hb Hd. rewrite digits2_log2.
  rewrite (Z.log2_unique (Zpos m) (d - 1)); [lia|lia|].
  now replace (Z.succ (d - 1)) with d by lia.
Qed.

Lemma iter_pos_iter {A} (f : A -> A) p : forall x, SpecFloat.iter_pos f p x = Pos.iter f x p.
Proof.
  induction p as [p IH|p IH|]; intros x; simpl.
  - now rewrite !IH, <- !Pos.iter_swap.
  - now rewrite !IH.
  - reflexivity.
Qed.

Lemma shl_pos m p : Zpos (Pos.iter xO m p) = Zpos m * 2 ^ Zpos p.
Proof.
  induction p as [|p IH] using Pos.peano_ind.
  - simpl. lia.
  - rewrite Pos.iter_succ, Pos2Z.inj_succ, Z.pow_succ_r by lia.
    rewrite Pos2Z.inj_xO, IH. lia.
Qed.

Lemma shr_shl p : forall m,
  SpecFloat.iter_pos shr_1 p (Build_shr_record (Zpos (Pos.iter xO m p)) false false)
  = Build_shr_record (Zpos m) false false.
Proof.
  intros m. rewrite iter_pos_iter. revert m.
  induction p as [|p IH] using Pos.peano_ind; intros m.
  - reflexivity.
  - rewrite !Pos.iter_succ, <- Pos.iter_swap. simpl shr_1. apply IH.
Qed.

(** A mantissa that is a 53-bit number shifted left by [k] is rounded to
    that number, exactly. *)
Lemma shr_exact m q e k :
  0 <= k -> Zpos m = Zpos q * 2 ^ k ->
  shr (Build_shr_record (Zpos m) false false) e k
  = (Build_shr_record (Zpos q) false false, e + k).
Proof.
  intros Hk Hm. destruct k as [|p|p]; try lia.
  - change (2 ^ 0) with 1 in Hm. rewrite Z.mul_1_r in Hm. injection Hm as ->.
    unfold shr. now rewrite Z.add_0_r.
  - rewrite <- shl_pos in Hm. injection Hm as ->.
    unfold shr. now rewrite shr_shl.
Qed.

Lemma fexp_normal d : -1021 <= d -> fexp 53 1024 d = d - 53.
Proof. intros Hd. unfold fexp, emin. lia. Qed.

Lemma digits_shifted q k :
  2 ^ 52 <= Zpos q < 2 ^ 53 -> 0 <= k ->
  forall m, Zpos m = Zpos q * 2 ^ k -> Zpos (digits2_pos m) = 53 + k.
Proof.
  intros Hq Hk m Hm. apply digits2_bounds; [|lia].
  rewrite Hm. replace (53 + k - 1) with (52 + k) by lia.
  rewrite !Z.pow_add_r by lia. split.
  - apply Z.mul_le_mono_nonneg_r; [apply Z.pow_nonneg|]; lia.
  - apply Z.mul_lt_mono_pos_r; [apply Z.pow_pos_nonneg|]; lia.
Qed.

(** Rounding a mantissa that is a 53-bit number [q] shifted left by [k]
    gives back [q] with the exponent raised by [k]. *)
Lemma round_aux_exact sx m e q k :
  2 ^ 52 <= Zpos q < 2 ^ 53 -> 0 <= k -> Zpos m = Zpos q * 2 ^ k ->
  -1074 <= e + k <= 971 ->
  binary_round_aux 53 1024 sx (Zpos m) e loc_Exact = S754_finite sx q (e + k).
Proof.
  intros Hq Hk Hm He.
  unfold binary_round_aux, shr_fexp, Zdigits2.
  rewrite (digits_shifted q k Hq Hk m Hm).
  rewrite fexp_normal by lia.
  replace (53 + k + e - 53 - e) with k by lia.
  cbn [shr_record_of_loc]. rewrite (shr_exact m q e k Hk Hm).
  cbn [shr_m loc_of_shr_record round_nearest_even].
  rewrite (digits_shifted q 0 Hq ltac:(lia) q ltac:(lia)).
  rewrite fexp_normal by lia.
  replace (53 + 0 + (e + k) - 53 - (e + k)) with 0 by lia.
  cbn [shr_record_of_loc shr shr_m].
  destruct (Z.leb_spec (e + k) (1024 - 53)); [reflexivity|lia].
Qed.


Lemma shl_align_fst q e ez :
  ez <= e -> Zpos (fst (shl_align q e ez)) = Zpos q * 2 ^ (e - ez).
Proof.
  intros Hle. unfold shl_align. destruct (ez - e) as [|d|d] eqn:E; try lia.
  - replace (e - ez) with 0 by lia. cbn [fst]. change (2 ^ 0) with 1. lia.
  - cbn [fst]. rewrite shl_pos. f_equal. f_equal. lia.
Qed.

(** Two ways of writing one value with powers of two. *)
Lemma pow2_value_eq a b x y :
  0 <= x -> 0 <= y -> a * 2 ^ x = b * 2 ^ y ->
  (x <= y -> a = b * 2 ^ (y - x)) /\ (y <= x -> b = a * 2 ^ (x - y)).
Proof.
  intros Hx Hy E. split; intros Hle.
  - replace y with ((y - x) + x) in E by lia. rewrite Z.pow_add_r in E by lia.
    rewrite Z.mul_assoc in E. apply Z.mul_reg_r in E; [assumption|].
    apply Z.pow_nonzero; lia.
  - replace x with ((x - y) + y) in E by lia. rewrite Z.pow_add_r in E by lia.
    rewrite Z.mul_assoc in E. apply Z.mul_reg_r in E; [now symmetry|].
    apply Z.pow_nonzero; lia.
Qed.

Lemma round_exact sx m e q ex :
  2 ^ 52 <= Zpos q < 2 ^ 53 -> -1074 <= ex <= 971 ->
  (e <= ex /\ Zpos m = Zpos q * 2 ^ (ex - e))
  \/ (ex < e /\ Zpos q = Zpos m * 2 ^ (e - ex)) ->
  binary_round 53 1024 sx m e = S754_finite sx q ex.
Proof.
  intros Hq Hex [[Hle Hm]|[Hlt Hm]]; unfold binary_round.
  - rewrite (digits_shifted q (ex - e) Hq ltac:(lia) m Hm).
    rewrite fexp_normal by lia. replace (53 + (ex - e) + e - 53) with ex by lia.
    unfold shl_align. destruct (ex - e) as [|d|d] eqn:E; try lia.
    + rewrite (round_aux_exact sx m e q 0); [f_equal; lia|assumption|lia| |lia].
      assumption.
    + rewrite (round_aux_exact sx m e q (Zpos d)); [f_equal; lia|assumption|lia| |lia].
      assumption.
  - assert (Hd : Zpos (digits2_pos m) = 53 - (e - ex)).
    { assert (Hp : 0 < 2 ^ (e - ex)) by (apply Z.pow_pos_nonneg; lia).
      assert (Hj : e - ex < 53).
      { apply (Z.pow_lt_mono_r_iff 2); [lia|lia|]. nia. }
      apply digits2_bounds; [|lia].
      replace (2 ^ 52) with (2 ^ (53 - (e - ex) - 1) * 2 ^ (e - ex)) in Hq
        by (rewrite <- Z.pow_add_r by lia; f_equal; lia).
      replace (2 ^ 53) with (2 ^ (53 - (e - ex)) * 2 ^ (e - ex)) in Hq
        by (rewrite <- Z.pow_add_r by lia; f_equal; lia).
      rewrite Hm in Hq. split.
      + apply (Z.mul_le_mono_pos_r _ _ (2 ^ (e - ex))); lia.
      + apply (Z.mul_lt_mono_pos_r (2 ^ (e - ex))); lia. }
    rewrite Hd, fexp_normal by lia. replace (53 - (e - ex) + e - 53) with ex by lia.
    unfold shl_align. destruct (ex - e) as [|d|d] eqn:E; try lia.
    assert (Hq' : Pos.iter xO m d = q).
    { apply Pos2Z.inj. rewrite shl_pos, Hm. f_equal. f_equal. lia. }
    rewrite Hq'. rewrite (round_aux_exact sx q ex q 0); [f_equal; lia|assumption|lia| |lia].
    change (2 ^ 0) with 1. lia.
Qed.

Lemma Rep_exists n : 0 < n <= 2 ^ 53 -> exists q ex, F64.Rep q ex n.
Proof.
  intros Hn. destruct (Z.eq_dec n (2 ^ 53)) as [->|Hne].
  - exists (Z.to_pos (2 ^ 52)), 1. unfold F64.Rep. repeat split; lia.
  - pose proof (Z.log2_spec n ltac:(lia)) as Hl.
    pose proof (Z.log2_nonneg n) as Hl0.
    assert (Hl53 : Z.log2 n < 53).
    { apply Z.log2_lt_pow2; lia. }
    set (d := Z.log2 n) in *.
    assert (Hp : 0 < 2 ^ (52 - d)) by (apply Z.pow_pos_nonneg; lia).
    exists (Z.to_pos (n * 2 ^ (52 - d))), (d - 52). unfold F64.Rep.
    rewrite Z2Pos.id by nia.
    replace (2 ^ 52) with (2 ^ d * 2 ^ (52 - d)) at 1
      by (rewrite <- Z.pow_add_r by lia; f_equal; lia).
    replace (2 ^ 53) with (2 ^ Z.succ d * 2 ^ (52 - d))
      by (rewrite <- Z.pow_add_r by lia; f_equal; lia).
    repeat split; try lia.
    + apply Z.mul_le_mono_pos_r; lia.
    + apply Z.mul_lt_mono_pos_r; lia.
    + rewrite <- Z.mul_assoc, <- Z.pow_add_r by lia. do 2 f_equal. lia.
Qed.

Lemma of_Z_Rep q ex n : F64.Rep q ex n -> F64.of_Z n = S754_finite false q ex.
Proof.
  intros (Hq & Hex & E).
  assert (Hn : 0 < n) by nia.
  destruct n as [|m|m]; try lia. unfold F64.of_Z, F64.prec, F64.emax, binary_normalize.
  apply round_exact; [assumption|lia|].
  destruct (pow2_value_eq (Zpos q) (Zpos m) (ex + 52) 52 ltac:(lia) ltac:(lia) E)
    as [H1 H2].
  destruct (Z.le_gt_cases 0 ex) as [Hle|Hlt].
  - left. split; [assumption|]. rewrite Z.sub_0_r.
    rewrite (H2 ltac:(lia)). f_equal. f_equal. lia.
  - right. split; [assumption|]. rewrite (H1 ltac:(lia)). f_equal. f_equal. lia.
Qed.

Lemma mul_Rep q1 e1 a q2 e2 c q3 e3 s1 s2 :
  F64.Rep q1 e1 a -> F64.Rep q2 e2 c -> F64.Rep q3 e3 (a * c) ->
  SFmul 53 1024 (S754_finite s1 q1 e1) (S754_finite s2 q2 e2)
  = S754_finite (xorb s1 s2) q3 e3.
Proof.
  intros (Hq1 & He1 & E1) (Hq2 & He2 & E2) (Hq3 & He3 & E3). unfold SFmul.
  assert (E : Zpos (q1 * q2) * 2 ^ (e1 + e2 + 104) = Zpos q3 * 2 ^ (e3 + 104)).
  { rewrite Pos2Z.inj_mul.
    replace (e1 + e2 + 104) with ((e1 + 52) + (e2 + 52)) by lia.
    replace (e3 + 104) with ((e3 + 52) + 52) by lia.
    rewrite (Z.pow_add_r 2 (e1 + 52) (e2 + 52)), (Z.pow_add_r 2 (e3 + 52) 52) by lia.
    transitivity ((Zpos q1 * 2 ^ (e1 + 52)) * (Zpos q2 * 2 ^ (e2 + 52))); [ring|].
    rewrite E1, E2. transitivity ((a * c * 2 ^ 52) * 2 ^ 52); [ring|].
    rewrite <- E3. ring. }
  destruct (pow2_value_eq (Zpos (q1 * q2)) (Zpos q3) (e1 + e2 + 104) (e3 + 104)
              ltac:(lia) ltac:(lia) E) as [H1 H2].
  destruct (Z.le_gt_cases (e1 + e2 + 104) (e3 + 104)) as [Hle|Hlt].
  - rewrite (round_aux_exact _ (q1 * q2) (e1 + e2) q3 (e3 - (e1 + e2)));
      [f_equal; lia|assumption|lia| |lia].
    rewrite (H1 Hle). f_equal. f_equal. lia.
  - exfalso. specialize (H2 ltac:(lia)).
    assert (0 < 2 ^ (e1 + e2 + 104 - (e3 + 104))) by (apply Z.pow_pos_nonneg; lia).
    rewrite Pos2Z.inj_mul in H2. nia.
Qed.

Lemma add_Rep q1 e1 a q2 e2 b q3 e3 :
  F64.Rep q1 e1 a -> F64.Rep q2 e2 b -> F64.Rep q3 e3 (a + b) ->
  SFadd 53 1024 (S754_finite false q1 e1) (S754_finite false q2 e2)
  = S754_finite false q3 e3.
Proof.
  intros (Hq1 & He1 & E1) (Hq2 & He2 & E2) (Hq3 & He3 & E3). unfold SFadd.
  set (ez := Z.min e1 e2). cbn [cond_Zopp].
  pose proof (shl_align_fst q1 e1 ez ltac:(lia)) as S1.
  pose proof (shl_align_fst q2 e2 ez ltac:(lia)) as S2.
  destruct (shl_align q1 e1 ez) as [m1 x1], (shl_align q2 e2 ez) as [m2 x2].
  cbn [fst] in *. cbn [Z.add binary_normalize].
  assert (E : Zpos (m1 + m2) * 2 ^ (ez + 52) = Zpos q3 * 2 ^ (e3 + 52)).
  { rewrite Pos2Z.inj_add, S1, S2, E3, Z.mul_add_distr_r, Z.mul_add_distr_r.
    rewrite <- !Z.mul_assoc, <- !Z.pow_add_r by lia.
    replace (e1 - ez + (ez + 52)) with (e1 + 52) by lia.
    replace (e2 - ez + (ez + 52)) with (e2 + 52) by lia. lia. }
  assert (Hez : -52 <= ez <= 1) by lia.
  destruct (pow2_value_eq (Zpos (m1 + m2)) (Zpos q3) (ez + 52) (e3 + 52)
              ltac:(lia) ltac:(lia) E) as [H1 H2].
  apply round_exact; [assumption|lia|].
  destruct (Z.le_gt_cases ez e3) as [Hle|Hlt].
  - left. split; [assumption|]. rewrite (H1 ltac:(lia)). f_equal. f_equal. lia.
  - right. split; [assumption|]. rewrite (H2 ltac:(lia)). f_equal. f_equal. lia.
Qed.

Lemma Rep_one : F64.Rep (Z.to_pos (2 ^ 52)) (-52) 1.
Proof. unfold F64.Rep. repeat split; lia. Qed.

Lemma of_Z_mul a c :
  0 <= a -> 0 < c <= 2 ^ 53 -> a * c <= 2 ^ 53 ->
  F64.mul (F64.of_Z a) (F64.of_Z c) = F64.of_Z (a * c).
Proof.
  intros Ha Hc Hac.
  destruct (Rep_exists c ltac:(lia)) as (q2 & e2 & R2). rewrite (of_Z_Rep _ _ _ R2).
  destruct (Z.eq_dec a 0) as [->|Hne]; [reflexivity|].
  destruct (Rep_exists a ltac:(nia)) as (q1 & e1 & R1).
  destruct (Rep_exists (a * c) ltac:(nia)) as (q3 & e3 & R3).
  rewrite (of_Z_Rep _ _ _ R1), (of_Z_Rep _ _ _ R3).
  apply (mul_Rep q1 e1 a q2 e2 c q3 e3 false false R1 R2 R3).
Qed.

Lemma of_Z_add a b :
  0 <= a -> 0 <= b -> a + b <= 2 ^ 53 ->
  F64.add (F64.of_Z a) (F64.of_Z b) = F64.of_Z (a + b).
Proof.
  intros Ha Hb Hab.
  destruct (Z.eq_dec a 0) as [->|Hna].
  - rewrite Z.add_0_l. destruct (Z.eq_dec b 0) as [->|Hnb]; [reflexivity|].
    destruct (Rep_exists b ltac:(lia)) as (q2 & e2 & R2).
    now rewrite (of_Z_Rep _ _ _ R2).
  - destruct (Rep_exists a ltac:(lia)) as (q1 & e1 & R1).
    destruct (Z.eq_dec b 0) as [->|Hnb].
    + rewrite Z.add_0_r. now rewrite (of_Z_Rep _ _ _ R1).
    + destruct (Rep_exists b ltac:(lia)) as (q2 & e2 & R2).
      destruct (Rep_exists (a + b) ltac:(lia)) as (q3 & e3 & R3).
      rewrite (of_Z_Rep _ _ _ R1), (of_Z_Rep _ _ _ R2), (of_Z_Rep _ _ _ R3).
      apply (add_Rep q1 e1 a q2 e2 b q3 e3 R1 R2 R3).
Qed.

Lemma of_Z_times_one t : 0 <= t <= 2 ^ 53 -> F64.mul (F64.of_Z t) (F64.of_Z 1) = F64.of_Z t.
Proof. intros Ht. rewrite of_Z_mul by lia. now rewrite Z.mul_1_r. Qed.

Lemma of_Z_times_minus_one t :
  0 <= t <= 2 ^ 53 -> F64.mul (F64.of_Z t) (F64.of_Z (-1)) = F64.neg (F64.of_Z t).
Proof.
  intros Ht. destruct (Z.eq_dec t 0) as [->|Hne]; [reflexivity|].
  destruct (Rep_exists t ltac:(lia)) as (q & e & R). rewrite (of_Z_Rep _ _ _ R).
  change (F64.of_Z (-1)) with (S754_finite true (Z.to_pos (2 ^ 52)) (-52)).
  assert (R' : F64.Rep q e (t * 1)) by now rewrite Z.mul_1_r.
  apply (mul_Rep q e t _ _ 1 q e false true R Rep_one R').
Qed.

Lemma of_Z_finite t : 0 <= t <= 2 ^ 53 ->
  F64.is_inf (F64.of_Z t) = false.
Proof.
  intros Ht. destruct (Z.eq_dec t 0) as [->|Hne]; [reflexivity|].
  destruct (Rep_exists t ltac:(lia)) as (q & e & R). now rewrite (of_Z_Rep _ _ _ R).
Qed.

End F64Facts.

(** ** The duration pattern *)

Module RegexpFacts.
Import Regexp Utils StringFacts.

Lemma consumed_append s t : consumed (s +:+ t) t = s.
Proof.
  unfold consumed. rewrite length_append.
  replace (String.length s + String.length t - String.length t)%nat
    with (String.length s) by lia.
  apply str_take_append.
Qed.

Lemma consumed_all s : consumed s "" = s.
Proof. unfold consumed. simpl. rewrite Nat.sub_0_r. apply str_take_all. Qed.

(** [\d*] before a continuation that refuses a digit: the whole run of
    digits is taken. *)
Lemma many_digits ds rest caps (k : cont) :
  str_all is_digit ds = true ->
  match rest with "" => True | String v _ => is_digit v = false end ->
  (forall a t c, is_digit a = true -> k (String a t) c = None) ->
  many is_digit (ds +:+ rest) caps k = k rest caps.
Proof.
  intros Hds Hrest Hk. induction ds as [|a ds IH].
  - rewrite append_nil_l. destruct rest as [|v t]; [reflexivity|].
    simpl. now rewrite Hrest.
  - simpl in Hds. apply andb_prop in Hds. destruct Hds as [Ha Hds].
    rewrite append_cons. simpl. rewrite Ha, (IH Hds).
    destruct (k rest caps) eqn:E; [reflexivity|]. now apply Hk.
Qed.

Lemma digit_not_letter a u : is_digit a = true -> is_digit u = false -> Ascii.eqb a u = false.
Proof.
  intros Ha Hu. destruct (Ascii.eqb_spec a u) as [->|]; [congruence|reflexivity].
Qed.

Section UnitGroup.
Variables (txt : string) (n : nat) (u : ascii).
Hypothesis Hu : is_digit u = false.

(** The optional group of a unit, on its own text: the digits and the
    letter are taken, and given back only if the rest cannot match. *)
Lemma unit_group_takes ds t caps (k : cont) :
  Strconv.is_decimal_digits ds = true ->
  rmatch txt (unit_group n u) (ds +:+ String u t) caps k
  = match k t (<[n := ds +:+ String u ""]> (<[S n := ds]> caps)) with
    | Some m => Some m
    | None => k (ds +:+ String u t) caps
    end.
Proof.
  intros Hds. unfold Strconv.is_decimal_digits in Hds.
  apply andb_prop in Hds. destruct Hds as [Hne Hds].
  destruct ds as [|a ds]; [discriminate|]. simpl in Hds.
  apply andb_prop in Hds. destruct Hds as [Ha Hds].
  unfold unit_group. cbn [rmatch]. rewrite append_cons, Ha.
  rewrite many_digits; [|assumption|now cbn|].
  - rewrite Ascii.eqb_refl.
    replace (consumed (String a (ds +:+ String u t)) (String u t)) with (String a ds)
      by (symmetry; apply (consumed_append (String a ds) (String u t))).
    replace (consumed (String a (ds +:+ String u t)) t) with (String a ds +:+ String u "").
    + reflexivity.
    + symmetry. rewrite <- (consumed_append (String a ds +:+ String u "") t) at 1.
      now rewrite append_assoc.
  - intros b t' c Hb. now rewrite (digit_not_letter b u Hb Hu).
Qed.

(** [\d*] before a continuation that wants [u], on text where the digits
    are not followed by [u]: no way through. *)
Lemma many_digits_stuck ds rest caps (k : cont) :
  str_all is_digit ds = true ->
  match rest with "" => True | String v _ => is_digit v = false /\ v <> u end ->
  (forall s' c, match s' with "" => True | String a _ => a <> u end -> k s' c = None) ->
  many is_digit (ds +:+ rest) caps k = None.
Proof.
  intros Hds Hrest Hk. rewrite many_digits; [|assumption| |].
  - apply Hk. destruct rest; tauto.
  - destruct rest; tauto.
  - intros b t' c Hb. apply Hk. intros ->. congruence.
Qed.

(** The optional group of a unit, on text that is not its own: nothing is
    taken. *)
Lemma unit_group_skips t caps (k : cont) :
  skips u t -> rmatch txt (unit_group n u) t caps k = k t caps.
Proof.
  intros (ds & rest & -> & Hds & Hrest). unfold unit_group. cbn [rmatch].
  destruct ds as [|a ds].
  - rewrite append_nil_l. destruct rest as [|v r]; [reflexivity|].
    destruct Hrest as [Hv _]. now rewrite Hv.
  - simpl in Hds. apply andb_prop in Hds. destruct Hds as [Ha Hds].
    rewrite append_cons, Ha. rewrite many_digits_stuck; [reflexivity|assumption..|].
    intros s' c Hs'. destruct s' as [|b s']; [reflexivity|].
    destruct (Ascii.eqb_spec b u); [contradiction|reflexivity].
Qed.

End UnitGroup.

Lemma skips_nil u : skips u "".
Proof. exists "", "". repeat split. Qed.

Lemma skips_digits u ds : str_all is_digit ds = true -> skips u ds.
Proof. intros Hds. exists ds, "". rewrite append_nil_r. repeat split. assumption. Qed.

Lemma skips_unit u v x T :
  is_digit v = false -> v <> u -> digits_ok x -> skips u T ->
  skips u (unit_text x v +:+ T).
Proof.
  intros Hv Hvu Hx HT. destruct x as [d|]; [|exact HT].
  exists d, (String v T). cbn [unit_text]. rewrite append_assoc, append_cons, append_nil_l.
  unfold digits_ok, Strconv.is_decimal_digits in Hx.
  apply andb_prop in Hx. destruct Hx as [_ Hd]. repeat split; assumption.
Qed.

(** One optional unit group followed by the rest [R] of the pattern, on
    the text of that unit followed by text [T] that [R] matches. *)
Lemma unit_stage txt n u x T R caps (k : cont) (F : list string -> list string) :
  is_digit u = false -> digits_ok x -> skips u T ->
  (forall caps', rmatch txt R T caps' k = Some (F caps')) ->
  rmatch txt (Cat (unit_group n u) R) (unit_text x u +:+ T) caps k
  = Some (F (set_unit n u x caps)).
Proof.
  intros Hu Hx HT HR. cbn [rmatch]. destruct x as [d|]; cbn [unit_text set_unit].
  - rewrite append_assoc, append_cons, append_nil_l.
    rewrite unit_group_takes by assumption. now rewrite HR.
  - rewrite append_nil_l, unit_group_skips by assumption. apply HR.
Qed.

Lemma unit_stage_skip txt n u T R caps (k : cont) :
  is_digit u = false -> skips u T ->
  rmatch txt (Cat (unit_group n u) R) T caps k = rmatch txt R T caps k.
Proof. intros Hu HT. cbn [rmatch]. now rewrite unit_group_skips. Qed.

(** The pattern is anchored: no match starts after the first byte. *)
Lemma duration_anchor txt : forall s,
  (String.length s < String.length txt)%nat ->
  find_from durationRegex txt s = None.
Proof.
  induction s as [|a s IH]; intros Hl.
  - unfold find_from, match_at, durationRegex. cbn [rmatch].
    destruct (Nat.eqb_spec (String.length "") (String.length txt)); [lia|reflexivity].
  - cbn [find_from]. unfold match_at at 1. unfold durationRegex at 1. cbn [rmatch].
    destruct (Nat.eqb_spec (String.length (String a s)) (String.length txt)); [lia|].
    apply IH. simpl in Hl. lia.
Qed.

(** The anchor and the sign, followed by the rest [R] of the pattern. *)
Lemma sign_stage sg body R caps (k : cont) :
  is_sign sg = true ->
  rmatch (String sg body) (Cat Bol (Cat (Group 1 (Class is_sign)) R))
    (String sg body) caps k
  = rmatch (String sg body) R body (<[1%nat := String sg ""]> caps) k.
Proof.
  intros Hsg. cbn [rmatch]. rewrite Nat.eqb_refl, Hsg.
  replace (consumed (String sg body) body) with (String sg "");
    [reflexivity|symmetry; apply (consumed_append (String sg "") body)].
Qed.

(** The submatches of every string of the grammar. *)
Lemma duration_regex_matches neg D h m s :
  digits_ok D -> digits_ok h -> digits_ok m -> digits_ok s ->
  FindStringSubmatch durationRegex (duration_text neg D h m s)
  = Some (duration_groups neg D h m s).
Proof.
  intros HD Hh Hm Hs.
  set (txt := duration_text neg D h m s).
  set (k := (fun s' caps => Some (<[0%nat := consumed txt s']> caps)) : cont).
  assert (Es : forall caps,
             rmatch txt (Cat (unit_group 8 "s") Eol) (unit_text s "s") caps k
             = Some (<[0%nat := txt]> (set_unit 8 "s" s caps))).
  { intros caps. rewrite <- (append_nil_r (unit_text s "s")).
    apply (unit_stage txt 8 "s" s "" Eol caps k (fun c => <[0%nat := txt]> c));
      [reflexivity|assumption|apply skips_nil|].
    intros c. cbn [rmatch]. unfold k. now rewrite consumed_all. }
  assert (Em : forall caps,
             rmatch txt (Cat (unit_group 6 "m") (Cat (unit_group 8 "s") Eol))
               (unit_text m "m" +:+ unit_text s "s") caps k
             = Some (<[0%nat := txt]> (set_unit 8 "s" s (set_unit 6 "m" m caps)))).
  { intros caps.
    apply (unit_stage txt 6 "m" m _ _ caps k
             (fun c => <[0%nat := txt]> (set_unit 8 "s" s c)));
      [reflexivity|assumption| |exact Es].
    rewrite <- (append_nil_r (unit_text s "s")).
    apply skips_unit; [reflexivity|discriminate|assumption|apply skips_nil]. }
  assert (Eh : forall caps,
             rmatch txt
               (Cat (unit_group 4 "h") (Cat (unit_group 6 "m") (Cat (unit_group 8 "s") Eol)))
               (unit_text h "h" +:+ unit_text m "m" +:+ unit_text s "s") caps k
             = Some (<[0%nat := txt]>
                       (set_unit 8 "s" s (set_unit 6 "m" m (set_unit 4 "h" h caps))))).
  { intros caps.
    apply (unit_stage txt 4 "h" h _ _ caps k
             (fun c => <[0%nat := txt]> (set_unit 8 "s" s (set_unit 6 "m" m c))));
      [reflexivity|assumption| |exact Em].
    apply skips_unit; [reflexivity|discriminate|assumption|].
    rewrite <- (append_nil_r (unit_text s "s")).
    apply skips_unit; [reflexivity|discriminate|assumption|apply skips_nil]. }
  assert (ED : forall caps,
             rmatch txt
               (Cat (unit_group 2 "D")
                  (Cat (unit_group 4 "h")
                     (Cat (unit_group 6 "m") (Cat (unit_group 8 "s") Eol))))
               (unit_text D "D" +:+ unit_text h "h" +:+ unit_text m "m"
                +:+ unit_text s "s") caps k
             = Some (<[0%nat := txt]>
                       (set_unit 8 "s" s (set_unit 6 "m" m (set_unit 4 "h" h
                          (set_unit 2 "D" D caps)))))).
  { intros caps.
    apply (unit_stage txt 2 "D" D _ _ caps k
             (fun c => <[0%nat := txt]>
                         (set_unit 8 "s" s (set_unit 6 "m" m (set_unit 4 "h" h c)))));
      [reflexivity|assumption| |exact Eh].
    apply skips_unit; [reflexivity|discriminate|assumption|].
    apply skips_unit; [reflexivity|discriminate|assumption|].
    rewrite <- (append_nil_r (unit_text s "s")).
    apply skips_unit; [reflexivity|discriminate|assumption|apply skips_nil]. }
  assert (M : match_at durationRegex txt txt = Some (duration_groups neg D h m s)).
  { unfold match_at. fold k. unfold durationRegex at 1.
    unfold txt at 1 2. unfold duration_text.
    rewrite sign_stage by now destruct neg.
    fold (duration_text neg D h m s). fold txt. rewrite ED.
    unfold duration_groups. fold txt.
    destruct D, h, m, s, neg; reflexivity. }
  unfold FindStringSubmatch. unfold txt at 2. unfold duration_text.
  cbn [find_from]. fold (duration_text neg D h m s). fold txt. now rewrite M.
Qed.

(** A sign followed only by digits does not match. *)
Lemma duration_regex_no_unit sg ds :
  is_sign sg = true -> Strconv.is_decimal_digits ds = true ->
  FindStringSubmatch durationRegex (String sg ds) = None.
Proof.
  intros Hsg Hds. unfold Strconv.is_decimal_digits in Hds.
  apply andb_prop in Hds. destruct Hds as [Hne Hds].
  unfold FindStringSubmatch. cbn [find_from].
  assert (M : match_at durationRegex (String sg ds) (String sg ds) = None).
  { unfold match_at. unfold durationRegex at 1.
    rewrite sign_stage by assumption.
    rewrite !unit_stage_skip by (reflexivity || now apply skips_digits).
    cbn [rmatch]. now destruct ds. }
  rewrite M. apply duration_anchor. simpl. lia.
Qed.

End RegexpFacts.

(** ** UTF-8 *)

Module Utf8Facts.
Import Utf8 StringFacts.

Lemma byte_val_range c : 0 <= byte_val c < 256.
Proof.
  unfold byte_val. pose proof (N_ascii_bounded c) as Hb. lia.
Qed.

Lemma byte_val_of v : 0 <= v < 256 -> byte_val (byte_of v) = v.
Proof.
  intros Hv. unfold byte_val, byte_of. rewrite N_ascii_embedding; lia.
Qed.

Lemma byte_of_val c : byte_of (byte_val c) = c.
Proof. unfold byte_val, byte_of. now rewrite N2Z.id, ascii_N_embedding. Qed.

Ltac bools :=
  repeat match goal with
    | H : _ && _ = true |- _ => apply andb_prop in H; destruct H
    | H : _ || _ = true |- _ => apply orb_prop in H; destruct H
    | H : _ || _ = false |- _ => apply orb_false_elim in H; destruct H
    | H : negb _ = true |- _ => apply negb_true_iff in H
    | H : negb _ = false |- _ => apply negb_false_iff in H
    | H : (_ <=? _) = true |- _ => apply Z.leb_le in H
    | H : (_ <=? _) = false |- _ => apply Z.leb_gt in H
    | H : (_ <? _) = true |- _ => apply Z.ltb_lt in H
    | H : (_ <? _) = false |- _ => apply Z.ltb_ge in H
    | H : (_ =? _) = true |- _ => apply Z.eqb_eq in H
    | H : (_ =? _) = false |- _ => apply Z.eqb_neq in H
    end.

Ltac decide_bools :=
  repeat match goal with
    | |- context [?a <=? ?b] => destruct (Z.leb_spec a b)
    | |- context [?a <? ?b] => destruct (Z.ltb_spec a b)
    | |- context [?a =? ?b] => destruct (Z.eqb_spec a b)
    end.

Lemma ValidRune_spec r :
  ValidRune r = true <-> (0 <= r < 55296 \/ 57343 < r <= 1114111).
Proof.
  unfold ValidRune, MaxRune. split.
  - intros Hv. bools; lia.
  - intros Hr. decide_bools; cbn; try reflexivity; lia.
Qed.

(** Decoding what [encode] wrote gives the rune back. *)
Lemma decode_encode r rest :
  ValidRune r = true -> decode (encode r +:+ rest) = r :: decode rest.
Proof.
  intros Hv. apply ValidRune_spec in Hv. unfold encode.
  destruct ((0 <=? r) && (r <=? 127)) eqn:E1.
  { bools. rewrite append_cons, append_nil_l. cbn [decode].
    rewrite byte_val_of by lia. destruct (Z.ltb_spec r 128); [reflexivity|lia]. }
  destruct ((0 <=? r) && (r <=? 2047)) eqn:E2.
  { assert (Hr : 128 <= r <= 2047) by (bools; try lia).
    rewrite !append_cons, append_nil_l. cbn [decode].
    rewrite !byte_val_of by (Z.div_mod_to_equations; lia).
    unfold lead2, is_cont.
    destruct (Z.ltb_spec (192 + r / 64) 128); [Z.div_mod_to_equations; lia|].
    replace ((194 <=? 192 + r / 64) && (192 + r / 64 <=? 223)
             && ((128 <=? 128 + r mod 64) && (128 + r mod 64 <=? 191))) with true.
    - f_equal. Z.div_mod_to_equations. lia.
    - symmetry. rewrite !andb_true_iff, !Z.leb_le. Z.div_mod_to_equations. lia. }
  assert (Hr : 2048 <= r) by (bools; lia).
  replace (negb (ValidRune r)) with false
    by (symmetry; apply negb_false_iff, ValidRune_spec; lia).
  destruct (Z.leb_spec r 65535) as [H3|H4].
  - unfold encode3. rewrite !append_cons, append_nil_l. cbn [decode].
    rewrite !byte_val_of by (Z.div_mod_to_equations; lia).
    unfold lead2, lead3, second_ok, is_cont.
    destruct (Z.ltb_spec (224 + r / 4096) 128); [Z.div_mod_to_equations; lia|].
    replace ((194 <=? 224 + r / 4096) && (224 + r / 4096 <=? 223)) with false
      by (symmetry; rewrite andb_false_iff, !Z.leb_gt; Z.div_mod_to_equations; lia).
    cbn [andb].
    match goal with |- (if ?c then _ else _) = _ => replace c with true end.
    + f_equal. Z.div_mod_to_equations. lia.
    + symmetry. rewrite !andb_true_iff. repeat split.
      * apply Z.leb_le. Z.div_mod_to_equations. lia.
      * apply Z.leb_le. Z.div_mod_to_equations. lia.
      * decide_bools; rewrite ?andb_true_iff, ?Z.leb_le; Z.div_mod_to_equations; lia.
      * apply Z.leb_le. Z.div_mod_to_equations. lia.
      * apply Z.leb_le. Z.div_mod_to_equations. lia.
  - rewrite !append_cons, append_nil_l. cbn [decode].
    rewrite !byte_val_of by (Z.div_mod_to_equations; lia).
    unfold lead2, lead3, lead4, second_ok, is_cont.
    destruct (Z.ltb_spec (240 + r / 262144) 128); [Z.div_mod_to_equations; lia|].
    replace ((194 <=? 240 + r / 262144) && (240 + r / 262144 <=? 223)) with false
      by (symmetry; rewrite andb_false_iff, !Z.leb_gt; Z.div_mod_to_equations; lia).
    replace ((224 <=? 240 + r / 262144) && (240 + r / 262144 <=? 239)) with false
      by (symmetry; rewrite andb_false_iff, !Z.leb_gt; Z.div_mod_to_equations; lia).
    cbn [andb].
    match goal with |- (if ?c then _ else _) = _ => replace c with true end.
    + f_equal. Z.div_mod_to_equations. lia.
    + symmetry. rewrite !andb_true_iff. repeat split.
      * apply Z.leb_le. Z.div_mod_to_equations. lia.
      * apply Z.leb_le. Z.div_mod_to_equations. lia.
      * decide_bools; rewrite ?andb_true_iff, ?Z.leb_le; Z.div_mod_to_equations; lia.
      * apply Z.leb_le. Z.div_mod_to_equations. lia.
      * apply Z.leb_le. Z.div_mod_to_equations. lia.
      * apply Z.leb_le. Z.div_mod_to_equations. lia.
      * apply Z.leb_le. Z.div_mod_to_equations. lia.
Qed.

Ltac split_eqb :=
  repeat match goal with
    | H : context [?a =? ?b] |- _ => destruct (Z.eqb_spec a b)
    end.

Ltac valid_rune :=
  apply ValidRune_spec; unfold lead2, lead3, lead4, second_ok, is_cont in *;
  split_eqb; bools; Z.div_mod_to_equations; lia.

Lemma RuneError_valid : ValidRune RuneError = true.
Proof. reflexivity. Qed.

(** [decode] produces valid runes only. *)
Lemma decode_valid_upto (n : nat) :
  forall s, (String.length s <= n)%nat ->
    Forall (fun r => ValidRune r = true) (decode s).
Proof.
  induction n as [|n IH]; intros s Hn.
  { destruct s; [constructor | cbn in Hn; lia]. }
  destruct s as [|b0 s1]; [constructor|]. cbn [String.length] in Hn.
  cbn [decode]. cbv zeta. pose proof (byte_val_range b0) as R0.
  destruct (byte_val b0 <? 128) eqn:E0.
  { constructor; [valid_rune | apply IH; lia]. }
  assert (T1 : Forall (fun r => ValidRune r = true) (RuneError :: decode s1))
    by (constructor; [exact RuneError_valid | apply IH; lia]).
  destruct s1 as [|b1 s2]; [repeat constructor|]. cbn [String.length] in Hn.
  pose proof (byte_val_range b1) as R1.
  destruct (lead2 (byte_val b0) && is_cont (byte_val b1)) eqn:E1.
  { constructor; [valid_rune | apply IH; lia]. }
  destruct s2 as [|b2 s3]; [exact T1|]. cbn [String.length] in Hn.
  pose proof (byte_val_range b2) as R2.
  destruct (lead3 (byte_val b0) && second_ok (byte_val b0) (byte_val b1)
            && is_cont (byte_val b2)) eqn:E2.
  { constructor; [clear E1 T1; valid_rune | apply IH; lia]. }
  destruct s3 as [|b3 s4]; [exact T1|]. cbn [String.length] in Hn.
  pose proof (byte_val_range b3) as R3.
  destruct (lead4 (byte_val b0) && second_ok (byte_val b0) (byte_val b1)
            && is_cont (byte_val b2) && is_cont (byte_val b3)) eqn:E3;
    [|exact T1].
  constructor; [clear E1 E2 T1; valid_rune | apply IH; lia].
Qed.

Lemma decode_valid s : Forall (fun r => ValidRune r = true) (decode s).
Proof. now apply (decode_valid_upto (String.length s)). Qed.

Lemma decode_encode_all rs :
  Forall (fun r => ValidRune r = true) rs -> decode (encode_all rs) = rs.
Proof.
  induction 1 as [|r rs Hr _ IH]; [reflexivity|].
  cbn [encode_all]. now rewrite decode_encode, IH.
Qed.

(** Every byte of the encoding of a rune above ASCII has its top bit set. *)
Lemma encode_high r :
  ValidRune r = true -> 127 < r ->
  str_all (fun c => 128 <=? byte_val c) (encode r) = true.
Proof.
  intros Hv Hr. pose proof Hv as Hv'. apply ValidRune_spec in Hv'. unfold encode.
  replace ((0 <=? r) && (r <=? 127)) with false
    by (symmetry; apply andb_false_iff; right; apply Z.leb_gt; lia).
  rewrite Hv. cbn [negb]. unfold encode3.
  destruct ((0 <=? r) && (r <=? 2047)) eqn:E2; [bools|destruct (Z.leb_spec r 65535)];
    cbn [str_all]; rewrite !byte_val_of by (Z.div_mod_to_equations; lia);
    rewrite ?andb_true_iff, ?Z.leb_le; repeat split;
    Z.div_mod_to_equations; lia.
Qed.

End Utf8Facts.

(** ** ToLower and ReplaceAll, rune by rune *)

Module StringsFacts.
Import Utf8 Strings Utils StringFacts Utf8Facts.

Lemma str_map_append f s t : str_map f (s +:+ t) = str_map f s +:+ str_map f t.
Proof. induction s as [|a s IH]; [reflexivity|]. rewrite !append_cons. cbn. now rewrite IH. Qed.

Lemma str_map_compose f g s : str_map f (str_map g s) = str_map (fun c => f (g c)) s.
Proof. induction s as [|a s IH]; [reflexivity|]. cbn. now rewrite IH. Qed.

Lemma str_map_ext f g s : (forall c, f c = g c) -> str_map f s = str_map g s.
Proof. intros E. induction s as [|a s IH]; [reflexivity|]. cbn. now rewrite E, IH. Qed.

Lemma str_map_fixed p f s :
  (forall c, p c = true -> f c = c) -> str_all p s = true -> str_map f s = s.
Proof.
  intros Hf. induction s as [|a s IH]; [reflexivity|]. cbn. intros Ha.
  apply andb_prop in Ha as [Ha Hs]. now rewrite Hf, IH.
Qed.

(** Replacing a one-byte string by a one-byte string is a map on bytes. *)
Lemma ReplaceAll_byte s c d :
  ReplaceAll s (String c "") (String d "")
  = str_map (fun x => if Ascii.eqb x c then d else x) s.
Proof.
  unfold ReplaceAll. induction s as [|x s IH]; [reflexivity|].
  cbn [replace_from str_map]. unfold HasPrefix. cbn [String.length str_take].
  replace (str_take 0 s) with "" by now destruct s.
  cbn [Nat.leb andb String.eqb]. destruct (Ascii.eqb x c).
  - destruct ("" =? "")%string eqn:E; [|discriminate E].
    cbn [Nat.sub]. rewrite append_cons, append_nil_l. now rewrite IH.
  - now rewrite IH.
Qed.

Lemma five_replacements c :
  (fun x => if Ascii.eqb x "+" then "_"%char else x)
    ((fun x => if Ascii.eqb x "/" then "_"%char else x)
      ((fun x => if Ascii.eqb x "." then "_"%char else x)
        ((fun x => if Ascii.eqb x " " then "_"%char else x)
          ((fun x => if Ascii.eqb x "-" then "_"%char else x) c))))
  = sep_byte c.
Proof. destruct c as [[] [] [] [] [] [] [] []]; reflexivity. Qed.

Lemma sanitize_bytes `{GoLib} name :
  SanitizeMetricName name = str_map sep_byte (ToLower name).
Proof.
  unfold SanitizeMetricName. cbv zeta. rewrite !ReplaceAll_byte, !str_map_compose.
  apply str_map_ext. intros c. apply five_replacements.
Qed.

Lemma eqb_byte_of r c :
  0 <= r < 256 -> Ascii.eqb (byte_of r) c = (r =? byte_val c).
Proof.
  intros Hr. destruct (Z.eqb_spec r (byte_val c)) as [->|Hne].
  - rewrite byte_of_val. apply Ascii.eqb_refl.
  - apply Ascii.eqb_neq. intros <-. apply Hne. now rewrite byte_val_of.
Qed.

Lemma sep_byte_low r :
  0 <= r < 128 -> sep_byte (byte_of r) = byte_of (sep_rune r).
Proof.
  intros Hr. unfold sep_byte, sep_rune. rewrite !eqb_byte_of by lia.
  change (byte_val "-") with 45. change (byte_val " ") with 32.
  change (byte_val ".") with 46. change (byte_val "/") with 47.
  change (byte_val "+") with 43.
  now destruct ((r =? 45) || (r =? 32) || (r =? 46) || (r =? 47) || (r =? 43)).
Qed.

Lemma sep_byte_high c : (128 <=? byte_val c) = true -> sep_byte c = c.
Proof.
  intros Hc. rewrite <- (byte_of_val c).
  pose proof (byte_val_range c) as Hr. apply Z.leb_le in Hc.
  unfold sep_byte. rewrite !eqb_byte_of by lia.
  change (byte_val "-") with 45. change (byte_val " ") with 32.
  change (byte_val ".") with 46. change (byte_val "/") with 47.
  change (byte_val "+") with 43.
  replace ((byte_val c =? 45) || (byte_val c =? 32) || (byte_val c =? 46)
           || (byte_val c =? 47) || (byte_val c =? 43)) with false; [reflexivity|].
  symmetry. rewrite !orb_false_iff, !Z.eqb_neq. lia.
Qed.

Lemma sep_rune_cases r : (r < 128 /\ sep_rune r = 95) \/ sep_rune r = r.
Proof.
  unfold sep_rune.
  destruct ((r =? 45) || (r =? 32) || (r =? 46) || (r =? 47) || (r =? 43)) eqn:E;
    [left | now right].
  split; [|reflexivity]. bools; lia.
Qed.

Lemma encode_ascii r : 0 <= r <= 127 -> encode r = String (byte_of r) "".
Proof.
  intros Hr. unfold encode.
  replace ((0 <=? r) && (r <=? 127)) with true; [reflexivity|].
  symmetry. rewrite andb_true_iff, !Z.leb_le. lia.
Qed.

Lemma encode_sep r :
  ValidRune r = true -> str_map sep_byte (encode r) = encode (sep_rune r).
Proof.
  intros Hv. pose proof Hv as Hr. apply ValidRune_spec in Hr.
  destruct (Z.le_gt_cases r 127) as [Hlo|Hhi].
  - rewrite encode_ascii by lia. cbn [str_map]. rewrite sep_byte_low by lia.
    rewrite encode_ascii; [reflexivity|].
    destruct (sep_rune_cases r) as [[_ ->]| ->]; lia.
  - destruct (sep_rune_cases r) as [[Hlt _]| ->]; [lia|].
    apply (str_map_fixed (fun c => 128 <=? byte_val c)).
    + apply sep_byte_high.
    + apply encode_high; [exact Hv | lia].
Qed.

Lemma encode_all_sep rs :
  Forall (fun r => ValidRune r = true) rs ->
  str_map sep_byte (encode_all rs) = encode_all (List.map sep_rune rs).
Proof.
  induction 1 as [|r rs Hr _ IH]; [reflexivity|].
  cbn [encode_all List.map]. now rewrite str_map_append, encode_sep, IH.
Qed.

Lemma sep_rune_valid r : ValidRune r = true -> ValidRune (sep_rune r) = true.
Proof.
  intros Hv. destruct (sep_rune_cases r) as [[_ ->]| ->]; [reflexivity | exact Hv].
Qed.

Section Lower.
Context `{GoLib}.
Hypothesis table_ok : lower_table_ok.

Lemma unicode_ToLower_valid r :
  ValidRune r = true -> ValidRune (unicode_ToLower r) = true.
Proof.
  intros Hv. unfold unicode_ToLower. destruct (Z.leb_spec r 127) as [Hlo|Hhi].
  - apply ValidRune_spec in Hv. apply ValidRune_spec.
    destruct ((65 <=? r) && (r <=? 90)) eqn:E; bools; lia.
  - now apply table_ok.
Qed.

Lemma unicode_ToLower_twice r :
  ValidRune r = true ->
  unicode_ToLower (unicode_ToLower r) = unicode_ToLower r.
Proof.
  intros Hv. unfold unicode_ToLower at 2 3. destruct (Z.leb_spec r 127) as [Hlo|Hhi].
  - unfold unicode_ToLower. destruct ((65 <=? r) && (r <=? 90)) eqn:E.
    + bools. destruct (Z.leb_spec (r + 32) 127); [|lia].
      replace ((65 <=? r + 32) && (r + 32 <=? 90)) with false; [reflexivity|].
      symmetry. apply andb_false_iff. right. apply Z.leb_gt. lia.
    + destruct (Z.leb_spec r 127); [|lia]. now rewrite E.
  - now apply table_ok.
Qed.

Lemma unicode_ToLower_underscore : unicode_ToLower 95 = 95.
Proof. reflexivity. Qed.

Lemma filter_valid (rs : list Z) :
  Forall (fun r => ValidRune r = true) rs ->
  List.filter (fun r => 0 <=? r) rs = rs.
Proof.
  induction 1 as [|r rs Hr _ IH]; [reflexivity|]. cbn [List.filter].
  apply ValidRune_spec in Hr. destruct (Z.leb_spec 0 r); [now rewrite IH | lia].
Qed.

Lemma map_valid (f : Z -> Z) (rs : list Z) :
  (forall r, ValidRune r = true -> ValidRune (f r) = true) ->
  Forall (fun r => ValidRune r = true) rs ->
  Forall (fun r => ValidRune r = true) (List.map f rs).
Proof. intros Hf. induction 1; cbn [List.map]; constructor; auto. Qed.

Lemma lower_ascii s :
  isASCII s = true ->
  encode_all (List.map unicode_ToLower (decode s)) = str_map lower_byte s.
Proof.
  unfold isASCII. induction s as [|c s IH]; [reflexivity|].
  cbn [str_all]. intros Hc. apply andb_prop in Hc as [Hc Hs].
  cbn [decode]. cbv zeta. rewrite Hc. cbn [List.map encode_all str_map].
  rewrite (IH Hs). pose proof (byte_val_range c) as Hr. apply Z.ltb_lt in Hc.
  unfold unicode_ToLower, lower_byte.
  destruct (Z.leb_spec (byte_val c) 127); [|lia].
  destruct ((65 <=? byte_val c) && (byte_val c <=? 90)) eqn:E.
  - bools. rewrite encode_ascii by lia. reflexivity.
  - rewrite encode_ascii by lia. now rewrite byte_of_val.
Qed.

(** [ToLower] lowers the decoded runes one by one, on either path. *)
Lemma ToLower_runes s :
  ToLower s = encode_all (List.map unicode_ToLower (decode s)).
Proof.
  unfold ToLower. destruct (isASCII s) eqn:E.
  - symmetry. now apply lower_ascii.
  - unfold Map. rewrite filter_valid; [reflexivity|].
    apply map_valid; [apply unicode_ToLower_valid | apply decode_valid].
Qed.

Lemma sanitize_rune_valid r :
  ValidRune r = true -> ValidRune (sanitize_rune r) = true.
Proof. intros Hv. now apply sep_rune_valid, unicode_ToLower_valid. Qed.

Lemma sanitize_rune_twice r :
  ValidRune r = true -> sanitize_rune (sanitize_rune r) = sanitize_rune r.
Proof.
  intros Hv. unfold sanitize_rune.
  destruct (sep_rune_cases (unicode_ToLower r)) as [[_ E]|E]; rewrite E.
  - reflexivity.
  - rewrite unicode_ToLower_twice by exact Hv. exact E.
Qed.

Lemma sanitize_runes s :
  SanitizeMetricName s = encode_all (List.map sanitize_rune (decode s)).
Proof.
  rewrite sanitize_bytes, ToLower_runes, encode_all_sep.
  - now rewrite List.map_map.
  - apply map_valid; [apply unicode_ToLower_valid | apply decode_valid].
Qed.

Lemma sanitize_twice s :
  SanitizeMetricName (SanitizeMetricName s) = SanitizeMetricName s.
Proof.
  rewrite (sanitize_runes (SanitizeMetricName s)), (sanitize_runes s).
  rewrite decode_encode_all
    by (apply map_valid; [apply sanitize_rune_valid | apply decode_valid]).
  rewrite List.map_map. f_equal. apply List.map_ext_in. intros r Hr.
  apply sanitize_rune_twice.
  pose proof (decode_valid s) as Hv. rewrite List.Forall_forall in Hv. now apply Hv.
Qed.

End Lower.

End StringsFacts.

(** ** The duration codec *)

Module UtilsFacts.
Import Utils StringFacts.

Lemma digit_val_nonneg c : is_digit c = true -> 0 <= digit_val c <= 9.
Proof.
  unfold is_digit, digit_val. intros Hc. apply andb_prop in Hc. destruct Hc as [H1 H2].
  apply Z.leb_le in H1, H2. lia.
Qed.

Lemma decimal_from_nonneg s : forall acc,
  0 <= acc -> str_all is_digit s = true -> 0 <= decimal_from acc s.
Proof.
  induction s as [|c s IH]; intros acc Hacc Hs; simpl in *; [assumption|].
  apply andb_prop in Hs. destruct Hs as [Hc Hs].
  apply IH; [|assumption]. pose proof (digit_val_nonneg c Hc). lia.
Qed.

Lemma unit_value_nonneg x : digits_ok x -> 0 <= unit_value x.
Proof.
  destruct x as [d|]; cbn; [|lia]. unfold Strconv.is_decimal_digits. intros Hd.
  apply andb_prop in Hd. destruct Hd as [_ Hd]. now apply decimal_from_nonneg.
Qed.

Section Codec.
Context `{GoLib}.

Lemma ParseFloat_of_digits d :
  Strconv.is_decimal_digits d = true -> 0 <= decimal d <= 2 ^ 53 ->
  Strconv.ParseFloat d = Some (F64.of_Z (decimal d)).
Proof.
  intros Hd Hv. unfold Strconv.ParseFloat, Strconv.ParseFloat_digits.
  now rewrite Hd, F64Facts.of_Z_finite.
Qed.

Lemma add_unit_exact x scale A :
  digits_ok x -> 0 <= A -> 0 < scale <= 2 ^ 53 ->
  A + unit_value x * scale <= 2 ^ 53 ->
  add_unit (unit_digits x) scale (F64.of_Z A) = F64.of_Z (A + unit_value x * scale).
Proof.
  intros Hx HA Hs Hb. pose proof (unit_value_nonneg x Hx) as Hv.
  destruct x as [d|]; cbn [unit_digits unit_value] in *.
  - unfold add_unit. cbn in Hx.
    assert (Hne : str_nonempty d = true).
    { unfold Strconv.is_decimal_digits in Hx. now apply andb_prop in Hx. }
    rewrite Hne, ParseFloat_of_digits by (assumption || nia).
    rewrite F64Facts.of_Z_mul by nia. apply F64Facts.of_Z_add; nia.
  - unfold add_unit. cbn [str_nonempty]. f_equal. lia.
Qed.

Lemma add_seconds_exact x A :
  digits_ok x -> 0 <= A -> A + unit_value x <= 2 ^ 53 ->
  (if str_nonempty (unit_digits x) then
     match Strconv.ParseFloat (unit_digits x) with
     | Some seconds => F64.add (F64.of_Z A) seconds
     | None => F64.of_Z A
     end
   else F64.of_Z A)
  = F64.of_Z (A + unit_value x).
Proof.
  intros Hx HA Hb. pose proof (unit_value_nonneg x Hx) as Hv.
  destruct x as [d|]; cbn [unit_digits unit_value] in *.
  - cbn in Hx.
    assert (Hne : str_nonempty d = true).
    { unfold Strconv.is_decimal_digits in Hx. now apply andb_prop in Hx. }
    rewrite Hne, ParseFloat_of_digits by (assumption || lia).
    apply F64Facts.of_Z_add; lia.
  - cbn [str_nonempty]. f_equal. lia.
Qed.

(** The codec on a string of the grammar. *)
Lemma ParseDurationString_grammar neg D h m s :
  digits_ok D -> digits_ok h -> digits_ok m -> digits_ok s ->
  (ParseDurationString (duration_text neg D h m s)).2 = true
  /\ (duration_total D h m s <= 2 ^ 53 ->
      (ParseDurationString (duration_text neg D h m s)).1
      = if neg then F64.neg (F64.of_Z (duration_total D h m s))
        else F64.of_Z (duration_total D h m s)).
Proof.
  intros HD Hh Hm Hs. unfold ParseDurationString.
  rewrite (RegexpFacts.duration_regex_matches neg D h m s HD Hh Hm Hs).
  split; [reflexivity|]. intros Hb. cbn [fst].
  change (sub (duration_groups neg D h m s) 1) with (if neg then "-" else "+").
  change (sub (duration_groups neg D h m s) 3) with (unit_digits D).
  change (sub (duration_groups neg D h m s) 5) with (unit_digits h).
  change (sub (duration_groups neg D h m s) 7) with (unit_digits m).
  change (sub (duration_groups neg D h m s) 9) with (unit_digits s).
  pose proof (unit_value_nonneg D HD). pose proof (unit_value_nonneg h Hh).
  pose proof (unit_value_nonneg m Hm). pose proof (unit_value_nonneg s Hs).
  unfold duration_total in *.
  change F64.zero with (F64.of_Z 0).
  rewrite (add_unit_exact D 86400 0) by (assumption || lia).
  rewrite (add_unit_exact h 3600) by (assumption || lia).
  rewrite (add_unit_exact m 60) by (assumption || lia).
  rewrite add_seconds_exact by (assumption || lia).
  rewrite Z.add_0_l. destruct neg.
  - change (String.eqb "-" "-") with true.
    apply F64Facts.of_Z_times_minus_one. lia.
  - change (String.eqb "+" "-") with false.
    apply F64Facts.of_Z_times_one. lia.
Qed.

(** C2 (as the code has it). Every string of the duration grammar is
    accepted ([ok = true]); when [D*86400 + h*3600 + m*60 + s] is at most
    2^53 the seconds returned are exactly that number, negated when the
    sign is [-]; and "+1h30m", "-30m", "+2D5h10m20s", "-1D12h" give 5400,
    -1800, 191420 and -129600. *)
Theorem duration_seconds (neg : bool) (D h m s : option string) :
  digits_ok D -> digits_ok h -> digits_ok m -> digits_ok s ->
  (ParseDurationString (duration_text neg D h m s)).2 = true
  /\ (duration_total D h m s <= 2 ^ 53 ->
      (ParseDurationString (duration_text neg D h m s)).1
      = if neg then F64.neg (F64.of_Z (duration_total D h m s))
        else F64.of_Z (duration_total D h m s))
  /\ ParseDurationString "+1h30m" = (F64.of_Z 5400, true)
  /\ ParseDurationString "-30m" = (F64.of_Z (-1800), true)
  /\ ParseDurationString "+2D5h10m20s" = (F64.of_Z 191420, true)
  /\ ParseDurationString "-1D12h" = (F64.of_Z (-129600), true).
Proof.
  intros HD Hh Hm Hs.
  destruct (ParseDurationString_grammar neg D h m s HD Hh Hm Hs) as [Hok Hsec].
  split; [exact Hok|]. split; [exact Hsec|].
  repeat split; vm_compute; reflexivity.
Qed.

(** C3 (as the code has it). A sign followed by one or more digits and
    nothing else is rejected ([ok = false]); a sign alone matches the
    pattern with every group absent and is accepted with zero seconds
    (negative zero for [-]). *)
Theorem duration_needs_unit :
  (forall sg ds,
      is_sign sg = true -> Strconv.is_decimal_digits ds = true ->
      ParseDurationString (String sg ds) = (F64.zero, false))
  /\ ParseDurationString "+123" = (F64.zero, false)
  /\ ParseDurationString "+" = (F64.zero, true)
  /\ ParseDurationString "-" = (F64.neg F64.zero, true).
Proof.
  split.
  - intros sg ds Hsg Hds. unfold ParseDurationString.
    now rewrite RegexpFacts.duration_regex_no_unit.
  - repeat split; vm_compute; reflexivity.
Qed.

End Codec.

Lemma duration_seconds_witness :
  (ParseDurationString (duration_text true (Some "2") None (Some "15") None)).2 = true
  /\ (ParseDurationString (duration_text true (Some "2") None (Some "15") None)).1
     = F64.neg (F64.of_Z 173700).
Proof.
  destruct (@duration_seconds plainLib true (Some "2") None (Some "15") None
              eq_refl I eq_refl I) as (Hok & Hsec & _).
  split; [exact Hok|]. apply Hsec. vm_compute. discriminate.
Defined.

(** C2, as stated, fails where float64 cannot hold the numbers: the
    seconds of "+9007199254740993s" are 9007199254740992, and a number too
    large for a float64 (here 1 followed by 309 zeros) is skipped, "ok"
    staying true. *)
Lemma duration_beyond_float64 :
  F64.int_value (ParseDurationString "+9007199254740993s").1 = Some 9007199254740992
  /\ duration_total None None None (Some "9007199254740993") = 9007199254740993
  /\ ParseDurationString (duration_text false None None None (Some ("1" +:+ zeros 309)))
     = (F64.zero, true)
  /\ duration_total None None None (Some ("1" +:+ zeros 309)) = 10 ^ 309.
Proof. repeat split; vm_compute; reflexivity. Qed.

(** C3, as stated, fails on a sign alone: it is accepted. *)
Lemma sign_only_is_accepted :
  (ParseDurationString "+").2 = true /\ (ParseDurationString "-").2 = true.
Proof. split; reflexivity. Qed.

(** C9. Provided the case table above ASCII keeps valid runes valid and
    returns lower case, sanitizing twice is sanitizing once, for every
    string (valid UTF-8 or not); and "Zone.Status-Type+Value/Count"
    becomes "zone_status_type_value_count". *)
Theorem sanitize_idempotent `{GoLib} :
  Strings.lower_table_ok ->
  (forall x, SanitizeMetricName (SanitizeMetricName x) = SanitizeMetricName x)
  /\ SanitizeMetricName "Zone.Status-Type+Value/Count"
     = "zone_status_type_value_count".
Proof.
  intros Hok. split.
  - intros x. now apply StringsFacts.sanitize_twice.
  - vm_compute. reflexivity.
Qed.

Lemma plain_table_ok : @Strings.lower_table_ok plainLib.
Proof.
  intros r Hr Hv. split; [exact Hv|]. unfold Strings.unicode_ToLower.
  cbn [lower_table plainLib]. destruct (Z.leb_spec r 127); [lia | reflexivity].
Qed.

Lemma sanitize_idempotent_witness :
  SanitizeMetricName (SanitizeMetricName "Query Type/AAAA.Total-Count")
  = SanitizeMetricName "Query Type/AAAA.Total-Count"
  /\ SanitizeMetricName "Zone.Status-Type+Value/Count"
     = "zone_status_type_value_count".
Proof.
  pose proof (@sanitize_idempotent plainLib plain_table_ok) as [Hx He].
  split; [apply Hx | exact He].
Defined.

End UtilsFacts.

Module CollectorFacts.
Import Libknot Collector.

(** *** Sending *)

Lemma andThen_nothing_l s : andThen nothing s = s.
Proof. now destruct s. Qed.

Lemma andThen_nothing_r s : andThen s nothing = s.
Proof.
  destruct s as [ms [why|]]; [reflexivity|]. unfold andThen. cbn. now rewrite app_nil_r.
Qed.

Lemma andThen_sent ms s : andThen (ms, None) s = ((ms ++ s.1)%list, s.2).
Proof. reflexivity. Qed.

Lemma andThen_panic ms why s : andThen (ms, Some why) s = (ms, Some why).
Proof. reflexivity. Qed.

Lemma andThen_assoc a b c : andThen (andThen a b) c = andThen a (andThen b c).
Proof.
  destruct a as [ma [wa|]]; [reflexivity|]. destruct b as [mb [wb|]]; [reflexivity|].
  unfold andThen. cbn. now rewrite app_assoc.
Qed.

Lemma andThen_Forall (P : Metric -> Prop) a b :
  Forall P a.1 -> Forall P b.1 -> Forall P (andThen a b).1.
Proof.
  intros Ha Hb. destruct a as [ma [wa|]]; [exact Ha|]. now apply Forall_app.
Qed.

(** Whether the two nodes of a pair can be built is decided by their
    descriptors' errors, the label count and the label values; the second
    is not tried when the first panics. *)
Section SendMetrics.
Context `{GoLib}.

Lemma MustNewConstMetric_made d t v labels :
  desc_err d = false ->
  List.length labels = List.length (variableLabels d) ->
  forallb Utf8.ValidString labels = true ->
  MustNewConstMetric d t v labels
  = Made {| desc := d; valueType := t; value := v; labelValues := labels |}.
Proof.
  intros Hd Hl Hv. unfold MustNewConstMetric.
  rewrite Hd, Hl, Nat.eqb_refl, Hv. reflexivity.
Qed.

Lemma MustNewConstMetric_shape d t v labels m :
  MustNewConstMetric d t v labels = Made m ->
  m = {| desc := d; valueType := t; value := v; labelValues := labels |}
  /\ desc_err d = false
  /\ List.length labels = List.length (variableLabels d)
  /\ forallb Utf8.ValidString labels = true.
Proof.
  unfold MustNewConstMetric. destruct (desc_err d); [discriminate|].
  destruct (Nat.eqb_spec (List.length labels) (List.length (variableLabels d)));
    [|discriminate].
  destruct (forallb Utf8.ValidString labels); [|discriminate].
  cbn [negb]. intros E. injection E as <-. now repeat split.
Qed.

Lemma MustNewConstMetric_not_utf8 d t v labels :
  desc_err d = false ->
  List.length labels = List.length (variableLabels d) ->
  forallb Utf8.ValidString labels = false ->
  MustNewConstMetric d t v labels = Panics LabelNotUTF8.
Proof.
  intros Hd Hl Hv. unfold MustNewConstMetric.
  rewrite Hd, Hl, Nat.eqb_refl, Hv. reflexivity.
Qed.

Lemma sendMetrics_sends (d : DescPair) v labels :
  desc_err d.1 = false -> desc_err d.2 = false ->
  List.length labels = List.length (variableLabels d.1) ->
  List.length labels = List.length (variableLabels d.2) ->
  forallb Utf8.ValidString labels = true ->
  sendMetrics d v labels
  = ([ {| desc := d.1; valueType := GaugeValue; value := v; labelValues := labels |};
       {| desc := d.2; valueType := CounterValue; value := v; labelValues := labels |} ],
     None).
Proof.
  intros H1 H2 L1 L2 Hv. unfold sendMetrics.
  now rewrite !MustNewConstMetric_made by assumption.
Qed.

Lemma sendMetrics_not_utf8 (d : DescPair) v labels :
  desc_err d.1 = false ->
  List.length labels = List.length (variableLabels d.1) ->
  forallb Utf8.ValidString labels = false ->
  sendMetrics d v labels = ([], Some LabelNotUTF8).
Proof.
  intros H1 L1 Hv. unfold sendMetrics.
  now rewrite MustNewConstMetric_not_utf8 by assumption.
Qed.

(** What [sendMetrics] has sent is the gauge, or the gauge and the
    counter, or nothing, with the contents it was called with. *)
Lemma sendMetrics_Forall (P : Metric -> Prop) (d : DescPair) v labels :
  (desc_err d.1 = false -> List.length labels = List.length (variableLabels d.1) ->
   forallb Utf8.ValidString labels = true ->
   P {| desc := d.1; valueType := GaugeValue; value := v; labelValues := labels |}) ->
  (desc_err d.2 = false -> List.length labels = List.length (variableLabels d.2) ->
   forallb Utf8.ValidString labels = true ->
   P {| desc := d.2; valueType := CounterValue; value := v; labelValues := labels |}) ->
  Forall P (sendMetrics d v labels).1.
Proof.
  intros Hg Hc. unfold sendMetrics.
  destruct (MustNewConstMetric d.1 GaugeValue v labels) as [g|why] eqn:Eg;
    [|constructor].
  apply MustNewConstMetric_shape in Eg as (-> & G1 & G2 & G3).
  destruct (MustNewConstMetric d.2 CounterValue v labels) as [k|why] eqn:Ek.
  - apply MustNewConstMetric_shape in Ek as (-> & K1 & K2 & K3).
    cbn. constructor; [now apply Hg|]. constructor; [now apply Hc|constructor].
  - cbn. constructor; [now apply Hg|constructor].
Qed.

(** The panic of [sendMetrics] is never the label count when the count is
    right for both descriptors. *)
Lemma sendMetrics_count (d : DescPair) v labels :
  List.length labels = List.length (variableLabels d.1) ->
  List.length labels = List.length (variableLabels d.2) ->
  (sendMetrics d v labels).2 <> Some LabelCount.
Proof.
  intros L1 L2. unfold sendMetrics, MustNewConstMetric.
  rewrite (proj2 (Nat.eqb_eq _ _) L1), (proj2 (Nat.eqb_eq _ _) L2). cbn [negb].
  destruct (desc_err d.1); [discriminate|].
  destruct (forallb Utf8.ValidString labels); cbn [negb]; [|discriminate].
  destruct (desc_err d.2); discriminate.
Qed.

End SendMetrics.

Lemma is_end_spec dataType :
  is_end dataType = true <-> dataType = CtlTypeBlock \/ dataType = CtlTypeEnd.
Proof.
  unfold is_end. rewrite orb_true_iff, !Z.eqb_eq. reflexivity.
Qed.

Lemma is_end_plain dataType :
  dataType <> CtlTypeBlock -> dataType <> CtlTypeEnd -> is_end dataType = false.
Proof.
  intros Hb He. destruct (is_end dataType) eqn:E; [|reflexivity].
  apply is_end_spec in E. tauto.
Qed.

Section Loop.
Context {St : Type} (body : St -> CtlType -> CtlData -> St * Sent) (ctl : Ctl).

Lemma receive_loop_error budget i st err :
  ReceiveResponse ctl i = RecvError err ->
  receive_loop body ctl (S budget) i st
  = {| emitted := []; final := st; result := Returned (Some err); calls := 1 |}.
Proof. intros E. simpl. now rewrite E. Qed.

Lemma receive_loop_end budget i st dataType data :
  ReceiveResponse ctl i = Recv dataType data ->
  dataType = CtlTypeBlock \/ dataType = CtlTypeEnd ->
  receive_loop body ctl (S budget) i st
  = {| emitted := []; final := st; result := Returned None; calls := 1 |}.
Proof. intros E T. apply is_end_spec in T. simpl. now rewrite E, T. Qed.

Lemma receive_loop_record budget i st dataType data st' ms :
  ReceiveResponse ctl i = Recv dataType data ->
  dataType <> CtlTypeBlock -> dataType <> CtlTypeEnd ->
  body st dataType data = (st', (ms, None)) ->
  receive_loop body ctl (S budget) i st
  = let r := receive_loop body ctl budget (S i) st' in
    {| emitted := (ms ++ emitted r)%list; final := final r;
       result := result r; calls := S (calls r) |}.
Proof.
  intros E Tb Te B. simpl. now rewrite E, (is_end_plain _ Tb Te), B.
Qed.

Lemma receive_loop_panics budget i st dataType data st' ms why :
  ReceiveResponse ctl i = Recv dataType data ->
  dataType <> CtlTypeBlock -> dataType <> CtlTypeEnd ->
  body st dataType data = (st', (ms, Some why)) ->
  receive_loop body ctl (S budget) i st
  = {| emitted := ms; final := st'; result := Panicked why; calls := 1 |}.
Proof.
  intros E Tb Te B. simpl. now rewrite E, (is_end_plain _ Tb Te), B.
Qed.

(** The loop never makes more calls than its budget. *)
Lemma receive_loop_calls budget : forall i st,
  (calls (receive_loop body ctl budget i st) <= budget)%nat.
Proof.
  induction budget as [|b IH]; intros i st; simpl; [lia|].
  destruct (ReceiveResponse ctl i) as [e|t d]; simpl; [lia|].
  destruct (is_end t); simpl; [lia|].
  destruct (body st t d) as [st' [ms [why|]]]; simpl; [lia|].
  specialize (IH (S i) st'). lia.
Qed.

(** After [n] plain records that do not panic the loop is where a fresh
    loop with the remaining budget would start, having sent what those
    records send. *)
Lemma receive_loop_prefix n : forall budget i st,
  (forall j, (j < n)%nat -> plain_record ctl (i + j)) ->
  (records_emitted body ctl n i st).2.2 = None ->
  receive_loop body ctl (n + budget) i st
  = let r := receive_loop body ctl budget (i + n)
               (records_emitted body ctl n i st).1 in
    {| emitted := ((records_emitted body ctl n i st).2.1 ++ emitted r)%list;
       final := final r; result := result r; calls := (n + calls r)%nat |}.
Proof.
  induction n as [|n IH]; intros budget i st Hp Hq.
  - simpl. rewrite Nat.add_0_r. now destruct (receive_loop body ctl budget i st).
  - destruct (Hp 0%nat ltac:(lia)) as (t & d & E & Tb & Te). rewrite Nat.add_0_r in E.
    change (S n + budget)%nat with (S (n + budget)).
    simpl records_emitted in *. rewrite E in *.
    destruct (body st t d) as [st' [ms [why|]]] eqn:Eb; cbn [fst snd] in *;
      [discriminate|].
    rewrite (receive_loop_record _ _ _ _ _ _ _ E Tb Te Eb).
    destruct (records_emitted body ctl n (S i) st') as [st'' [ms' q]] eqn:Er.
    cbn [fst snd andThen] in Hq. subst q.
    rewrite IH.
    + rewrite Er. cbn [fst snd andThen].
      replace (S i + n)%nat with (i + S n)%nat by lia.
      cbv zeta. cbn [emitted final result calls]. now rewrite app_assoc.
    + intros j Hj. replace (S i + j)%nat with (i + S j)%nat by lia. apply Hp. lia.
    + now rewrite Er.
Qed.

(** When one of the first [n] plain records panics, so does the loop,
    having sent what the records up to that one send. *)
Lemma receive_loop_prefix_panics n : forall budget i st why,
  (forall j, (j < n)%nat -> plain_record ctl (i + j)) ->
  (records_emitted body ctl n i st).2.2 = Some why ->
  (n <= budget)%nat ->
  let r := receive_loop body ctl budget i st in
  result r = Panicked why
  /\ emitted r = (records_emitted body ctl n i st).2.1
  /\ (calls r <= n)%nat.
Proof.
  induction n as [|n IH]; intros budget i st why Hp Hq Hn; [discriminate|].
  destruct budget as [|budget]; [lia|].
  destruct (Hp 0%nat ltac:(lia)) as (t & d & E & Tb & Te). rewrite Nat.add_0_r in E.
  simpl records_emitted in *. rewrite E in *.
  destruct (body st t d) as [st' [ms [why'|]]] eqn:Eb; cbn [fst snd] in *.
  - injection Hq as ->.
    rewrite (receive_loop_panics _ _ _ _ _ _ _ _ E Tb Te Eb).
    cbn. repeat split. lia.
  - rewrite (receive_loop_record _ _ _ _ _ _ _ E Tb Te Eb).
    destruct (records_emitted body ctl n (S i) st') as [st'' [ms' q]] eqn:Er.
    cbn [fst snd andThen] in *. subst q.
    destruct (IH budget (S i) st' why) as (R1 & R2 & R3).
    + intros j Hj. replace (S i + j)%nat with (i + S j)%nat by lia. apply Hp. lia.
    + now rewrite Er.
    + lia.
    + cbv zeta. cbn [emitted final result calls]. rewrite R1, R2, Er.
      repeat split. lia.
Qed.

(** A loop that meets an error, BLOCK or END within its budget returns or
    panics. *)
Lemma receive_loop_ends budget : forall i st k,
  (k < budget)%nat -> stops_at ctl (i + k) ->
  result (receive_loop body ctl budget i st) <> Receiving.
Proof.
  induction budget as [|b IH]; intros i st k Hk Hs; [lia|].
  simpl. destruct (ReceiveResponse ctl i) as [e|t d] eqn:E; simpl; [discriminate|].
  destruct (is_end t) eqn:T; simpl; [discriminate|].
  destruct (body st t d) as [st' [ms [why|]]]; simpl; [discriminate|].
  destruct k as [|k].
  - unfold stops_at in Hs. rewrite Nat.add_0_r, E in Hs.
    apply is_end_spec in Hs. congruence.
  - apply (IH (S i) st' k); [lia|]. now replace (S i + k)%nat with (i + S k)%nat by lia.
Qed.

(** An invariant of the phase state that the body keeps and that rules
    its panic out on the records that are [ok] rules out the panic of the
    loop on a stream of such records. *)
Lemma receive_loop_calm (Inv : St -> Prop) (ok : CtlData -> Prop) :
  (forall st dataType data,
      Inv st -> ok data ->
      Inv (body st dataType data).1 /\ (body st dataType data).2.2 = None) ->
  (forall j dataType data, ReceiveResponse ctl j = Recv dataType data -> ok data) ->
  forall budget i st, Inv st ->
    Inv (final (receive_loop body ctl budget i st))
    /\ forall why, result (receive_loop body ctl budget i st) <> Panicked why.
Proof.
  intros Hb Hc. induction budget as [|b IH]; intros i st Hi; simpl;
    [split; [assumption|discriminate]|].
  destruct (ReceiveResponse ctl i) as [e|t d] eqn:E; simpl;
    [split; [assumption|discriminate]|].
  destruct (is_end t); simpl; [split; [assumption|discriminate]|].
  destruct (Hb st t d Hi (Hc _ _ _ E)) as [Hi' Hq].
  destruct (body st t d) as [st' [ms q]]. cbn [fst snd] in *. subst q.
  exact (IH (S i) st' Hi').
Qed.

Lemma records_emitted_calm (Inv : St -> Prop) (ok : CtlData -> Prop) :
  (forall st dataType data,
      Inv st -> ok data ->
      Inv (body st dataType data).1 /\ (body st dataType data).2.2 = None) ->
  forall n i st,
    (forall j dataType data, (i <= j < i + n)%nat ->
        ReceiveResponse ctl j = Recv dataType data -> ok data) ->
    Inv st -> (records_emitted body ctl n i st).2.2 = None.
Proof.
  intros Hb. induction n as [|n IH]; intros i st Hc Hi; simpl; [reflexivity|].
  destruct (ReceiveResponse ctl i) as [e|t d] eqn:E; [reflexivity|].
  destruct (Hb st t d Hi (Hc i t d ltac:(lia) E)) as [Hi' Hq].
  destruct (body st t d) as [st' [ms q]]. cbn [fst snd] in *. subst q.
  specialize (IH (S i) st' ltac:(intros j t' d' Hj; apply Hc; lia) Hi').
  destruct (records_emitted body ctl n (S i) st') as [st'' [ms' q]].
  cbn [fst snd andThen] in *. exact IH.
Qed.

End Loop.

(** A loop whose budget is used up by plain records that do not panic is
    still receiving. *)
Lemma receive_loop_exhausts {St : Type}
    (body : St -> CtlType -> CtlData -> St * Sent) ctl n : forall i st,
  (forall j, (j < n)%nat -> plain_record ctl (i + j)) ->
  (records_emitted body ctl n i st).2.2 = None ->
  receive_loop body ctl n i st
  = {| emitted := (records_emitted body ctl n i st).2.1;
       final := (records_emitted body ctl n i st).1;
       result := Receiving; calls := n |}.
Proof.
  intros i st Hp Hq.
  pose proof (receive_loop_prefix body ctl n 0 i st Hp Hq) as E.
  rewrite Nat.add_0_r in E. rewrite E. cbn. now rewrite app_nil_r, Nat.add_0_r.
Qed.

Lemma if_same {A : Type} (b : bool) (x : A) : (if b then x else x) = x.
Proof. now destruct b. Qed.


(** *** The zone-status cursor *)

Section ZoneStatus.
Context `{GoLib} (c : KnotCollector).

Lemma zoneStatusRecord_data cur data :
  zoneStatusRecord c cur CtlTypeData data
  = if str_nonempty (Zone data) && negb (String.eqb (Zone data) (currentZone cur))
    then ({| currentZone := Zone data; responseIndex := 0 |}, nothing)
    else (cur, nothing).
Proof. reflexivity. Qed.

Lemma zoneStatusRecord_extra_unset cur data :
  currentZone cur = "" -> zoneStatusRecord c cur CtlTypeExtra data = (cur, nothing).
Proof. intros E. unfold zoneStatusRecord. rewrite E. reflexivity. Qed.

Lemma zoneStatusRecord_other cur dataType data :
  dataType <> CtlTypeData -> dataType <> CtlTypeExtra ->
  zoneStatusRecord c cur dataType data = (cur, nothing).
Proof.
  intros H1 H2. unfold zoneStatusRecord.
  apply Z.eqb_neq in H1, H2. now rewrite H1, H2.
Qed.

(** An EXTRA record under an established cursor: the index advances, and
    only positions 1, 7 and 9 can send. *)
Lemma zoneStatusRecord_extra cur data :
  str_nonempty (currentZone cur) = true ->
  zoneStatusRecord c cur CtlTypeExtra data
  = ({| currentZone := currentZone cur;
        responseIndex := int_wrap (responseIndex cur + 1) |},
     andThen
       (if collectZoneSerial c && (int_wrap (responseIndex cur + 1) =? 1) then
          match Strconv.ParseFloat (Data data) with
          | Some serial => sendMetrics zoneSerialDesc serial [currentZone cur]
          | None => nothing
          end
        else nothing)
       (if collectZoneStatus c && str_nonempty (Data data)
           && negb (String.eqb (Data data) "-") then
          if int_wrap (responseIndex cur + 1) =? 7 then
            match convertStateTime (Data data) with
            | Some seconds => sendMetrics zoneStatusRefreshDesc seconds [currentZone cur]
            | None => nothing
            end
          else if int_wrap (responseIndex cur + 1) =? 9 then
            match convertStateTime (Data data) with
            | Some seconds =>
                sendMetrics zoneStatusExpirationDesc seconds [currentZone cur]
            | None => nothing
            end
          else nothing
        else nothing)).
Proof. intros E. unfold zoneStatusRecord. rewrite E. reflexivity. Qed.

Lemma zoneStatusRecord_extra_quiet cur data :
  str_nonempty (currentZone cur) = true ->
  int_wrap (responseIndex cur + 1) <> 1 -> int_wrap (responseIndex cur + 1) <> 7 ->
  int_wrap (responseIndex cur + 1) <> 9 ->
  zoneStatusRecord c cur CtlTypeExtra data
  = ({| currentZone := currentZone cur;
        responseIndex := int_wrap (responseIndex cur + 1) |}, nothing).
Proof.
  intros E H1 H7 H9. rewrite zoneStatusRecord_extra by assumption.
  apply Z.eqb_neq in H1, H7, H9. rewrite H1, H7, H9, andb_false_r, if_same.
  reflexivity.
Qed.

(** Without a DATA record naming a zone, the loop leaves the cursor unset
    and emits nothing. *)
Lemma zone_status_loop_unset ctl budget : forall i cur,
  currentZone cur = "" ->
  (forall j data, ReceiveResponse ctl j = Recv CtlTypeData data -> Zone data = "") ->
  let r := receive_loop (zoneStatusRecord c) ctl budget i cur in
  emitted r = [] /\ final r = cur.
Proof.
  induction budget as [|b IH]; intros i cur E Hz; simpl; [easy|].
  destruct (ReceiveResponse ctl i) as [e|t d] eqn:R; simpl; [easy|].
  destruct (is_end t) eqn:T; simpl; [easy|].
  assert (B : zoneStatusRecord c cur t d = (cur, nothing)).
  { destruct (Z.eq_dec t CtlTypeData) as [->|Hd].
    - rewrite zoneStatusRecord_data, (Hz _ _ R). reflexivity.
    - destruct (Z.eq_dec t CtlTypeExtra) as [->|He].
      + now apply zoneStatusRecord_extra_unset.
      + now apply zoneStatusRecord_other. }
  rewrite B. simpl. destruct (IH (S i) cur E Hz) as [-> ->]. easy.
Qed.

(** C10. In the zone-status phase an EXTRA record received while no zone
    is current is ignored: the positional index does not advance and
    nothing is emitted; a DATA record whose zone is empty, or is the
    current zone, leaves the cursor and the index as they are; no DATA
    record emits; and a phase in which no DATA record names a zone emits
    nothing and ends with the cursor unset and the index at 0. *)
Theorem zone_status_needs_cursor :
  (forall cur data,
      currentZone cur = "" -> zoneStatusRecord c cur CtlTypeExtra data = (cur, nothing))
  /\ (forall cur data,
      Zone data = "" \/ Zone data = currentZone cur ->
      zoneStatusRecord c cur CtlTypeData data = (cur, nothing))
  /\ (forall cur data, (zoneStatusRecord c cur CtlTypeData data).2 = nothing)
  /\ (forall ctl budget,
      (forall j data, ReceiveResponse ctl j = Recv CtlTypeData data -> Zone data = "") ->
      let r := collectZoneStatusInfo c ctl budget in
      emitted r = [] /\ currentZone (final r) = "" /\ responseIndex (final r) = 0).
Proof.
  split; [|split; [|split]].
  - apply zoneStatusRecord_extra_unset.
  - intros cur data [E|E]; rewrite zoneStatusRecord_data, E.
    + reflexivity.
    + now rewrite String.eqb_refl, andb_false_r.
  - intros cur data. rewrite zoneStatusRecord_data.
    now destruct (_ && _).
  - intros ctl budget Hz. unfold collectZoneStatusInfo.
    destruct (SendCommand ctl "zone-status"); [easy|].
    destruct (zone_status_loop_unset ctl budget 0
                {| currentZone := ""; responseIndex := 0 |} eq_refl Hz) as [-> ->].
    easy.
Qed.

Lemma parse_serial_example : Strconv.ParseFloat "2023101801" = Some (F64.of_Z 2023101801).
Proof. reflexivity. Qed.

Lemma convert_refresh_example : convertStateTime "+1h30m" = Some (F64.of_Z 5400).
Proof. vm_compute. reflexivity. Qed.

Lemma convert_expiration_example : convertStateTime "+30D" = Some (F64.of_Z 2592000).
Proof. vm_compute. reflexivity. Qed.

Lemma receive_loop_chain {St : Type}
    (body : St -> CtlType -> CtlData -> St * Sent) ctl budget i st
    dataType data st' ms ms' fin res n :
  ReceiveResponse ctl i = Recv dataType data ->
  dataType <> CtlTypeBlock -> dataType <> CtlTypeEnd ->
  body st dataType data = (st', (ms, None)) ->
  receive_loop body ctl budget (S i) st'
  = {| emitted := ms'; final := fin; result := res; calls := n |} ->
  receive_loop body ctl (S budget) i st
  = {| emitted := (ms ++ ms')%list; final := fin; result := res; calls := S n |}.
Proof.
  intros R Tb Te B L. rewrite (receive_loop_record _ _ _ _ _ _ _ _ _ R Tb Te B).
  now rewrite L.
Qed.

Lemma int_wrap_small z : - 2 ^ 63 <= z < 2 ^ 63 -> int_wrap z = z.
Proof. intros Hz. unfold int_wrap. rewrite Z.mod_small; lia. Qed.

Lemma example_quiet k data :
  0 <= k < 9 -> k + 1 <> 1 -> k + 1 <> 7 -> k + 1 <> 9 ->
  zoneStatusRecord c (at_position k) CtlTypeExtra data
  = (at_position (k + 1), ([], None)).
Proof.
  intros Hk H1 H7 H9.
  assert (E : int_wrap (k + 1) = k + 1) by (apply int_wrap_small; lia).
  rewrite zoneStatusRecord_extra_quiet; cbn [at_position responseIndex currentZone];
    rewrite ?E; auto.
Qed.

Lemma example_serial data :
  collectZoneSerial c = true -> Data data = "2023101801" ->
  zoneStatusRecord c (at_position 0) CtlTypeExtra data
  = (at_position 1,
     ([observation zoneSerialDesc.1 GaugeValue 2023101801 ["example.com"];
       observation zoneSerialDesc.2 CounterValue 2023101801 ["example.com"]], None)).
Proof.
  intros Hs Hd. rewrite zoneStatusRecord_extra by reflexivity.
  rewrite Hs, Hd, parse_serial_example. cbn [at_position responseIndex currentZone].
  change (int_wrap (0 + 1)) with 1. change (1 =? 1) with true.
  change (1 =? 7) with false.
  change (1 =? 9) with false. rewrite if_same. cbn [andb].
  now rewrite andThen_nothing_r.
Qed.

Lemma example_refresh data :
  collectZoneStatus c = true -> Data data = "+1h30m" ->
  zoneStatusRecord c (at_position 6) CtlTypeExtra data
  = (at_position 7,
     ([observation zoneStatusRefreshDesc.1 GaugeValue 5400 ["example.com"];
       observation zoneStatusRefreshDesc.2 CounterValue 5400 ["example.com"]], None)).
Proof.
  intros Hs Hd. rewrite zoneStatusRecord_extra by reflexivity.
  rewrite Hs, Hd, convert_refresh_example. cbn [at_position responseIndex currentZone].
  change (int_wrap (6 + 1)) with 7. change (7 =? 1) with false.
  change (7 =? 7) with true.
  now rewrite andb_false_r.
Qed.

Lemma example_expiration data :
  collectZoneStatus c = true -> Data data = "+30D" ->
  zoneStatusRecord c (at_position 8) CtlTypeExtra data
  = (at_position 9,
     ([observation zoneStatusExpirationDesc.1 GaugeValue 2592000 ["example.com"];
       observation zoneStatusExpirationDesc.2 CounterValue 2592000 ["example.com"]],
      None)).
Proof.
  intros Hs Hd. rewrite zoneStatusRecord_extra by reflexivity.
  rewrite Hs, Hd, convert_expiration_example. cbn [at_position responseIndex currentZone].
  change (int_wrap (8 + 1)) with 9. change (9 =? 1) with false.
  change (9 =? 7) with false.
  change (9 =? 9) with true. now rewrite andb_false_r.
Qed.

(** C1. With serial and zone-status collection enabled, a DATA record for
    zone example.com followed by nine EXTRA records whose values at
    positions 1, 7 and 9 are "2023101801", "+1h30m" and "+30D", then BLOCK,
    makes the zone-status phase return without error having emitted
    exactly six observations: zone serial 2023101801, zone-status refresh
    5400 and zone-status expiration 2592000, each as a gauge ([knot_zone_...])
    and a counter ([knot_zone_..._total]) labelled with the zone.  The
    timer option plays no part in this phase. *)
Theorem zone_status_example (ctl : Ctl) (budget : nat)
    (d0 e1 e2 e3 e4 e5 e6 e7 e8 e9 blk : CtlData) :
  collectZoneSerial c = true -> collectZoneStatus c = true ->
  SendCommand ctl "zone-status" = None ->
  ReceiveResponse ctl 0 = Recv CtlTypeData d0 -> Zone d0 = "example.com" ->
  ReceiveResponse ctl 1 = Recv CtlTypeExtra e1 -> Data e1 = "2023101801" ->
  ReceiveResponse ctl 2 = Recv CtlTypeExtra e2 ->
  ReceiveResponse ctl 3 = Recv CtlTypeExtra e3 ->
  ReceiveResponse ctl 4 = Recv CtlTypeExtra e4 ->
  ReceiveResponse ctl 5 = Recv CtlTypeExtra e5 ->
  ReceiveResponse ctl 6 = Recv CtlTypeExtra e6 ->
  ReceiveResponse ctl 7 = Recv CtlTypeExtra e7 -> Data e7 = "+1h30m" ->
  ReceiveResponse ctl 8 = Recv CtlTypeExtra e8 ->
  ReceiveResponse ctl 9 = Recv CtlTypeExtra e9 -> Data e9 = "+30D" ->
  ReceiveResponse ctl 10 = Recv CtlTypeBlock blk ->
  (11 <= budget)%nat ->
  let r := collectZoneStatusInfo c ctl budget in
  emitted r
  = [ observation zoneSerialDesc.1 GaugeValue 2023101801 ["example.com"];
      observation zoneSerialDesc.2 CounterValue 2023101801 ["example.com"];
      observation zoneStatusRefreshDesc.1 GaugeValue 5400 ["example.com"];
      observation zoneStatusRefreshDesc.2 CounterValue 5400 ["example.com"];
      observation zoneStatusExpirationDesc.1 GaugeValue 2592000 ["example.com"];
      observation zoneStatusExpirationDesc.2 CounterValue 2592000 ["example.com"] ]
  /\ List.map (fun m => fqName (desc m)) (emitted r)
     = [ "knot_zone_serial"; "knot_zone_serial_total";
         "knot_zone_status_refresh_seconds"; "knot_zone_status_refresh_seconds_total";
         "knot_zone_status_expiration_seconds";
         "knot_zone_status_expiration_seconds_total" ]
  /\ result r = Returned None.
Proof.
  intros Hser Hst Hsend R0 Z0 R1 D1 R2 R3 R4 R5 R6 R7 D7 R8 R9 D9 R10 Hb.
  set (body := zoneStatusRecord c).
  destruct (Nat.le_exists_sub 11 budget Hb) as (b & -> & _).
  rewrite Nat.add_comm.
  assert (S0 : body {| currentZone := ""; responseIndex := 0 |} CtlTypeData d0
               = (at_position 0, ([], None))).
  { unfold body. now rewrite zoneStatusRecord_data, Z0. }
  assert (Hx : CtlTypeExtra <> CtlTypeBlock /\ CtlTypeExtra <> CtlTypeEnd) by easy.
  assert (Hd : CtlTypeData <> CtlTypeBlock /\ CtlTypeData <> CtlTypeEnd) by easy.
  destruct Hx as [Xb Xe], Hd as [Db De].
  pose proof (receive_loop_end body ctl b 10 (at_position 9) _ _ R10 (or_introl eq_refl))
    as L10.
  pose proof (receive_loop_chain body ctl _ 9 _ _ _ _ _ _ _ _ _ R9 Xb Xe
                (example_expiration e9 Hst D9) L10) as L9.
  pose proof (receive_loop_chain body ctl _ 8 _ _ _ _ _ _ _ _ _ R8 Xb Xe
                (example_quiet 7 e8 ltac:(lia) ltac:(lia) ltac:(lia) ltac:(lia)) L9) as L8.
  pose proof (receive_loop_chain body ctl _ 7 _ _ _ _ _ _ _ _ _ R7 Xb Xe
                (example_refresh e7 Hst D7) L8) as L7.
  pose proof (receive_loop_chain body ctl _ 6 _ _ _ _ _ _ _ _ _ R6 Xb Xe
                (example_quiet 5 e6 ltac:(lia) ltac:(lia) ltac:(lia) ltac:(lia)) L7) as L6.
  pose proof (receive_loop_chain body ctl _ 5 _ _ _ _ _ _ _ _ _ R5 Xb Xe
                (example_quiet 4 e5 ltac:(lia) ltac:(lia) ltac:(lia) ltac:(lia)) L6) as L5.
  pose proof (receive_loop_chain body ctl _ 4 _ _ _ _ _ _ _ _ _ R4 Xb Xe
                (example_quiet 3 e4 ltac:(lia) ltac:(lia) ltac:(lia) ltac:(lia)) L5) as L4.
  pose proof (receive_loop_chain body ctl _ 3 _ _ _ _ _ _ _ _ _ R3 Xb Xe
                (example_quiet 2 e3 ltac:(lia) ltac:(lia) ltac:(lia) ltac:(lia)) L4) as L3.
  pose proof (receive_loop_chain body ctl _ 2 _ _ _ _ _ _ _ _ _ R2 Xb Xe
                (example_quiet 1 e2 ltac:(lia) ltac:(lia) ltac:(lia) ltac:(lia)) L3) as L2.
  pose proof (receive_loop_chain body ctl _ 1 _ _ _ _ _ _ _ _ _ R1 Xb Xe
                (example_serial e1 Hser D1) L2) as L1.
  pose proof (receive_loop_chain body ctl _ 0 _ _ _ _ _ _ _ _ _ R0 Db De S0 L1) as L0.
  cbv zeta. unfold collectZoneStatusInfo. rewrite Hsend. fold body.
  change (11 + b)%nat with (S (S (S (S (S (S (S (S (S (S (S b))))))))))).
  rewrite L0. cbn [emitted result]. split; [reflexivity|]. split; reflexivity.
Qed.

End ZoneStatus.

Lemma zone_status_example_witness :
  emitted (collectZoneStatusInfo example_collector zone_status_script 20)
  = [ observation zoneSerialDesc.1 GaugeValue 2023101801 ["example.com"];
      observation zoneSerialDesc.2 CounterValue 2023101801 ["example.com"];
      observation zoneStatusRefreshDesc.1 GaugeValue 5400 ["example.com"];
      observation zoneStatusRefreshDesc.2 CounterValue 5400 ["example.com"];
      observation zoneStatusExpirationDesc.1 GaugeValue 2592000 ["example.com"];
      observation zoneStatusExpirationDesc.2 CounterValue 2592000 ["example.com"] ]
  /\ List.map (fun m => fqName (desc m))
       (emitted (collectZoneStatusInfo example_collector zone_status_script 20))
     = [ "knot_zone_serial"; "knot_zone_serial_total";
         "knot_zone_status_refresh_seconds"; "knot_zone_status_refresh_seconds_total";
         "knot_zone_status_expiration_seconds";
         "knot_zone_status_expiration_seconds_total" ]
  /\ result (collectZoneStatusInfo example_collector zone_status_script 20)
     = Returned None.
Proof.
  apply (@zone_status_example plainLib example_collector zone_status_script 20
           _ _ _ _ _ _ _ _ _ _ _
           eq_refl eq_refl eq_refl eq_refl eq_refl eq_refl eq_refl eq_refl eq_refl
           eq_refl eq_refl eq_refl eq_refl eq_refl eq_refl eq_refl eq_refl eq_refl).
  lia.
Defined.

(** *** Zone timers *)



Section ZoneTimers.
Context `{GoLib}.

(** The pairs with the one label [zone] (or [pid]): the label value
    decides. *)
Lemma sendMetrics_one (d : DescPair) v label :
  desc_err d.1 = false -> desc_err d.2 = false ->
  List.length (variableLabels d.1) = 1%nat -> List.length (variableLabels d.2) = 1%nat ->
  sendMetrics d v [label]
  = if Utf8.ValidString label then
      ([ {| desc := d.1; valueType := GaugeValue; value := v; labelValues := [label] |};
         {| desc := d.2; valueType := CounterValue; value := v;
            labelValues := [label] |} ], None)
    else ([], Some LabelNotUTF8).
Proof.
  intros H1 H2 L1 L2. destruct (Utf8.ValidString label) eqn:Hv.
  - apply sendMetrics_sends; try assumption; try (now symmetry).
    cbn. now rewrite Hv.
  - apply sendMetrics_not_utf8; try assumption; try (now symmetry).
    cbn. now rewrite Hv.
Qed.

Lemma zoneTimerRecord_skips dataType data :
  dataType <> CtlTypeData \/ Zone data = "" ->
  zoneTimerRecord tt dataType data = (tt, nothing).
Proof.
  intros [Hd|Hz]; unfold zoneTimerRecord.
  - apply Z.eqb_neq in Hd. now rewrite Hd.
  - now rewrite Hz, andb_false_r.
Qed.



(** A record sends six observations or none, and panics only for a zone
    that is not valid UTF-8. *)
Lemma zoneTimerRecord_cases dataType data :
  zoneTimerRecord tt dataType data = (tt, nothing)
  \/ (str_nonempty (Zone data) = true /\ Utf8.ValidString (Zone data) = false
      /\ zoneTimerRecord tt dataType data = (tt, ([], Some LabelNotUTF8)))
  \/ (str_nonempty (Zone data) = true /\ Utf8.ValidString (Zone data) = true
      /\ exists n3 n4 n5,
           zoneTimerRecord tt dataType data
           = (tt, ([ observation zoneRefreshDesc.1 GaugeValue n3 [Zone data];
                     observation zoneRefreshDesc.2 CounterValue n3 [Zone data];
                     observation zoneRetryDesc.1 GaugeValue n4 [Zone data];
                     observation zoneRetryDesc.2 CounterValue n4 [Zone data];
                     observation zoneExpirationDesc.1 GaugeValue n5 [Zone data];
                     observation zoneExpirationDesc.2 CounterValue n5 [Zone data] ],
                   None))).
Proof.
  unfold zoneTimerRecord.
  destruct (dataType =? CtlTypeData); [|now left]. cbn [andb].
  destruct (str_nonempty (Zone data)) eqn:Hz; [|now left].
  destruct (_ =? _)%nat; [|now left].
  destruct (_ && _); [|now left].
  destruct (parse_numeric _) as [vals|]; [|now left].
  rewrite !sendMetrics_one by reflexivity.
  destruct (Utf8.ValidString (Zone data)) eqn:Hv.
  - right. right. repeat split. now eexists _, _, _.
  - right. left. now repeat split.
Qed.

Lemma leave_at_bound_spec r :
  emitted (leave_at_bound r) = emitted r
  /\ calls (leave_at_bound r) = calls r
  /\ result (leave_at_bound r)
     = match result r with Receiving => Returned None | res => res end.
Proof. destruct r as [ms [] res n]. now destruct res. Qed.

Lemma collectZoneTimerInfo_sent ctl :
  SendCommandWithType ctl "zone-read" "SOA" = None ->
  collectZoneTimerInfo ctl
  = leave_at_bound (receive_loop zoneTimerRecord ctl (Z.to_nat maxResponses) 0 tt).
Proof. intros Hs. unfold collectZoneTimerInfo. now rewrite Hs. Qed.




Lemma zone_timer_calls ctl : Z.of_nat (calls (collectZoneTimerInfo ctl)) <= 100000.
Proof.
  destruct (SendCommandWithType ctl "zone-read" "SOA") as [e|] eqn:Hs.
  - unfold collectZoneTimerInfo. rewrite Hs. unfold send_failed, calls. lia.
  - rewrite (collectZoneTimerInfo_sent ctl Hs).
    destruct (leave_at_bound_spec
                (receive_loop zoneTimerRecord ctl (Z.to_nat maxResponses) 0 tt))
      as (_ & -> & _).
    pose proof (receive_loop_calls zoneTimerRecord ctl (Z.to_nat maxResponses) 0 tt) as Hc.
    assert (Hm : Z.of_nat (Z.to_nat maxResponses) = 100000) by (unfold maxResponses; lia).
    revert Hc Hm. generalize (Z.to_nat maxResponses).
    generalize (calls (receive_loop zoneTimerRecord ctl (Z.to_nat maxResponses) 0 ())).
    intros. lia.
Qed.

(** The phase is never left receiving: it returns or it panics. *)
Lemma zone_timer_ends ctl : result (collectZoneTimerInfo ctl) <> Receiving.
Proof.
  destruct (SendCommandWithType ctl "zone-read" "SOA") as [e|] eqn:Hs.
  - unfold collectZoneTimerInfo. rewrite Hs. discriminate.
  - rewrite (collectZoneTimerInfo_sent ctl Hs).
    destruct (leave_at_bound_spec
                (receive_loop zoneTimerRecord ctl (Z.to_nat maxResponses) 0 tt))
      as (_ & _ & ->).
    destruct (result _); discriminate.
Qed.

Lemma zoneTimerRecord_calm (u : unit) dataType data :
  True -> Utf8.ValidString (Zone data) = true ->
  True /\ (zoneTimerRecord u dataType data).2.2 = None.
Proof.
  intros _ Hv. split; [exact I|]. destruct u.
  destruct (zoneTimerRecord_cases dataType data) as [E|[(_ & Hb & _)|(_ & _ & n3 & n4 & n5 & E)]].
  - now rewrite E.
  - congruence.
  - now rewrite E.
Qed.

(** What the phase does with a stream of [maxResponses] plain records. *)
Lemma zone_timer_stops ctl :
  SendCommandWithType ctl "zone-read" "SOA" = None ->
  (forall j, Z.of_nat j < 100000 -> plain_record ctl j) ->
  let p := records_emitted zoneTimerRecord ctl (Z.to_nat 100000) 0 tt in
  emitted (collectZoneTimerInfo ctl) = p.2.1
  /\ match p.2.2 with
     | Some why => result (collectZoneTimerInfo ctl) = Panicked why
     | None =>
         result (collectZoneTimerInfo ctl) = Returned None
         /\ Z.of_nat (calls (collectZoneTimerInfo ctl)) = 100000
     end.
Proof.
  intros Hs Hp. cbv zeta. rewrite (collectZoneTimerInfo_sent ctl Hs).
  destruct (leave_at_bound_spec
              (receive_loop zoneTimerRecord ctl (Z.to_nat maxResponses) 0 tt))
    as (-> & -> & ->).
  change (Z.to_nat 100000) with (Z.to_nat maxResponses).
  assert (Hm : Z.of_nat (Z.to_nat maxResponses) = 100000) by (unfold maxResponses; lia).
  revert Hm. generalize (Z.to_nat maxResponses). intros n Hm.
  assert (Hp' : forall j, (j < n)%nat -> plain_record ctl (0 + j)).
  { intros j Hj. apply Hp. lia. }
  destruct (records_emitted zoneTimerRecord ctl n 0 tt).2.2 as [why|] eqn:Hq.
  - destruct (receive_loop_prefix_panics zoneTimerRecord ctl n n 0 tt why Hp' Hq
                ltac:(lia)) as (R1 & R2 & _).
    rewrite R1, R2. now split.
  - rewrite (receive_loop_exhausts zoneTimerRecord ctl n 0 tt Hp' Hq).
    cbn [emitted result calls]. repeat split. exact Hm.
Qed.

(** C8. The zone-timer phase makes at most 100000 receive calls and is
    never left receiving.  When the stream yields 100000 records without
    an error, BLOCK or END, the phase has sent what those records send up
    to the first that panics, if one does; it then either has panicked, or
    it has stopped after exactly those 100000 records and returns nil; and
    no record panics when every zone is valid UTF-8. *)
Theorem zone_timer_bounded (ctl : Ctl) :
  let r := collectZoneTimerInfo ctl in
  (Z.of_nat (calls r) <= 100000)
  /\ result r <> Receiving
  /\ (SendCommandWithType ctl "zone-read" "SOA" = None ->
      (forall j, Z.of_nat j < 100000 -> plain_record ctl j) ->
      let p := records_emitted zoneTimerRecord ctl (Z.to_nat 100000) 0 tt in
      emitted r = p.2.1
      /\ match p.2.2 with
         | Some why => result r = Panicked why
         | None => result r = Returned None /\ Z.of_nat (calls r) = 100000
         end
      /\ (result r = Returned None /\ Z.of_nat (calls r) = 100000
          \/ exists why, result r = Panicked why)
      /\ ((forall j dataType data,
             Z.of_nat j < 100000 -> ReceiveResponse ctl j = Recv dataType data ->
             Utf8.ValidString (Zone data) = true) ->
          result r = Returned None /\ Z.of_nat (calls r) = 100000)).
Proof.
  cbv zeta. split; [apply zone_timer_calls|].
  split; [apply zone_timer_ends|].
  intros Hs Hp. destruct (zone_timer_stops ctl Hs Hp) as [He Hr].
  split; [exact He|]. split; [exact Hr|]. split.
  { cbv zeta in Hr.
    destruct (records_emitted zoneTimerRecord ctl (Z.to_nat 100000) 0 tt).2.2 as [why|];
      [right; now exists why|now left]. }
  intros Hv.
  assert (Hq : (records_emitted zoneTimerRecord ctl (Z.to_nat 100000) 0 tt).2.2 = None).
  { apply (records_emitted_calm zoneTimerRecord ctl (fun _ => True)
             (fun data => Utf8.ValidString (Zone data) = true)).
    - intros st t d. apply zoneTimerRecord_calm.
    - intros j t d Hj. apply Hv. lia.
    - exact I. }
  cbv zeta in Hr. now rewrite Hq in Hr.
Qed.

End ZoneTimers.



Lemma zone_timer_bounded_witness :
  Z.of_nat (calls (collectZoneTimerInfo endless)) = 100000
  /\ result (collectZoneTimerInfo endless) = Returned None.
Proof.
  destruct (@zone_timer_bounded plainLib endless) as (_ & _ & Hstop).
  assert (Hplain : forall j, Z.of_nat j < 100000 -> plain_record endless j).
  { intros j _. exists CtlTypeData, no_data. split; [reflexivity|]. split; discriminate. }
  destruct (Hstop eq_refl Hplain) as (_ & _ & _ & Hclean).
  assert (Hvalid : forall j dataType data,
             Z.of_nat j < 100000 -> ReceiveResponse endless j = Recv dataType data ->
             Utf8.ValidString (Zone data) = true).
  { intros j t d _ E. injection E as _ <-. reflexivity. }
  destruct (Hclean Hvalid) as [Hres Hcalls].
  split; [exact Hcalls | exact Hres].
Defined.

(** *** Transport errors *)

(** A transport error after [n] plain records: the loop returns it,
    unless one of the records panicked. *)
Lemma receive_loop_fails_at {St : Type}
    (body : St -> CtlType -> CtlData -> St * Sent) ctl n budget st err :
  (forall j, (j < n)%nat -> plain_record ctl j) ->
  ReceiveResponse ctl n = RecvError err -> (n < budget)%nat ->
  let r := receive_loop body ctl budget 0 st in
  let p := records_emitted body ctl n 0 st in
  emitted r = p.2.1
  /\ result r = match p.2.2 with
                | Some why => Panicked why
                | None => Returned (Some err)
                end
  /\ (calls r <= S n)%nat.
Proof.
  intros Hp He Hn. cbv zeta.
  destruct (records_emitted body ctl n 0 st).2.2 as [why|] eqn:Hq.
  - destruct (receive_loop_prefix_panics body ctl n budget 0 st why Hp Hq ltac:(lia))
      as (R1 & R2 & R3).
    rewrite R1, R2. repeat split. lia.
  - replace budget with (n + S (budget - n - 1))%nat by lia.
    rewrite receive_loop_prefix by assumption.
    cbn [Nat.add]. rewrite (receive_loop_error _ _ _ _ _ _ He).
    cbn [result emitted calls]. rewrite app_nil_r. repeat split. lia.
Qed.

(** *** The descriptor registry *)

Lemma filter_key_absent {V : Type} (l : list (string * V)) k :
  k ∉ l.*1 -> List.filter (fun kv => String.eqb kv.1 k) l = [].
Proof.
  induction l as [|[k' v'] l IH]; intros Hk; simpl; [reflexivity|].
  rewrite fmap_cons, not_elem_of_cons in Hk. destruct Hk as [Hne Hk]. simpl in Hne.
  destruct (String.eqb_spec k' k) as [->|_]; [contradiction|]. now apply IH.
Qed.

Lemma filter_key_unique {V : Type} (l : list (string * V)) k v :
  NoDup (l.*1) -> (k, v) ∈ l -> List.filter (fun kv => String.eqb kv.1 k) l = [(k, v)].
Proof.
  induction l as [|[k' v'] l IH]; intros Hnd Hin.
  - now apply elem_of_nil in Hin.
  - rewrite fmap_cons, NoDup_cons in Hnd. destruct Hnd as [Hk' Hnd]. simpl in Hk'.
    apply elem_of_cons in Hin. destruct Hin as [E|Hin].
    + injection E as <- <-. simpl. rewrite String.eqb_refl.
      now rewrite filter_key_absent.
    + simpl. destruct (String.eqb_spec k' k) as [->|_].
      * exfalso. apply Hk'. now apply (list_elem_of_fmap_2 fst l (k, v)).
      * now apply IH.
Qed.

Lemma entries_present (m : gmap string DescPair) item d :
  m !! item = Some d -> entries m item = 1%nat.
Proof.
  intros Hm. unfold entries.
  rewrite (filter_key_unique (map_to_list m) item d); [reflexivity| |].
  - apply NoDup_fst_map_to_list.
  - now apply elem_of_map_to_list.
Qed.

Section Registry.
Context `{GoLib}.

Lemma getGlobalStatsDescriptor_hit item reg d :
  globalStatsDescriptors reg !! item = Some d ->
  getGlobalStatsDescriptor item reg = (d, reg).
Proof. intros E. unfold getGlobalStatsDescriptor. now rewrite E. Qed.

Lemma getGlobalStatsDescriptor_miss item reg :
  globalStatsDescriptors reg !! item = None ->
  getGlobalStatsDescriptor item reg
  = let d := makeDescPair (next_addr reg)
               ("knot_stats_" +:+ Utils.SanitizeMetricName item)
               ("Global statistic: " +:+ item) ["module"; "type"] in
    (d, {| globalStatsDescriptors := <[item := d]> (globalStatsDescriptors reg);
           zoneStatsDescriptors := zoneStatsDescriptors reg;
           next_addr := S (S (next_addr reg)) |}).
Proof. intros E. unfold getGlobalStatsDescriptor. now rewrite E. Qed.

Lemma getZoneStatsDescriptor_hit item reg d :
  zoneStatsDescriptors reg !! item = Some d ->
  getZoneStatsDescriptor item reg = (d, reg).
Proof. intros E. unfold getZoneStatsDescriptor. now rewrite E. Qed.

Lemma getZoneStatsDescriptor_miss item reg :
  zoneStatsDescriptors reg !! item = None ->
  getZoneStatsDescriptor item reg
  = let d := makeDescPair (next_addr reg)
               ("knot_zone_stats_" +:+ Utils.SanitizeMetricName item)
               ("Zone statistic: " +:+ item) ["zone"; "module"; "type"] in
    (d, {| globalStatsDescriptors := globalStatsDescriptors reg;
           zoneStatsDescriptors := <[item := d]> (zoneStatsDescriptors reg);
           next_addr := S (S (next_addr reg)) |}).
Proof. intros E. unfold getZoneStatsDescriptor. now rewrite E. Qed.

Lemma global_entry_ok_mono next next' item d :
  (next <= next')%nat -> global_entry_ok next item d -> global_entry_ok next' item d.
Proof. intros Hle (a & E & H1 & H2). exists a. repeat split; [assumption|assumption|lia]. Qed.

Lemma zone_entry_ok_mono next next' item d :
  (next <= next')%nat -> zone_entry_ok next item d -> zone_entry_ok next' item d.
Proof. intros Hle (a & E & H1 & H2). exists a. repeat split; [assumption|assumption|lia]. Qed.

Lemma registry_ok_initial : registry_ok initial_registry.
Proof.
  repeat split; try (intros item d Hl; cbn in Hl; now rewrite lookup_empty in Hl).
  cbn. lia.
Qed.

Lemma registry_ok_global item reg :
  registry_ok reg ->
  registry_ok (getGlobalStatsDescriptor item reg).2
  /\ global_entry_ok (next_addr (getGlobalStatsDescriptor item reg).2) item
       (getGlobalStatsDescriptor item reg).1.
Proof.
  intros (Hg & Hz & Hn).
  destruct (globalStatsDescriptors reg !! item) as [d|] eqn:E.
  - rewrite (getGlobalStatsDescriptor_hit _ _ _ E). cbn [fst snd].
    repeat split; auto.
  - rewrite (getGlobalStatsDescriptor_miss _ _ E). cbv zeta. cbn [fst snd].
    assert (New : global_entry_ok (S (S (next_addr reg))) item
                    (makeDescPair (next_addr reg)
                       ("knot_stats_" +:+ Utils.SanitizeMetricName item)
                       ("Global statistic: " +:+ item) ["module"; "type"])).
    { exists (next_addr reg). repeat split; [assumption|lia]. }
    repeat split.
    + intros item' d' Hl. cbn [globalStatsDescriptors next_addr] in *.
      destruct (decide (item = item')) as [<-|Hne].
      * rewrite lookup_insert_eq in Hl. injection Hl as <-. exact New.
      * rewrite lookup_insert_ne in Hl by assumption.
        eapply global_entry_ok_mono; [|eauto]. lia.
    + intros item' d' Hl. cbn [zoneStatsDescriptors next_addr] in *.
      eapply zone_entry_ok_mono; [|eauto]. lia.
    + cbn [next_addr]. lia.
    + exact New.
Qed.

Lemma registry_ok_zone item reg :
  registry_ok reg ->
  registry_ok (getZoneStatsDescriptor item reg).2
  /\ zone_entry_ok (next_addr (getZoneStatsDescriptor item reg).2) item
       (getZoneStatsDescriptor item reg).1.
Proof.
  intros (Hg & Hz & Hn).
  destruct (zoneStatsDescriptors reg !! item) as [d|] eqn:E.
  - rewrite (getZoneStatsDescriptor_hit _ _ _ E). cbn [fst snd].
    repeat split; auto.
  - rewrite (getZoneStatsDescriptor_miss _ _ E). cbv zeta. cbn [fst snd].
    assert (New : zone_entry_ok (S (S (next_addr reg))) item
                    (makeDescPair (next_addr reg)
                       ("knot_zone_stats_" +:+ Utils.SanitizeMetricName item)
                       ("Zone statistic: " +:+ item) ["zone"; "module"; "type"])).
    { exists (next_addr reg). repeat split; [assumption|lia]. }
    repeat split.
    + intros item' d' Hl. cbn [globalStatsDescriptors next_addr] in *.
      eapply global_entry_ok_mono; [|eauto]. lia.
    + intros item' d' Hl. cbn [zoneStatsDescriptors next_addr] in *.
      destruct (decide (item = item')) as [<-|Hne].
      * rewrite lookup_insert_eq in Hl. injection Hl as <-. exact New.
      * rewrite lookup_insert_ne in Hl by assumption.
        eapply zone_entry_ok_mono; [|eauto]. lia.
    + cbn [next_addr]. lia.
    + exact New.
Qed.

Lemma reachable_ok reg : reachable reg -> registry_ok reg.
Proof.
  induction 1 as [|item reg _ Hok|item reg _ Hok].
  - apply registry_ok_initial.
  - now destruct (registry_ok_global item reg Hok).
  - now destruct (registry_ok_zone item reg Hok).
Qed.

Lemma getGlobalStatsDescriptor_stored item reg :
  globalStatsDescriptors (getGlobalStatsDescriptor item reg).2 !! item
  = Some (getGlobalStatsDescriptor item reg).1.
Proof.
  destruct (globalStatsDescriptors reg !! item) as [d|] eqn:E.
  - now rewrite (getGlobalStatsDescriptor_hit _ _ _ E).
  - rewrite (getGlobalStatsDescriptor_miss _ _ E). cbn. apply lookup_insert_eq.
Qed.

Lemma getZoneStatsDescriptor_stored item reg :
  zoneStatsDescriptors (getZoneStatsDescriptor item reg).2 !! item
  = Some (getZoneStatsDescriptor item reg).1.
Proof.
  destruct (zoneStatsDescriptors reg !! item) as [d|] eqn:E.
  - now rewrite (getZoneStatsDescriptor_hit _ _ _ E).
  - rewrite (getZoneStatsDescriptor_miss _ _ E). cbn. apply lookup_insert_eq.
Qed.

(** Entries, once made, stay as they are under later gets of any name in
    either registry. *)
Lemma getGlobalStatsDescriptor_keeps item reg :
  (forall other d, globalStatsDescriptors reg !! other = Some d ->
     globalStatsDescriptors (getGlobalStatsDescriptor item reg).2 !! other = Some d)
  /\ zoneStatsDescriptors (getGlobalStatsDescriptor item reg).2
     = zoneStatsDescriptors reg.
Proof.
  destruct (globalStatsDescriptors reg !! item) as [d|] eqn:E.
  - now rewrite (getGlobalStatsDescriptor_hit _ _ _ E).
  - rewrite (getGlobalStatsDescriptor_miss _ _ E). cbn. split; [|reflexivity].
    intros other d Hl. rewrite lookup_insert_ne; [assumption|congruence].
Qed.

Lemma getZoneStatsDescriptor_keeps item reg :
  (forall other d, zoneStatsDescriptors reg !! other = Some d ->
     zoneStatsDescriptors (getZoneStatsDescriptor item reg).2 !! other = Some d)
  /\ globalStatsDescriptors (getZoneStatsDescriptor item reg).2
     = globalStatsDescriptors reg.
Proof.
  destruct (zoneStatsDescriptors reg !! item) as [d|] eqn:E.
  - now rewrite (getZoneStatsDescriptor_hit _ _ _ E).
  - rewrite (getZoneStatsDescriptor_miss _ _ E). cbn. split; [|reflexivity].
    intros other d Hl. rewrite lookup_insert_ne; [assumption|congruence].
Qed.

(** C5. In a registry the process can be in, getting the same raw name
    twice, in the global or in the per-zone registry, returns the
    identical descriptor pair (same allocation) both times; the second get
    leaves the registry as the first left it; the map then holds exactly
    one entry for the name, that pair; the pair's metric name is the
    registry's prefix, an underscore and the sanitized raw name (with
    [_total] appended for the counter); and entries made earlier are
    untouched. *)
Theorem descriptor_registry (reg : Registry) (item : string) :
  reachable reg ->
  (let g1 := getGlobalStatsDescriptor item reg in
   let g2 := getGlobalStatsDescriptor item g1.2 in
   g2.1 = g1.1 /\ g2.2 = g1.2
   /\ globalStatsDescriptors g1.2 !! item = Some g1.1
   /\ entries (globalStatsDescriptors g1.2) item = 1%nat
   /\ fqName g1.1.1 = "knot_stats_" +:+ Utils.SanitizeMetricName item
   /\ fqName g1.1.2 = ("knot_stats_" +:+ Utils.SanitizeMetricName item) +:+ "_total"
   /\ variableLabels g1.1.1 = ["module"; "type"]
   /\ variableLabels g1.1.2 = ["module"; "type"]
   /\ (forall other d, globalStatsDescriptors reg !! other = Some d ->
                       globalStatsDescriptors g1.2 !! other = Some d))
  /\ (let z1 := getZoneStatsDescriptor item reg in
      let z2 := getZoneStatsDescriptor item z1.2 in
      z2.1 = z1.1 /\ z2.2 = z1.2
      /\ zoneStatsDescriptors z1.2 !! item = Some z1.1
      /\ entries (zoneStatsDescriptors z1.2) item = 1%nat
      /\ fqName z1.1.1 = "knot_zone_stats_" +:+ Utils.SanitizeMetricName item
      /\ fqName z1.1.2
         = ("knot_zone_stats_" +:+ Utils.SanitizeMetricName item) +:+ "_total"
      /\ variableLabels z1.1.1 = ["zone"; "module"; "type"]
      /\ variableLabels z1.1.2 = ["zone"; "module"; "type"]
      /\ (forall other d, zoneStatsDescriptors reg !! other = Some d ->
                          zoneStatsDescriptors z1.2 !! other = Some d)).
Proof.
  intros Hr. apply reachable_ok in Hr. split; cbv zeta.
  - pose proof (getGlobalStatsDescriptor_stored item reg) as Hs.
    destruct (registry_ok_global item reg Hr) as [_ (a & E & _)].
    rewrite (getGlobalStatsDescriptor_hit _ _ _ Hs).
    repeat split; try assumption.
    + now apply entries_present with (d := (getGlobalStatsDescriptor item reg).1).
    + now rewrite E.
    + now rewrite E.
    + now rewrite E.
    + now rewrite E.
    + apply getGlobalStatsDescriptor_keeps.
  - pose proof (getZoneStatsDescriptor_stored item reg) as Hs.
    destruct (registry_ok_zone item reg Hr) as [_ (a & E & _)].
    rewrite (getZoneStatsDescriptor_hit _ _ _ Hs).
    repeat split; try assumption.
    + now apply entries_present with (d := (getZoneStatsDescriptor item reg).1).
    + now rewrite E.
    + now rewrite E.
    + now rewrite E.
    + now rewrite E.
    + apply getZoneStatsDescriptor_keeps.
Qed.

End Registry.

Lemma descriptor_registry_witness :
  (getGlobalStatsDescriptor "a.b" (getGlobalStatsDescriptor "a.b" initial_registry).2).1
  = (getGlobalStatsDescriptor "a.b" initial_registry).1
  /\ entries (globalStatsDescriptors (getGlobalStatsDescriptor "a.b" initial_registry).2)
       "a.b" = 1%nat
  /\ fqName (getGlobalStatsDescriptor "a.b" initial_registry).1.1 = "knot_stats_a_b"
  /\ fqName (getZoneStatsDescriptor "a.b" initial_registry).1.2
     = "knot_zone_stats_a_b_total".
Proof.
  destruct (@descriptor_registry plainLib initial_registry "a.b" reachable_initial)
    as [(G1 & _ & _ & G4 & G5 & _) (_ & _ & _ & _ & _ & Z6 & _)].
  split; [exact G1 | split; [exact G4 | split; [exact G5 | exact Z6]]].
Defined.

(** *** What the records of a phase send *)

Lemma receive_loop_invariant {St : Type}
    (body : St -> CtlType -> CtlData -> St * Sent)
    (Inv : St -> Prop) (P : Metric -> Prop) ctl :
  (forall st dataType data,
      Inv st -> Inv (body st dataType data).1 /\ Forall P (body st dataType data).2.1) ->
  forall budget i st, Inv st ->
    Forall P (emitted (receive_loop body ctl budget i st))
    /\ Inv (final (receive_loop body ctl budget i st)).
Proof.
  intros Hb. induction budget as [|b IH]; intros i st Hi; simpl; [now split|].
  destruct (ReceiveResponse ctl i) as [e|t d]; simpl; [now split|].
  destruct (is_end t); simpl; [now split|].
  destruct (Hb st t d Hi) as [Hi' Hms]. destruct (body st t d) as [st' [ms [why|]]].
  - simpl in *. now split.
  - simpl in *. destruct (IH (S i) st' Hi') as [Hf Hfin].
    split; [now apply Forall_app|assumption].
Qed.

(** The reason of a panic of the loop is one that its body can have. *)
Lemma receive_loop_reason {St : Type}
    (body : St -> CtlType -> CtlData -> St * Sent)
    (Inv : St -> Prop) (R : refusal -> Prop) ctl :
  (forall st dataType data,
      Inv st ->
      Inv (body st dataType data).1
      /\ forall why, (body st dataType data).2.2 = Some why -> R why) ->
  forall budget i st why, Inv st ->
    result (receive_loop body ctl budget i st) = Panicked why -> R why.
Proof.
  intros Hb. induction budget as [|b IH]; intros i st why Hi; simpl; [discriminate|].
  destruct (ReceiveResponse ctl i) as [e|t d]; simpl; [discriminate|].
  destruct (is_end t); simpl; [discriminate|].
  destruct (Hb st t d Hi) as [Hi' Hq]. destruct (body st t d) as [st' [ms [why'|]]].
  - simpl in *. intros E. injection E as <-. now apply Hq.
  - simpl in *. now apply IH.
Qed.

Section Records.
Context `{GoLib}.

Lemma name_char_sanitized c :
  (name_char c || Ascii.eqb c "-" || Ascii.eqb c " " || Ascii.eqb c "."
   || Ascii.eqb c "/" || Ascii.eqb c "+")%char = true ->
  name_char (Utils.sep_byte (Strings.lower_byte c)) = true
  /\ (byte_val c <? 128) = true.
Proof.
  destruct c as [[] [] [] [] [] [] [] []]; intros Hc; try discriminate Hc;
    split; reflexivity.
Qed.

Lemma plain_item_sanitized item :
  plain_item item = true ->
  str_all name_char (Utils.SanitizeMetricName item) = true.
Proof.
  intros Hp.
  assert (Ha : Strings.isASCII item = true).
  { unfold Strings.isASCII, plain_item in *.
    induction item as [|c item IH]; [reflexivity|]. cbn [str_all] in *.
    apply andb_true_iff in Hp as [Hc Hp].
    rewrite (proj2 (name_char_sanitized c Hc)). now apply IH. }
  rewrite StringsFacts.sanitize_bytes. unfold Strings.ToLower. rewrite Ha.
  rewrite StringsFacts.str_map_compose. clear Ha. unfold plain_item in Hp.
  induction item as [|c item IH]; [reflexivity|]. cbn [str_all str_map] in *.
  apply andb_true_iff in Hp as [Hc Hp].
  rewrite (proj1 (name_char_sanitized c Hc)). now apply IH.
Qed.

Lemma plain_metric_name_app p s :
  plain_metric_name p = true -> str_all name_char s = true ->
  plain_metric_name (p +:+ s) = true.
Proof.
  destruct p as [|c p]; [discriminate|]. unfold plain_metric_name.
  rewrite StringFacts.append_cons, <- StringFacts.append_cons.
  rewrite StringFacts.str_all_append. intros Hp Hs.
  apply andb_true_iff in Hp as [-> ->]. now rewrite Hs.
Qed.

(** The pair that a registry makes for a plain statistic name is one that
    [NewDesc] accepts. *)
Lemma dynamic_desc_ok a prefix text item labels :
  plain_metric_name prefix = true -> str_nonempty text = true ->
  forallb plain_label_name labels = true -> NoDup labels ->
  plain_item item = true ->
  let d := makeDescPair a (prefix +:+ Utils.SanitizeMetricName item) (text +:+ item)
             labels in
  desc_err d.1 = false /\ desc_err d.2 = false.
Proof.
  intros Hp Hh Hl Hn Hi. cbv zeta. unfold desc_err, makeDescPair, NewDesc_err.
  cbn [fst snd fqName help variableLabels].
  assert (Hname : plain_metric_name (prefix +:+ Utils.SanitizeMetricName item) = true).
  { apply plain_metric_name_app; [assumption|now apply plain_item_sanitized]. }
  assert (Hhelp : str_nonempty (text +:+ item) = true).
  { destruct text; [discriminate|reflexivity]. }
  rewrite Hl, Hhelp, (bool_decide_eq_true_2 _ Hn), Hname.
  rewrite (plain_metric_name_app _ "_total" Hname eq_refl). now split.
Qed.

Lemma global_entry_accepted next item d :
  global_entry_ok next item d -> plain_item item = true ->
  desc_err d.1 = false /\ desc_err d.2 = false
  /\ variableLabels d.1 = ["module"; "type"] /\ variableLabels d.2 = ["module"; "type"].
Proof.
  intros (a & -> & _) Hi.
  destruct (dynamic_desc_ok a "knot_stats_" "Global statistic: " item ["module"; "type"]
              eq_refl eq_refl eq_refl ltac:(apply (bool_decide_unpack _); exact I) Hi)
    as [H1 H2].
  now repeat split.
Qed.

Lemma zone_entry_accepted next item d :
  zone_entry_ok next item d -> plain_item item = true ->
  desc_err d.1 = false /\ desc_err d.2 = false
  /\ variableLabels d.1 = ["zone"; "module"; "type"]
  /\ variableLabels d.2 = ["zone"; "module"; "type"].
Proof.
  intros (a & -> & _) Hi.
  destruct (dynamic_desc_ok a "knot_zone_stats_" "Zone statistic: " item
              ["zone"; "module"; "type"]
              eq_refl eq_refl eq_refl ltac:(apply (bool_decide_unpack _); exact I) Hi)
    as [H1 H2].
  now repeat split.
Qed.

Lemma clean_record_spec data :
  clean_record data = true ->
  Utf8.ValidString (Section_ data) = true /\ Utf8.ValidString (ID data) = true
  /\ Utf8.ValidString (Zone data) = true /\ plain_item (Item data) = true.
Proof.
  unfold clean_record. rewrite !andb_true_iff. tauto.
Qed.

(** **** Clean records do not panic *)

Lemma globalStatsRecord_calm reg dataType data :
  registry_ok reg -> clean_record data = true ->
  registry_ok (globalStatsRecord reg dataType data).1
  /\ (globalStatsRecord reg dataType data).2.2 = None.
Proof.
  intros Hok Hc. apply clean_record_spec in Hc as (Hs & Hid & _ & Hi).
  unfold globalStatsRecord.
  destruct (_ && _); [|now split].
  destruct (Strconv.ParseFloat (Data data)) as [v|]; [|now split].
  destruct (registry_ok_global (Item data) reg Hok) as [Hok' He].
  destruct (global_entry_accepted _ _ _ He Hi) as (D1 & D2 & L1 & L2).
  destruct (getGlobalStatsDescriptor (Item data) reg) as [d reg']. cbn [fst snd] in *.
  split; [assumption|].
  rewrite sendMetrics_sends; try assumption; try (now rewrite ?L1, ?L2).
  cbn. now rewrite Hs, Hid.
Qed.

Lemma zoneStatsRecord_calm reg dataType data :
  registry_ok reg -> clean_record data = true ->
  registry_ok (zoneStatsRecord reg dataType data).1
  /\ (zoneStatsRecord reg dataType data).2.2 = None.
Proof.
  intros Hok Hc. apply clean_record_spec in Hc as (Hs & Hid & Hz & Hi).
  unfold zoneStatsRecord.
  destruct (_ && _); [|now split].
  destruct (Strconv.ParseFloat (Data data)) as [v|]; [|now split].
  destruct (registry_ok_zone (Item data) reg Hok) as [Hok' He].
  destruct (zone_entry_accepted _ _ _ He Hi) as (D1 & D2 & L1 & L2).
  destruct (getZoneStatsDescriptor (Item data) reg) as [d reg']. cbn [fst snd] in *.
  split; [assumption|].
  rewrite sendMetrics_sends; try assumption; try (now rewrite ?L1, ?L2).
  cbn. now rewrite Hz, Hs, Hid.
Qed.

Lemma zoneStatusRecord_calm c cur dataType data :
  Utf8.ValidString (currentZone cur) = true -> clean_record data = true ->
  Utf8.ValidString (currentZone (zoneStatusRecord c cur dataType data).1) = true
  /\ (zoneStatusRecord c cur dataType data).2.2 = None.
Proof.
  intros Hv Hc. apply clean_record_spec in Hc as (_ & _ & Hz & _).
  unfold zoneStatusRecord.
  destruct (_ || _); [|now split].
  destruct (_ && _); [now split|].
  destruct (_ && _); [|now split]. cbn [fst snd currentZone].
  split; [assumption|].
  repeat match goal with
         | |- context [if ?b then _ else _] => destruct b
         | |- context [match ?o with Some _ => _ | None => _ end] => destruct o
         end;
    rewrite ?sendMetrics_one by reflexivity; rewrite ?Hv; reflexivity.
Qed.

(** **** No record sends a build-info observation *)

Lemma sendMetrics_not_build_info (d : DescPair) v labels :
  String.eqb (fqName d.1) "knot_build_info" = false ->
  String.eqb (fqName d.2) "knot_build_info" = false ->
  Forall not_build_info (sendMetrics d v labels).1.
Proof. intros H1 H2. apply sendMetrics_Forall; intros; assumption. Qed.

Lemma globalStatsRecord_quiet reg dataType data :
  registry_ok reg ->
  registry_ok (globalStatsRecord reg dataType data).1
  /\ Forall not_build_info (globalStatsRecord reg dataType data).2.1.
Proof.
  intros Hok. unfold globalStatsRecord.
  destruct (_ && _); [|now split].
  destruct (Strconv.ParseFloat (Data data)) as [v|]; [|now split].
  destruct (registry_ok_global (Item data) reg Hok) as [Hok' (a & E & _)].
  destruct (getGlobalStatsDescriptor (Item data) reg) as [d reg']. cbn [fst snd] in *.
  split; [assumption|]. subst d. now apply sendMetrics_not_build_info.
Qed.

Lemma zoneStatsRecord_quiet reg dataType data :
  registry_ok reg ->
  registry_ok (zoneStatsRecord reg dataType data).1
  /\ Forall not_build_info (zoneStatsRecord reg dataType data).2.1.
Proof.
  intros Hok. unfold zoneStatsRecord.
  destruct (_ && _); [|now split].
  destruct (Strconv.ParseFloat (Data data)) as [v|]; [|now split].
  destruct (registry_ok_zone (Item data) reg Hok) as [Hok' (a & E & _)].
  destruct (getZoneStatsDescriptor (Item data) reg) as [d reg']. cbn [fst snd] in *.
  split; [assumption|]. subst d. now apply sendMetrics_not_build_info.
Qed.




Lemma memoryMetrics_calm w :
  Forall (fun p => Utf8.ValidString p.1 = true) (memUsage w) ->
  (memoryMetrics w).2 = None.
Proof.
  unfold memoryMetrics.
  induction 1 as [|[pid usage] l Hv _ IH]; cbn [foldr]; [reflexivity|].
  cbn [fst] in Hv. rewrite sendMetrics_one by reflexivity. rewrite Hv.
  rewrite andThen_sent. exact IH.
Qed.

Lemma collectGlobalStats_quiet ctl budget reg :
  registry_ok reg ->
  Forall not_build_info (emitted (collectGlobalStats ctl budget reg))
  /\ registry_ok (final (collectGlobalStats ctl budget reg)).
Proof.
  intros Hok. unfold collectGlobalStats.
  destruct (SendCommand ctl "stats"); [now split|].
  apply (receive_loop_invariant globalStatsRecord registry_ok not_build_info);
    [|assumption].
  intros. now apply globalStatsRecord_quiet.
Qed.

Lemma collectZoneStatistics_quiet ctl budget reg :
  registry_ok reg ->
  Forall not_build_info (emitted (collectZoneStatistics ctl budget reg))
  /\ registry_ok (final (collectZoneStatistics ctl budget reg)).
Proof.
  intros Hok. unfold collectZoneStatistics.
  destruct (SendCommand ctl "zone-stats"); [now split|].
  apply (receive_loop_invariant zoneStatsRecord registry_ok not_build_info);
    [|assumption].
  intros. now apply zoneStatsRecord_quiet.
Qed.



(** **** Phases on clean streams do not panic *)

Lemma collectGlobalStats_calm ctl budget reg :
  registry_ok reg -> clean_stream ctl ->
  registry_ok (final (collectGlobalStats ctl budget reg))
  /\ forall why, result (collectGlobalStats ctl budget reg) <> Panicked why.
Proof.
  intros Hok Hc. unfold collectGlobalStats.
  destruct (SendCommand ctl "stats"); [split; [assumption|discriminate]|].
  apply (receive_loop_calm globalStatsRecord ctl registry_ok
           (fun data => clean_record data = true)); try assumption.
  intros. now apply globalStatsRecord_calm.
Qed.

Lemma collectZoneStatistics_calm ctl budget reg :
  registry_ok reg -> clean_stream ctl ->
  registry_ok (final (collectZoneStatistics ctl budget reg))
  /\ forall why, result (collectZoneStatistics ctl budget reg) <> Panicked why.
Proof.
  intros Hok Hc. unfold collectZoneStatistics.
  destruct (SendCommand ctl "zone-stats"); [split; [assumption|discriminate]|].
  apply (receive_loop_calm zoneStatsRecord ctl registry_ok
           (fun data => clean_record data = true)); try assumption.
  intros. now apply zoneStatsRecord_calm.
Qed.

Lemma collectZoneStatusInfo_calm c ctl budget :
  clean_stream ctl ->
  forall why, result (collectZoneStatusInfo c ctl budget) <> Panicked why.
Proof.
  intros Hc. unfold collectZoneStatusInfo.
  destruct (SendCommand ctl "zone-status"); [discriminate|].
  apply (receive_loop_calm (zoneStatusRecord c) ctl
           (fun cur => Utf8.ValidString (currentZone cur) = true)
           (fun data => clean_record data = true)); try assumption; [|reflexivity].
  intros. now apply zoneStatusRecord_calm.
Qed.

Lemma collectZoneTimerInfo_calm ctl :
  clean_stream ctl ->
  forall why, result (collectZoneTimerInfo ctl) <> Panicked why.
Proof.
  intros Hc why. unfold collectZoneTimerInfo.
  destruct (SendCommandWithType ctl "zone-read" "SOA"); [discriminate|].
  destruct (leave_at_bound_spec
              (receive_loop zoneTimerRecord ctl (Z.to_nat maxResponses) 0 tt))
    as (_ & _ & ->).
  destruct (receive_loop_calm zoneTimerRecord ctl (fun _ => True)
              (fun data => Utf8.ValidString (Zone data) = true)
              ltac:(intros st t d; apply zoneTimerRecord_calm)
              ltac:(intros j t d E; apply (clean_record_spec d (Hc j t d E)))
              (Z.to_nat maxResponses) 0%nat tt I) as [_ Hq].
  specialize (Hq why). destruct (result _); congruence.
Qed.

End Records.

(** *** Transport errors *)

Section TransportErrors.
Context `{GoLib} (c : KnotCollector) (ctl : Ctl) (err : error).

(** C6 (send, as the code has it). A transport error from the send step
    makes the phase return at once with no observation.  The
    global-statistics, zone-status and zone-statistics phases return that
    very error; the zone-timer phase returns a new error whose text is
    "zone-read SOA command failed: " followed by the text of the
    transport error.
    C6 (receive, as the code has it). A transport error on a receive
    call, reached after [n] records that are neither BLOCK nor END, ends
    every phase with what those records sent kept: the phase returns that
    error, unless one of the records made [MustNewConstMetric] panic; it
    does return the error when the records carry sections, ids and zones
    that are valid UTF-8 and plain statistic names. *)
Theorem transport_error_ends_phase (budget : nat) (reg : Registry) :
  (SendCommand ctl "stats" = Some err ->
     let r := collectGlobalStats ctl budget reg in
     result r = Returned (Some err) /\ emitted r = [])
  /\ (SendCommand ctl "zone-status" = Some err ->
     let r := collectZoneStatusInfo c ctl budget in
     result r = Returned (Some err) /\ emitted r = [])
  /\ (SendCommand ctl "zone-stats" = Some err ->
     let r := collectZoneStatistics ctl budget reg in
     result r = Returned (Some err) /\ emitted r = [])
  /\ (SendCommandWithType ctl "zone-read" "SOA" = Some err ->
     let r := collectZoneTimerInfo ctl in
     result r = Returned (Some (Errorf ("zone-read SOA command failed: " +:+ Error err)))
     /\ emitted r = [])
  /\ (forall n,
       (forall j, (j < n)%nat -> plain_record ctl j) ->
       ReceiveResponse ctl n = RecvError err ->
       (SendCommand ctl "stats" = None -> (n < budget)%nat ->
          let r := collectGlobalStats ctl budget reg in
          emitted r = (records_emitted globalStatsRecord ctl n 0 reg).2.1
          /\ (result r = Returned (Some err) \/ exists why, result r = Panicked why)
          /\ (reachable reg -> clean_upto ctl n -> result r = Returned (Some err)))
       /\ (SendCommand ctl "zone-status" = None -> (n < budget)%nat ->
          let r := collectZoneStatusInfo c ctl budget in
          emitted r
          = (records_emitted (zoneStatusRecord c) ctl n 0
               {| currentZone := ""; responseIndex := 0 |}).2.1
          /\ (result r = Returned (Some err) \/ exists why, result r = Panicked why)
          /\ (clean_upto ctl n -> result r = Returned (Some err)))
       /\ (SendCommand ctl "zone-stats" = None -> (n < budget)%nat ->
          let r := collectZoneStatistics ctl budget reg in
          emitted r = (records_emitted zoneStatsRecord ctl n 0 reg).2.1
          /\ (result r = Returned (Some err) \/ exists why, result r = Panicked why)
          /\ (reachable reg -> clean_upto ctl n -> result r = Returned (Some err)))
       /\ (SendCommandWithType ctl "zone-read" "SOA" = None -> Z.of_nat n < 100000 ->
          let r := collectZoneTimerInfo ctl in
          emitted r = (records_emitted zoneTimerRecord ctl n 0 tt).2.1
          /\ (result r = Returned (Some err) \/ exists why, result r = Panicked why)
          /\ (clean_upto ctl n -> result r = Returned (Some err)))).
Proof.
  assert (Hcases : forall {St : Type} (body : St -> CtlType -> CtlData -> St * Sent)
                     n b st,
             (forall j, (j < n)%nat -> plain_record ctl j) ->
             ReceiveResponse ctl n = RecvError err -> (n < b)%nat ->
             let r := receive_loop body ctl b 0 st in
             emitted r = (records_emitted body ctl n 0 st).2.1
             /\ (result r = Returned (Some err) \/ exists why, result r = Panicked why)
             /\ ((records_emitted body ctl n 0 st).2.2 = None ->
                 result r = Returned (Some err))).
  { intros St body n b st Hp He Hn.
    destruct (receive_loop_fails_at body ctl n b st err Hp He Hn) as (E1 & E2 & _).
    cbv zeta. split; [exact E1|]. rewrite E2.
    destruct (records_emitted body ctl n 0 st).2.2 as [why|]; split; eauto; discriminate. }
  assert (Hupto : forall n (ok : CtlData -> Prop),
             (forall data, clean_record data = true -> ok data) ->
             clean_upto ctl n ->
             forall j dataType data, (0 <= j < 0 + n)%nat ->
               ReceiveResponse ctl j = Recv dataType data -> ok data).
  { intros n ok Hok Hc j t d Hj E. apply Hok. apply (Hc j t d); [lia|exact E]. }
  repeat match goal with |- _ /\ _ => split end.
  - intros E. unfold collectGlobalStats. now rewrite E.
  - intros E. unfold collectZoneStatusInfo. now rewrite E.
  - intros E. unfold collectZoneStatistics. now rewrite E.
  - intros E. unfold collectZoneTimerInfo. now rewrite E.
  - intros n Hp He. split; [|split; [|split]].
    + intros E Hn. unfold collectGlobalStats. rewrite E. cbv zeta.
      destruct (Hcases _ globalStatsRecord n budget reg Hp He Hn) as (E1 & E2 & E3).
      split; [exact E1|]. split; [exact E2|]. intros Hr Hc. apply E3.
      apply (records_emitted_calm globalStatsRecord ctl registry_ok
               (fun data => clean_record data = true)).
      * intros. now apply globalStatsRecord_calm.
      * now apply Hupto.
      * now apply reachable_ok.
    + intros E Hn. unfold collectZoneStatusInfo. rewrite E. cbv zeta.
      destruct (Hcases _ (zoneStatusRecord c) n budget
                  {| currentZone := ""; responseIndex := 0 |} Hp He Hn)
        as (E1 & E2 & E3).
      split; [exact E1|]. split; [exact E2|]. intros Hc. apply E3.
      apply (records_emitted_calm (zoneStatusRecord c) ctl
               (fun cur => Utf8.ValidString (currentZone cur) = true)
               (fun data => clean_record data = true)).
      * intros. now apply zoneStatusRecord_calm.
      * now apply Hupto.
      * reflexivity.
    + intros E Hn. unfold collectZoneStatistics. rewrite E. cbv zeta.
      destruct (Hcases _ zoneStatsRecord n budget reg Hp He Hn) as (E1 & E2 & E3).
      split; [exact E1|]. split; [exact E2|]. intros Hr Hc. apply E3.
      apply (records_emitted_calm zoneStatsRecord ctl registry_ok
               (fun data => clean_record data = true)).
      * intros. now apply zoneStatsRecord_calm.
      * now apply Hupto.
      * now apply reachable_ok.
    + intros E Hn. cbv zeta. rewrite (collectZoneTimerInfo_sent ctl E).
      destruct (leave_at_bound_spec
                  (receive_loop zoneTimerRecord ctl (Z.to_nat maxResponses) 0 tt))
        as (-> & _ & ->).
      destruct (Hcases _ zoneTimerRecord n (Z.to_nat maxResponses) tt Hp He
                  ltac:(unfold maxResponses; lia)) as (E1 & E2 & E3).
      split; [exact E1|]. split.
      * destruct E2 as [-> | [why ->]]; [now left|right; now exists why].
      * intros Hc. rewrite E3; [reflexivity|].
        apply (records_emitted_calm zoneTimerRecord ctl (fun _ => True)
                 (fun data => Utf8.ValidString (Zone data) = true)).
        -- intros st t d. apply zoneTimerRecord_calm.
        -- apply Hupto; [|exact Hc]. intros d Hd. apply (clean_record_spec d Hd).
        -- exact I.
Qed.

End TransportErrors.

Lemma transport_error_ends_phase_witness :
  result (collectZoneTimerInfo broken_script) = Returned (Some broken_error)
  /\ emitted (collectZoneTimerInfo broken_script)
     = [ observation zoneRefreshDesc.1 GaugeValue 3600 ["example.com"];
         observation zoneRefreshDesc.2 CounterValue 3600 ["example.com"];
         observation zoneRetryDesc.1 GaugeValue 600 ["example.com"];
         observation zoneRetryDesc.2 CounterValue 600 ["example.com"];
         observation zoneExpirationDesc.1 GaugeValue 86400 ["example.com"];
         observation zoneExpirationDesc.2 CounterValue 86400 ["example.com"] ].
Proof.
  destruct (@transport_error_ends_phase plainLib example_collector broken_script
              broken_error 16%nat initial_registry) as (_ & _ & _ & _ & Hrecv).
  assert (Hplain : forall j, (j < 1)%nat -> plain_record broken_script j).
  { intros j Hj. assert (j = 0%nat) as -> by lia.
    exists CtlTypeData, soa_record. split; [reflexivity|]. split; discriminate. }
  assert (Hclean : clean_upto broken_script 1).
  { intros j t d Hj E. assert (j = 0%nat) as -> by lia.
    injection E as _ <-. reflexivity. }
  destruct (Hrecv 1%nat Hplain eq_refl) as (_ & _ & _ & Htimer).
  destruct (Htimer eq_refl ltac:(lia)) as (Hem & _ & Hres).
  split; [exact (Hres Hclean)|]. rewrite Hem. reflexivity.
Defined.

(** C6, as stated, fails on the zone-timer phase: the error it returns
    for a failed send is not the transport's error. *)
Lemma zone_timer_send_error_is_wrapped :
  let err := CtlError "send" "test error" in
  let ctl := scripted (Some err) [] in
  SendCommandWithType ctl "zone-read" "SOA" = Some err
  /\ result (collectZoneTimerInfo ctl)
     = Returned (Some (Errorf "zone-read SOA command failed: test error"))
  /\ result (collectZoneTimerInfo ctl) <> Returned (Some err).
Proof. repeat split. discriminate. Qed.

(** *** Collect *)

Section Collect.
Context `{GoLib}.

Lemma buildInfoMetric_valid c b :
  buildInfoMetric c b
  = if valid_build c b then Made (build_observation c b) else Panics LabelNotUTF8.
Proof.
  unfold buildInfoMetric, valid_build. destruct (forallb _ _) eqn:Hv.
  - now apply MustNewConstMetric_made.
  - now apply MustNewConstMetric_not_utf8.
Qed.

(** **** Steps of a pass that add no build-info observation *)












(** **** Steps of a pass that do not hang *)













Lemma collectGlobalStats_returns ctl budget reg k :
  (k < budget)%nat -> stops_at ctl k ->
  result (collectGlobalStats ctl budget reg) <> Receiving.
Proof.
  intros Hk Hs. unfold collectGlobalStats.
  destruct (SendCommand ctl "stats"); [discriminate|].
  now apply (receive_loop_ends _ _ budget 0 reg k).
Qed.

Lemma collectZoneStatistics_returns ctl budget reg k :
  (k < budget)%nat -> stops_at ctl k ->
  result (collectZoneStatistics ctl budget reg) <> Receiving.
Proof.
  intros Hk Hs. unfold collectZoneStatistics.
  destruct (SendCommand ctl "zone-stats"); [discriminate|].
  now apply (receive_loop_ends _ _ budget 0 reg k).
Qed.

Lemma collectZoneStatusInfo_returns c ctl budget k :
  (k < budget)%nat -> stops_at ctl k ->
  result (collectZoneStatusInfo c ctl budget) <> Receiving.
Proof.
  intros Hk Hs. unfold collectZoneStatusInfo.
  destruct (SendCommand ctl "zone-status"); [discriminate|].
  now apply (receive_loop_ends _ _ budget 0 _ k).
Qed.

(** **** Steps of a pass that do not panic *)





















End Collect.



End CollectorFacts.

(** * Further properties of the packages *)

(** ** The duration codec accepts the grammar and nothing else *)

Module DurationFacts.
Import Regexp Utils StringFacts RegexpFacts.

Lemma many_sound p : forall s caps (k : cont) m,
  many p s caps k = Some m ->
  exists w s', s = w +:+ s' /\ str_all p w = true /\ k s' caps = Some m.
Proof.
  induction s as [|a s IH]; intros caps k m Hm; cbn [many] in Hm.
  - exists "", "". now repeat split.
  - destruct (p a) eqn:Ha.
    + destruct (many p s caps k) as [m'|] eqn:E.
      * injection Hm as ->. destruct (IH _ _ _ E) as (w & s' & -> & Hw & Hk).
        exists (String a w), s'. cbn [str_all]. rewrite Ha, Hw. now repeat split.
      * exists "", (String a s). now repeat split.
    + exists "", (String a s). now repeat split.
Qed.

(** The matcher only reports what the pattern can take. *)
Lemma rmatch_sound txt : forall r s caps (k : cont) m,
  rmatch txt r s caps k = Some m ->
  exists s' caps', spans txt r s s' /\ k s' caps' = Some m.
Proof.
  induction r as [c|p|r1 IH1 r2 IH2|r1 IH1|p|n r1 IH1| |];
    intros s caps k m Hm; cbn [rmatch spans] in *.
  - destruct s as [|a s]; [discriminate|].
    destruct (Ascii.eqb_spec a c) as [->|]; [|discriminate]. now exists s, caps.
  - destruct s as [|a s]; [discriminate|].
    destruct (p a) eqn:Ha; [|discriminate]. exists s, caps. split; [|assumption].
    now exists a.
  - destruct (IH1 _ _ _ _ Hm) as (mid & caps1 & H1 & Hk).
    destruct (IH2 _ _ _ _ Hk) as (s' & caps2 & H2 & Hk').
    exists s', caps2. split; [|assumption]. now exists mid.
  - destruct (rmatch txt r1 s caps k) as [m'|] eqn:E.
    + injection Hm as ->. destruct (IH1 _ _ _ _ E) as (s' & caps' & H1 & Hk).
      exists s', caps'. split; [now left|assumption].
    + exists s, caps. split; [now right|assumption].
  - destruct s as [|a s]; [discriminate|].
    destruct (p a) eqn:Ha; [|discriminate].
    destruct (many_sound _ _ _ _ _ Hm) as (w & s' & -> & Hw & Hk).
    exists s', caps. split; [|assumption]. exists (String a w).
    cbn [str_nonempty str_all]. rewrite Ha, Hw. now repeat split.
  - destruct (IH1 _ _ _ _ Hm) as (s' & caps' & H1 & Hk).
    exists s', (<[n := consumed s s']> caps'). now split.
  - destruct (Nat.eqb_spec (String.length s) (String.length txt)); [|discriminate].
    exists s, caps. now repeat split.
  - destruct s; [|discriminate]. exists "", caps. now repeat split.
Qed.

(** The pattern is anchored at the start: only a match of the whole text
    counts. *)
Lemma duration_regex_whole txt :
  FindStringSubmatch durationRegex txt = match_at durationRegex txt txt.
Proof.
  unfold FindStringSubmatch. destruct txt as [|a t]; cbn [find_from].
  - now destruct (match_at durationRegex "" "").
  - destruct (match_at durationRegex (String a t) (String a t)); [reflexivity|].
    apply duration_anchor. cbn. lia.
Qed.

Lemma unit_group_spans txt n u s s' :
  spans txt (unit_group n u) s s' ->
  exists x, digits_ok x /\ s = unit_text x u +:+ s'.
Proof.
  unfold unit_group. cbn [spans]. intros [(mid & (w & Hne & Hw & ->) & ->)| ->].
  - exists (Some w). cbn [digits_ok unit_text]. unfold Strconv.is_decimal_digits.
    rewrite Hne, Hw. split; [reflexivity|].
    now rewrite append_assoc, append_cons, append_nil_l.
  - now exists None.
Qed.

Lemma is_sign_cases a : is_sign a = true -> a = "+"%char \/ a = "-"%char.
Proof.
  unfold is_sign. intros Ha. apply orb_prop in Ha as [Ha|Ha];
    apply Ascii.eqb_eq in Ha; auto.
Qed.

(** A text the pattern matches is a string of the grammar. *)
Lemma duration_regex_sound txt m :
  FindStringSubmatch durationRegex txt = Some m ->
  exists neg D h mi sec,
    digits_ok D /\ digits_ok h /\ digits_ok mi /\ digits_ok sec
    /\ txt = duration_text neg D h mi sec.
Proof.
  rewrite duration_regex_whole. unfold match_at. intros Hm.
  destruct (rmatch_sound _ _ _ _ _ _ Hm) as (s' & caps' & Hsp & _).
  unfold durationRegex in Hsp. cbn [spans] in Hsp.
  change (Opt (Group 2 (Cat (Group 3 (PlusClass is_digit)) (Lit "D"))))
    with (unit_group 2 "D") in Hsp.
  destruct Hsp as (s0 & [<- _] & s1 & (a & -> & Ha) & s2 & HD & s3 & Hh & s4 & Hmi
                   & s5 & Hsec & -> & ->).
  apply unit_group_spans in HD as (D & HD & ->).
  apply unit_group_spans in Hh as (h & Hh & ->).
  apply unit_group_spans in Hmi as (mi & Hmi & ->).
  apply unit_group_spans in Hsec as (sec & Hsec & ->).
  exists (Ascii.eqb a "-"), D, h, mi, sec. repeat split; try assumption.
  unfold duration_text. rewrite append_nil_r.
  destruct (is_sign_cases a Ha) as [-> | ->]; reflexivity.
Qed.

Section Codec.
Context `{GoLib}.

Lemma ParseDurationString_ok txt :
  (ParseDurationString txt).2 = true ->
  exists neg D h mi sec,
    digits_ok D /\ digits_ok h /\ digits_ok mi /\ digits_ok sec
    /\ txt = duration_text neg D h mi sec.
Proof.
  unfold ParseDurationString.
  destruct (FindStringSubmatch durationRegex txt) as [m|] eqn:E; [|discriminate].
  intros _. exact (duration_regex_sound txt m E).
Qed.

(** X1. [ParseDurationString] answers [ok = true] exactly on the strings of
    the duration grammar, and [(0, false)] on every other string. *)
Theorem duration_accepts_exactly_grammar (txt : string) :
  ((ParseDurationString txt).2 = true <->
   exists neg D h mi sec,
     digits_ok D /\ digits_ok h /\ digits_ok mi /\ digits_ok sec
     /\ txt = duration_text neg D h mi sec)
  /\ ((ParseDurationString txt).2 = false ->
      ParseDurationString txt = (F64.zero, false)).
Proof.
  split; [split|].
  - apply ParseDurationString_ok.
  - intros (neg & D & h & mi & sec & HD & Hh & Hmi & Hsec & ->).
    now apply UtilsFacts.ParseDurationString_grammar.
  - unfold ParseDurationString.
    now destruct (FindStringSubmatch durationRegex txt).
Qed.

End Codec.

End DurationFacts.

(** ** Prefixes, state times and sanitized names *)

Module UtilsMore.
Import Utf8 Strings Utils StringFacts Utf8Facts StringsFacts.

Lemma str_take_drop n : forall s, s = str_take n s +:+ str_drop n s.
Proof.
  induction n as [|n IH]; intros [|a s]; try reflexivity.
  cbn [str_take str_drop]. rewrite append_cons. now rewrite <- IH.
Qed.

Lemma has_prefix_iff p s :
  (String.length p <=? String.length s)%nat
  && String.eqb (str_take (String.length p) s) p = true
  <-> exists rest, s = p +:+ rest.
Proof.
  split.
  - intros Hp. apply andb_prop in Hp as [_ Hp]. apply String.eqb_eq in Hp.
    exists (str_drop (String.length p) s). rewrite <- Hp at 1. apply str_take_drop.
  - intros [rest ->]. rewrite length_append, str_take_append, String.eqb_refl.
    rewrite andb_true_r. apply Nat.leb_le. lia.
Qed.

Lemma IsPrefixIn_iff s ps :
  IsPrefixIn s ps = true <-> exists p rest, List.In p ps /\ s = p +:+ rest.
Proof.
  unfold IsPrefixIn. rewrite existsb_exists. split.
  - intros (p & Hin & Hp). apply has_prefix_iff in Hp as [rest ->]. now exists p, rest.
  - intros (p & rest & Hin & ->). exists p. split; [assumption|].
    apply has_prefix_iff. now exists rest.
Qed.

(** X2. [IsPrefixIn s prefixes] holds exactly when some element of [prefixes]
    is a prefix of [s]: never for the empty list, always once the list
    holds the empty string. *)
Theorem IsPrefixIn_spec (s : string) (prefixes : list string) :
  (IsPrefixIn s prefixes = true <->
   exists p rest, List.In p prefixes /\ s = p +:+ rest)
  /\ IsPrefixIn s [] = false
  /\ (List.In "" prefixes -> IsPrefixIn s prefixes = true).
Proof.
  split; [apply IsPrefixIn_iff|]. split; [reflexivity|].
  intros Hin. apply IsPrefixIn_iff. now exists "", s.
Qed.

Lemma sep_byte_not_separator c :
  sep_byte c <> "-"%char /\ sep_byte c <> " "%char /\ sep_byte c <> "."%char
  /\ sep_byte c <> "/"%char /\ sep_byte c <> "+"%char.
Proof.
  unfold sep_byte.
  destruct (Ascii.eqb_spec c "-"), (Ascii.eqb_spec c " "), (Ascii.eqb_spec c "."),
    (Ascii.eqb_spec c "/"), (Ascii.eqb_spec c "+"); cbn [orb];
    repeat split; (assumption || discriminate).
Qed.

Lemma str_map_bytes f s :
  list_ascii_of_string (str_map f s) = List.map f (list_ascii_of_string s).
Proof. induction s as [|a s IH]; [reflexivity|]. cbn. now rewrite IH. Qed.

Lemma str_map_length f s : String.length (str_map f s) = String.length s.
Proof. induction s as [|a s IH]; [reflexivity|]. cbn. now rewrite IH. Qed.

Lemma lower_byte_ascii c :
  (byte_val c <? 128) = true ->
  (byte_val (sep_byte (lower_byte c)) <? 128) = true
  /\ ~ (65 <= byte_val (sep_byte (lower_byte c)) <= 90)
  /\ sep_byte (lower_byte (sep_byte (lower_byte c))) = sep_byte (lower_byte c).
Proof.
  destruct c as [[] [] [] [] [] [] [] []]; intros Hc; try discriminate Hc;
    vm_compute; repeat split; try reflexivity; intros [H1 H2]; auto.
Qed.

Section Names.
Context `{GoLib}.

(** X3. Whatever the input, no byte of a sanitized name is a hyphen, a space,
    a dot, a slash or a plus. *)
Theorem sanitize_no_separator (name : string) :
  Forall (fun c => c <> "-" /\ c <> " " /\ c <> "." /\ c <> "/" /\ c <> "+")%char
    (list_ascii_of_string (SanitizeMetricName name)).
Proof.
  rewrite sanitize_bytes, str_map_bytes. apply Forall_forall. intros c Hc.
  apply list_elem_of_In, in_map_iff in Hc as (c0 & <- & _).
  apply sep_byte_not_separator.
Qed.

Lemma sanitize_ascii_bytes name :
  isASCII name = true ->
  SanitizeMetricName name = str_map (fun c => sep_byte (lower_byte c)) name.
Proof.
  intros Ha. rewrite sanitize_bytes. unfold ToLower. rewrite Ha.
  apply str_map_compose.
Qed.

Lemma sanitize_ascii_stays name :
  isASCII name = true ->
  isASCII (str_map (fun c => sep_byte (lower_byte c)) name) = true
  /\ Forall (fun c => ~ (65 <= byte_val c <= 90))
       (list_ascii_of_string (str_map (fun c => sep_byte (lower_byte c)) name))
  /\ str_map (fun c => sep_byte (lower_byte c))
       (str_map (fun c => sep_byte (lower_byte c)) name)
     = str_map (fun c => sep_byte (lower_byte c)) name.
Proof.
  unfold isASCII. induction name as [|c name IH]; [now repeat split|].
  cbn [str_all str_map list_ascii_of_string]. intros Hc.
  apply andb_prop in Hc as [Hc Hn]. destruct (IH Hn) as (I1 & I2 & I3).
  destruct (lower_byte_ascii c Hc) as (L1 & L2 & L3).
  rewrite L1, I1, L3, I3. repeat split; [constructor; assumption].
Qed.

(** X4. On a name made of ASCII bytes only, sanitizing works byte by byte: the
    length is kept, letters are lowered, the five separators become
    underscores and every other byte is left alone; the result is ASCII
    without capitals, and sanitizing it again changes nothing, whatever the
    case table above ASCII. *)
Theorem sanitize_ascii (name : string) :
  isASCII name = true ->
  SanitizeMetricName name = str_map (fun c => sep_byte (lower_byte c)) name
  /\ String.length (SanitizeMetricName name) = String.length name
  /\ isASCII (SanitizeMetricName name) = true
  /\ Forall (fun c => ~ (65 <= byte_val c <= 90))
       (list_ascii_of_string (SanitizeMetricName name))
  /\ SanitizeMetricName (SanitizeMetricName name) = SanitizeMetricName name.
Proof.
  intros Ha. destruct (sanitize_ascii_stays name Ha) as (S1 & S2 & S3).
  rewrite (sanitize_ascii_bytes (SanitizeMetricName name));
    rewrite (sanitize_ascii_bytes name Ha); try assumption.
  rewrite str_map_length. now repeat split.
Qed.

End Names.

Lemma sanitize_ascii_witness :
  SanitizeMetricName "Query Type/AAAA" = "query_type_aaaa"
  /\ String.length (SanitizeMetricName "Query Type/AAAA") = 15%nat.
Proof.
  destruct (@sanitize_ascii plainLib "Query Type/AAAA" eq_refl) as (E & L & _).
  split; [exact E | exact L].
Defined.

End UtilsMore.

(** ** State times *)

Module StateTimeFacts.
Import Utils Collector StringFacts.

Lemma grammar_not_state neg D h mi sec :
  IsPrefixIn (duration_text neg D h mi sec) ["pending"; "running"; "frozen"] = false.
Proof.
  unfold duration_text, IsPrefixIn. destruct neg; cbn; now rewrite !andb_false_r.
Qed.

Section StateTime.
Context `{GoLib}.

(** X5. [convertStateTime] gives a value in two cases only: 0 for a text that
    starts with "pending", "running" or "frozen", whatever follows; and
    the seconds of [ParseDurationString] for a string of the duration
    grammar other than "-".  Every other text, "not scheduled" and "-"
    among them, gives nil. *)
Theorem convertStateTime_spec (timeStr : string) (v : float64) :
  convertStateTime timeStr = Some v <->
  ((exists p rest,
       List.In p ["pending"; "running"; "frozen"] /\ timeStr = p +:+ rest)
   /\ v = F64.of_Z 0)
  \/ (timeStr <> "-"
      /\ (exists neg D h mi sec,
             digits_ok D /\ digits_ok h /\ digits_ok mi /\ digits_ok sec
             /\ timeStr = duration_text neg D h mi sec)
      /\ v = (ParseDurationString timeStr).1).
Proof.
  unfold convertStateTime. split.
  - destruct (IsPrefixIn timeStr _) eqn:Ep.
    + intros E. injection E as <-. left. split; [|reflexivity].
      now apply UtilsMore.IsPrefixIn_iff.
    + destruct (String.eqb_spec timeStr "not scheduled") as [|_]; [discriminate|].
      destruct (String.eqb_spec timeStr "-") as [|Hm]; [discriminate|]. cbn [orb].
      destruct (ParseDurationString timeStr) as [seconds ok] eqn:Ed.
      destruct ok; [|discriminate]. intros E. injection E as <-. right.
      split; [assumption|]. split; [|reflexivity].
      apply DurationFacts.ParseDurationString_ok. now rewrite Ed.
  - intros [[Hp ->]|(Hm & Hg & ->)].
    + apply UtilsMore.IsPrefixIn_iff in Hp. now rewrite Hp.
    + destruct Hg as (neg & D & h & mi & sec & HD & Hh & Hmi & Hsec & ->).
      rewrite grammar_not_state.
      destruct (String.eqb_spec (duration_text neg D h mi sec) "not scheduled") as [E|_].
      { unfold duration_text in E. destruct neg; discriminate E. }
      destruct (String.eqb_spec (duration_text neg D h mi sec) "-") as [E|_];
        [contradiction|]. cbn [orb].
      destruct (UtilsFacts.ParseDurationString_grammar neg D h mi sec HD Hh Hmi Hsec)
        as [Hok _].
      destruct (ParseDurationString (duration_text neg D h mi sec)) as [seconds ok].
      cbn [fst snd] in *. now rewrite Hok.
Qed.

End StateTime.

End StateTimeFacts.

(** ** What the phases emit *)

Module PhaseFacts.
Import Libknot Collector CollectorFacts.

Lemma sendMetrics_pair `{GoLib} (P : Metric -> Prop) d v labels :
  (forall m, pair_metric d m -> labelValues m = labels -> value m = v -> P m) ->
  Forall P (sendMetrics d v labels).1.
Proof.
  intros HP. apply sendMetrics_Forall; intros; apply HP; cbn; auto;
    [left|right]; now split.
Qed.

Lemma receive_loop_multiple {St : Type}
    (body : St -> CtlType -> CtlData -> St * Sent) ctl (q : nat) :
  (forall st dataType data,
      exists k, List.length (body st dataType data).2.1 = (q * k)%nat) ->
  forall budget i st,
    exists k, List.length (emitted (receive_loop body ctl budget i st)) = (q * k)%nat.
Proof.
  intros Hb. induction budget as [|b IH]; intros i st; simpl.
  - exists 0%nat. lia.
  - destruct (ReceiveResponse ctl i) as [e|t d]; simpl; [exists 0%nat; lia|].
    destruct (is_end t); simpl; [exists 0%nat; lia|].
    destruct (Hb st t d) as [k1 E1]. destruct (body st t d) as [st' [ms [why|]]].
    + simpl in *. now exists k1.
    + simpl in *. destruct (IH (S i) st') as [k2 E2]. exists (k1 + k2)%nat.
      rewrite length_app, E1, E2. lia.
Qed.

(** A loop whose state only grows: what it emitted is still good in the
    state it ends in. *)
Lemma receive_loop_grows {St : Type}
    (body : St -> CtlType -> CtlData -> St * Sent)
    (Inv : St -> Prop) (le : St -> St -> Prop) (P : St -> Metric -> Prop) ctl :
  (forall st, le st st) ->
  (forall a b c, le a b -> le b c -> le a c) ->
  (forall st st' m, le st st' -> P st m -> P st' m) ->
  (forall st dataType data, Inv st ->
     Inv (body st dataType data).1 /\ le st (body st dataType data).1
     /\ Forall (P (body st dataType data).1) (body st dataType data).2.1) ->
  forall budget i st, Inv st ->
    Inv (final (receive_loop body ctl budget i st))
    /\ le st (final (receive_loop body ctl budget i st))
    /\ Forall (P (final (receive_loop body ctl budget i st)))
         (emitted (receive_loop body ctl budget i st)).
Proof.
  intros Hrefl Htrans Hmono Hb.
  induction budget as [|b IH]; intros i st Hi; simpl; [now repeat split|].
  destruct (ReceiveResponse ctl i) as [e|t d]; simpl; [now repeat split|].
  destruct (is_end t); simpl; [now repeat split|].
  destruct (Hb st t d Hi) as (Hi' & Hle & Hms).
  destruct (body st t d) as [st' [ms [why|]]]; simpl in *; [now repeat split|].
  destruct (IH (S i) st' Hi') as (Hf & Hle' & Hms').
  repeat split; [assumption|eauto|]. apply Forall_app. split; [|assumption].
  eapply Forall_impl; [exact Hms|]. intros m Hm. now apply (Hmono st').
Qed.

Section Phases.
Context `{GoLib}.

(** *** Zone status *)

Lemma zoneStatusRecord_shape c cur dataType data :
  Forall (fun m =>
            zone_labelled m
            /\ ((collectZoneSerial c = true /\ pair_metric zoneSerialDesc m)
                \/ (collectZoneStatus c = true
                    /\ (pair_metric zoneStatusRefreshDesc m
                        \/ pair_metric zoneStatusExpirationDesc m))))
    (zoneStatusRecord c cur dataType data).2.1.
Proof.
  unfold zoneStatusRecord.
  destruct (_ || _); [|constructor].
  destruct (_ && _); [constructor|].
  destruct ((dataType =? CtlTypeExtra) && str_nonempty (currentZone cur)) eqn:E;
    [|constructor].
  apply andb_prop in E as [_ Hz]. cbn [snd].
  assert (Hl : forall m, labelValues m = [currentZone cur] -> zone_labelled m).
  { intros m E. now exists (currentZone cur). }
  apply andThen_Forall.
  - destruct (collectZoneSerial c); [|constructor]. cbn [andb].
    destruct (_ =? 1); [|constructor].
    destruct (Strconv.ParseFloat _); [|constructor].
    apply sendMetrics_pair. intros m Hm Hlab _. split; [now apply Hl|]. left. now split.
  - destruct (collectZoneStatus c); [|constructor]. cbn [andb].
    destruct (_ && _); [|constructor].
    destruct (_ =? 7).
    + destruct (convertStateTime _); [|constructor].
      apply sendMetrics_pair. intros m Hm Hlab _. split; [now apply Hl|]. right.
      split; [reflexivity|now left].
    + destruct (_ =? 9); [|constructor].
      destruct (convertStateTime _); [|constructor].
      apply sendMetrics_pair. intros m Hm Hlab _. split; [now apply Hl|]. right.
      split; [reflexivity|now right].
Qed.

Lemma zone_status_shape c ctl budget :
  Forall (fun m =>
            zone_labelled m
            /\ ((collectZoneSerial c = true /\ pair_metric zoneSerialDesc m)
                \/ (collectZoneStatus c = true
                    /\ (pair_metric zoneStatusRefreshDesc m
                        \/ pair_metric zoneStatusExpirationDesc m))))
    (emitted (collectZoneStatusInfo c ctl budget)).
Proof.
  unfold collectZoneStatusInfo.
  destruct (SendCommand ctl "zone-status"); [constructor|].
  apply (receive_loop_invariant (zoneStatusRecord c) (fun _ => True)); [|exact I].
  intros. split; [exact I|apply zoneStatusRecord_shape].
Qed.

(** X6. Every observation of the zone-status phase carries one label, a zone
    name that is not empty, and is the gauge or the counter of the zone
    serial, which takes the serial option, or of the zone-status refresh
    or expiration timer, which take the zone-status option; with both
    options off the phase emits nothing, on any stream. *)
Theorem zone_status_observations (c : KnotCollector) (ctl : Ctl) (budget : nat) :
  Forall (fun m =>
            zone_labelled m
            /\ ((collectZoneSerial c = true /\ pair_metric zoneSerialDesc m)
                \/ (collectZoneStatus c = true
                    /\ (pair_metric zoneStatusRefreshDesc m
                        \/ pair_metric zoneStatusExpirationDesc m))))
    (emitted (collectZoneStatusInfo c ctl budget))
  /\ (collectZoneSerial c = false -> collectZoneStatus c = false ->
      emitted (collectZoneStatusInfo c ctl budget) = []).
Proof.
  split; [apply zone_status_shape|]. intros Hs Ht.
  pose proof (zone_status_shape c ctl budget) as Hall.
  destruct (emitted (collectZoneStatusInfo c ctl budget)) as [|m ms]; [reflexivity|].
  apply Forall_cons in Hall as [(_ & [[E _]|[E _]]) _]; congruence.
Qed.

(** *** The statistics phases and the registry *)

Lemma grows_refl reg : grows reg reg.
Proof. now split. Qed.

Lemma grows_trans a b c : grows a b -> grows b c -> grows a c.
Proof. intros [G1 Z1] [G2 Z2]. split; eauto. Qed.

Ltac unchanged :=
  split; [assumption|split; [split; [apply grows_refl|reflexivity]|constructor]].

Lemma globalStatsRecord_grows reg dataType data :
  registry_ok reg ->
  registry_ok (globalStatsRecord reg dataType data).1
  /\ (grows reg (globalStatsRecord reg dataType data).1
      /\ zoneStatsDescriptors (globalStatsRecord reg dataType data).1
         = zoneStatsDescriptors reg)
  /\ Forall (global_stat (globalStatsRecord reg dataType data).1)
       (globalStatsRecord reg dataType data).2.1.
Proof.
  intros Hok. unfold globalStatsRecord.
  destruct (_ && _); [|unchanged].
  destruct (Strconv.ParseFloat (Data data)) as [v|]; [|unchanged].
  destruct (registry_ok_global (Item data) reg Hok) as [Hok' _].
  pose proof (getGlobalStatsDescriptor_stored (Item data) reg) as Hst.
  destruct (getGlobalStatsDescriptor_keeps (Item data) reg) as [Hk Hz].
  destruct (getGlobalStatsDescriptor (Item data) reg) as [d reg']. cbn [fst snd] in *.
  split; [assumption|]. split.
  - split; [split; [exact Hk|]|exact Hz]. intros item p. now rewrite Hz.
  - apply sendMetrics_pair. intros m Hm Hl _.
    now exists (Item data), d, (Section_ data), (ID data).
Qed.

Lemma zoneStatsRecord_grows reg dataType data :
  registry_ok reg ->
  registry_ok (zoneStatsRecord reg dataType data).1
  /\ (grows reg (zoneStatsRecord reg dataType data).1
      /\ globalStatsDescriptors (zoneStatsRecord reg dataType data).1
         = globalStatsDescriptors reg)
  /\ Forall (zone_stat (zoneStatsRecord reg dataType data).1)
       (zoneStatsRecord reg dataType data).2.1.
Proof.
  intros Hok. unfold zoneStatsRecord.
  destruct (_ && _) eqn:E; [|unchanged].
  destruct (Strconv.ParseFloat (Data data)) as [v|]; [|unchanged].
  apply andb_prop in E as [E _]. apply andb_prop in E as [E _].
  apply andb_prop in E as [_ Hzone].
  destruct (registry_ok_zone (Item data) reg Hok) as [Hok' _].
  pose proof (getZoneStatsDescriptor_stored (Item data) reg) as Hst.
  destruct (getZoneStatsDescriptor_keeps (Item data) reg) as [Hk Hg].
  destruct (getZoneStatsDescriptor (Item data) reg) as [d reg']. cbn [fst snd] in *.
  split; [assumption|]. split.
  - split; [split; [|exact Hk]|exact Hg]. intros item p. now rewrite Hg.
  - apply sendMetrics_pair. intros m Hm Hl _.
    now exists (Item data), d, (Zone data), (Section_ data), (ID data).
Qed.

Lemma global_stats_grows ctl budget reg :
  registry_ok reg ->
  let r := collectGlobalStats ctl budget reg in
  registry_ok (final r)
  /\ (grows reg (final r) /\ zoneStatsDescriptors (final r) = zoneStatsDescriptors reg)
  /\ Forall (global_stat (final r)) (emitted r).
Proof.
  intros Hok. cbv zeta. unfold collectGlobalStats.
  destruct (SendCommand ctl "stats"); [cbn [send_failed final emitted]; unchanged|].
  apply (receive_loop_grows globalStatsRecord registry_ok
           (fun a b => grows a b /\ zoneStatsDescriptors b = zoneStatsDescriptors a)
           global_stat); try assumption.
  - intros st. split; [apply grows_refl|reflexivity].
  - intros a b c [G1 E1] [G2 E2]. split; [now apply (grows_trans a b)|congruence].
  - intros st st' m [[G _] _] (item & p & sec & id & Hl & Hm & Hlab).
    exists item, p, sec, id. repeat split; auto.
  - intros. now apply globalStatsRecord_grows.
Qed.

Lemma zone_stats_grows ctl budget reg :
  registry_ok reg ->
  let r := collectZoneStatistics ctl budget reg in
  registry_ok (final r)
  /\ (grows reg (final r)
      /\ globalStatsDescriptors (final r) = globalStatsDescriptors reg)
  /\ Forall (zone_stat (final r)) (emitted r).
Proof.
  intros Hok. cbv zeta. unfold collectZoneStatistics.
  destruct (SendCommand ctl "zone-stats");
    [cbn [send_failed final emitted]; unchanged|].
  apply (receive_loop_grows zoneStatsRecord registry_ok
           (fun a b => grows a b /\ globalStatsDescriptors b = globalStatsDescriptors a)
           zone_stat); try assumption.
  - intros st. split; [apply grows_refl|reflexivity].
  - intros a b c [G1 E1] [G2 E2]. split; [now apply (grows_trans a b)|congruence].
  - intros st st' m [[_ Z] _] (item & p & zone & sec & id & Hl & Hm & Hlab & Hz).
    exists item, p, zone, sec, id. repeat split; auto.
  - intros. now apply zoneStatsRecord_grows.
Qed.

(** X7. In the global-statistics phase the registry only grows: every entry
    it had is kept as it was and the per-zone map is not touched; every
    observation is the gauge or the counter of a pair that the global map
    holds when the phase ends, with two label values (section and id); and
    every pair of that map is named [knot_stats_] and the sanitized key.
    This holds on every stream, also when the phase ends in an error. *)
Theorem global_stats_registry (ctl : Ctl) (budget : nat) (reg : Registry) :
  reachable reg ->
  let r := collectGlobalStats ctl budget reg in
  grows reg (final r)
  /\ zoneStatsDescriptors (final r) = zoneStatsDescriptors reg
  /\ Forall (global_stat (final r)) (emitted r)
  /\ (forall item p, globalStatsDescriptors (final r) !! item = Some p ->
        fqName p.1 = "knot_stats_" +:+ Utils.SanitizeMetricName item
        /\ fqName p.2 = ("knot_stats_" +:+ Utils.SanitizeMetricName item) +:+ "_total").
Proof.
  intros Hr. apply reachable_ok in Hr.
  destruct (global_stats_grows ctl budget reg Hr) as ((Hg & _ & _) & (G & Z) & Hall).
  cbv zeta. split; [exact G|]. split; [exact Z|]. split; [exact Hall|].
  intros item p Hl. destruct (Hg item p Hl) as (a & -> & _). now split.
Qed.

(** X8. In the zone-statistics phase the registry only grows: every entry it
    had is kept as it was and the global map is not touched; every
    observation is the gauge or the counter of a pair that the per-zone
    map holds when the phase ends, with three label values (a zone name
    that is not empty, section and id); and every pair of that map is
    named [knot_zone_stats_] and the sanitized key. *)
Theorem zone_stats_registry (ctl : Ctl) (budget : nat) (reg : Registry) :
  reachable reg ->
  let r := collectZoneStatistics ctl budget reg in
  grows reg (final r)
  /\ globalStatsDescriptors (final r) = globalStatsDescriptors reg
  /\ Forall (zone_stat (final r)) (emitted r)
  /\ (forall item p, zoneStatsDescriptors (final r) !! item = Some p ->
        fqName p.1 = "knot_zone_stats_" +:+ Utils.SanitizeMetricName item
        /\ fqName p.2
           = ("knot_zone_stats_" +:+ Utils.SanitizeMetricName item) +:+ "_total").
Proof.
  intros Hr. apply reachable_ok in Hr.
  destruct (zone_stats_grows ctl budget reg Hr) as ((_ & Hz & _) & (G & Z) & Hall).
  cbv zeta. split; [exact G|]. split; [exact Z|]. split; [exact Hall|].
  intros item p Hl. destruct (Hz item p Hl) as (a & -> & _). now split.
Qed.

End Phases.

Lemma global_stats_registry_witness :
  grows initial_registry (final (collectGlobalStats stats_script 8 initial_registry))
  /\ Forall (global_stat (final (collectGlobalStats stats_script 8 initial_registry)))
       (emitted (collectGlobalStats stats_script 8 initial_registry)).
Proof.
  destruct (@global_stats_registry plainLib stats_script 8%nat initial_registry
              reachable_initial) as (G & _ & Hall & _).
  split; [exact G | exact Hall].
Defined.

Lemma zone_stats_registry_witness :
  grows initial_registry (final (collectZoneStatistics stats_script 8 initial_registry))
  /\ Forall (zone_stat (final (collectZoneStatistics stats_script 8 initial_registry)))
       (emitted (collectZoneStatistics stats_script 8 initial_registry)).
Proof.
  destruct (@zone_stats_registry plainLib stats_script 8%nat initial_registry
              reachable_initial) as (G & _ & Hall & _).
  split; [exact G | exact Hall].
Defined.

(** *** Zone timers *)

Lemma zoneTimerRecord_shape `{GoLib} u dataType data :
  Forall (fun m =>
            zone_labelled m
            /\ (pair_metric zoneRefreshDesc m \/ pair_metric zoneRetryDesc m
                \/ pair_metric zoneExpirationDesc m))
    (zoneTimerRecord u dataType data).2.1
  /\ exists k, List.length (zoneTimerRecord u dataType data).2.1 = (6 * k)%nat.
Proof.
  destruct u.
  destruct (zoneTimerRecord_cases dataType data)
    as [E|[(_ & _ & E)|(Hz & _ & n3 & n4 & n5 & E)]]; rewrite E; cbn [fst snd nothing].
  - split; [constructor|exists 0%nat; reflexivity].
  - split; [constructor|exists 0%nat; reflexivity].
  - split; [|exists 1%nat; reflexivity].
    assert (Hl : forall m, labelValues m = [Zone data] -> zone_labelled m).
    { intros m Em. now exists (Zone data). }
    repeat constructor; try (now apply Hl);
      first [ left; split; reflexivity
            | right; left; split; reflexivity
            | right; right; split; reflexivity
            | left; left; split; reflexivity
            | left; right; split; reflexivity
            | right; left; left; split; reflexivity
            | right; left; right; split; reflexivity
            | right; right; left; split; reflexivity
            | right; right; right; split; reflexivity ].
Qed.

Lemma zone_timer_shape `{GoLib} ctl :
  Forall (fun m =>
            zone_labelled m
            /\ (pair_metric zoneRefreshDesc m \/ pair_metric zoneRetryDesc m
                \/ pair_metric zoneExpirationDesc m))
    (emitted (collectZoneTimerInfo ctl))
  /\ exists k, List.length (emitted (collectZoneTimerInfo ctl)) = (6 * k)%nat.
Proof.
  unfold collectZoneTimerInfo.
  destruct (SendCommandWithType ctl "zone-read" "SOA");
    [split; [constructor|exists 0%nat; reflexivity]|].
  destruct (leave_at_bound_spec
              (receive_loop zoneTimerRecord ctl (Z.to_nat maxResponses) 0 tt))
    as (-> & _).
  split.
  - apply (receive_loop_invariant zoneTimerRecord (fun _ => True)); [|exact I].
    intros. split; [exact I|apply zoneTimerRecord_shape].
  - apply receive_loop_multiple. intros. apply zoneTimerRecord_shape.
Qed.

(** X9. Every observation of the zone-timer phase carries one label, a zone
    name that is not empty, and is the gauge or the counter of the SOA
    refresh, retry or expiration timer; they come six at a time. *)
Theorem zone_timer_observations `{GoLib} (ctl : Ctl) :
  Forall (fun m =>
            zone_labelled m
            /\ (pair_metric zoneRefreshDesc m \/ pair_metric zoneRetryDesc m
                \/ pair_metric zoneExpirationDesc m))
    (emitted (collectZoneTimerInfo ctl))
  /\ exists k, List.length (emitted (collectZoneTimerInfo ctl)) = (6 * k)%nat.
Proof. apply zone_timer_shape. Qed.

(** *** Where a phase stops reading *)

Lemma receive_loop_stops_at {St : Type}
    (body : St -> CtlType -> CtlData -> St * Sent) ctl n budget st dataType data :
  (forall j, (j < n)%nat -> plain_record ctl j) ->
  ReceiveResponse ctl n = Recv dataType data ->
  dataType = CtlTypeBlock \/ dataType = CtlTypeEnd ->
  (n < budget)%nat ->
  let r := receive_loop body ctl budget 0 st in
  let p := records_emitted body ctl n 0 st in
  emitted r = p.2.1
  /\ (calls r <= S n)%nat
  /\ (p.2.2 = None -> result r = Returned None /\ calls r = S n).
Proof.
  intros Hp He Ht Hn. cbv zeta.
  destruct (records_emitted body ctl n 0 st).2.2 as [why|] eqn:Hq.
  - destruct (receive_loop_prefix_panics body ctl n budget 0 st why Hp Hq ltac:(lia))
      as (R1 & R2 & R3).
    rewrite R2. split; [reflexivity|]. split; [lia|discriminate].
  - replace budget with (n + S (budget - n - 1))%nat by lia.
    rewrite receive_loop_prefix by assumption.
    cbn [Nat.add]. rewrite (receive_loop_end _ _ _ _ _ _ _ He Ht).
    cbn [emitted final result calls]. rewrite app_nil_r.
    split; [reflexivity|]. split; [lia|]. intros _. split; [reflexivity|lia].
Qed.

Section Stops.
Context `{GoLib} (c : KnotCollector) (ctl : Ctl).

(** X10. A phase stops at the first BLOCK or END: when the stream gives [n]
    records that are neither, then one that is, the phase has made at
    most [n + 1] receive calls, so it read nothing after the BLOCK or END,
    and it has sent what those [n] records send, no more.  When those
    records are clean, so that none of them panics, it has made exactly
    [n + 1] calls and returns nil. *)
Theorem phases_stop_at_block (budget : nat) (reg : Registry) (n : nat)
    (dataType : CtlType) (data : CtlData) :
  (forall j, (j < n)%nat -> plain_record ctl j) ->
  ReceiveResponse ctl n = Recv dataType data ->
  dataType = CtlTypeBlock \/ dataType = CtlTypeEnd ->
  (SendCommand ctl "stats" = None -> (n < budget)%nat ->
     let r := collectGlobalStats ctl budget reg in
     emitted r = (records_emitted globalStatsRecord ctl n 0 reg).2.1
     /\ (calls r <= S n)%nat
     /\ (reachable reg -> clean_upto ctl n -> result r = Returned None /\ calls r = S n))
  /\ (SendCommand ctl "zone-status" = None -> (n < budget)%nat ->
     let r := collectZoneStatusInfo c ctl budget in
     emitted r
     = (records_emitted (zoneStatusRecord c) ctl n 0
          {| currentZone := ""; responseIndex := 0 |}).2.1
     /\ (calls r <= S n)%nat
     /\ (clean_upto ctl n -> result r = Returned None /\ calls r = S n))
  /\ (SendCommand ctl "zone-stats" = None -> (n < budget)%nat ->
     let r := collectZoneStatistics ctl budget reg in
     emitted r = (records_emitted zoneStatsRecord ctl n 0 reg).2.1
     /\ (calls r <= S n)%nat
     /\ (reachable reg -> clean_upto ctl n -> result r = Returned None /\ calls r = S n))
  /\ (SendCommandWithType ctl "zone-read" "SOA" = None -> Z.of_nat n < 100000 ->
     let r := collectZoneTimerInfo ctl in
     emitted r = (records_emitted zoneTimerRecord ctl n 0 tt).2.1
     /\ (calls r <= S n)%nat
     /\ (clean_upto ctl n -> result r = Returned None /\ calls r = S n)).
Proof.
  intros Hp He Ht.
  assert (Hupto : forall (ok : CtlData -> Prop),
             (forall data, clean_record data = true -> ok data) ->
             clean_upto ctl n ->
             forall j dataType data, (0 <= j < 0 + n)%nat ->
               ReceiveResponse ctl j = Recv dataType data -> ok data).
  { intros ok Hok Hc j t d Hj E. apply Hok. apply (Hc j t d); [lia|exact E]. }
  split; [|split; [|split]].
  - intros E Hn. cbv zeta. unfold collectGlobalStats. rewrite E.
    destruct (receive_loop_stops_at globalStatsRecord ctl n budget reg _ _ Hp He Ht Hn)
      as (E1 & E2 & E3).
    split; [exact E1|]. split; [exact E2|]. intros Hr Hc. apply E3.
    apply (records_emitted_calm globalStatsRecord ctl registry_ok
             (fun data => clean_record data = true)).
    + intros. now apply globalStatsRecord_calm.
    + now apply Hupto.
    + now apply reachable_ok.
  - intros E Hn. cbv zeta. unfold collectZoneStatusInfo. rewrite E.
    destruct (receive_loop_stops_at (zoneStatusRecord c) ctl n budget
                {| currentZone := ""; responseIndex := 0 |} _ _ Hp He Ht Hn)
      as (E1 & E2 & E3).
    split; [exact E1|]. split; [exact E2|]. intros Hc. apply E3.
    apply (records_emitted_calm (zoneStatusRecord c) ctl
             (fun cur => Utf8.ValidString (currentZone cur) = true)
             (fun data => clean_record data = true)).
    + intros. now apply zoneStatusRecord_calm.
    + now apply Hupto.
    + reflexivity.
  - intros E Hn. cbv zeta. unfold collectZoneStatistics. rewrite E.
    destruct (receive_loop_stops_at zoneStatsRecord ctl n budget reg _ _ Hp He Ht Hn)
      as (E1 & E2 & E3).
    split; [exact E1|]. split; [exact E2|]. intros Hr Hc. apply E3.
    apply (records_emitted_calm zoneStatsRecord ctl registry_ok
             (fun data => clean_record data = true)).
    + intros. now apply zoneStatsRecord_calm.
    + now apply Hupto.
    + now apply reachable_ok.
  - intros E Hn. cbv zeta. rewrite (collectZoneTimerInfo_sent ctl E).
    destruct (leave_at_bound_spec
                (receive_loop zoneTimerRecord ctl (Z.to_nat maxResponses) 0 tt))
      as (-> & -> & ->).
    assert (Hb : (n < Z.to_nat maxResponses)%nat) by (unfold maxResponses; lia).
    generalize dependent (Z.to_nat maxResponses). intros budget' Hb.
    destruct (receive_loop_stops_at zoneTimerRecord ctl n budget' tt _ _ Hp He Ht Hb)
      as (E1 & E2 & E3).
    split; [exact E1|]. split; [exact E2|]. intros Hc.
    destruct E3 as [-> E4]; [|now split].
    apply (records_emitted_calm zoneTimerRecord ctl (fun _ => True)
             (fun data => Utf8.ValidString (Zone data) = true)).
    + intros st t d. apply zoneTimerRecord_calm.
    + apply Hupto; [|exact Hc]. intros d Hd. apply (clean_record_spec d Hd).
    + exact I.
Qed.

End Stops.

Lemma phases_stop_at_block_witness :
  result (collectZoneTimerInfo ended_script) = Returned None
  /\ calls (collectZoneTimerInfo ended_script) = 2%nat
  /\ List.length (emitted (collectZoneTimerInfo ended_script)) = 6%nat.
Proof.
  assert (Hplain : forall j, (j < 1)%nat -> plain_record ended_script j).
  { intros j Hj. assert (j = 0%nat) as -> by lia.
    exists CtlTypeData, soa_record. split; [reflexivity|]. split; discriminate. }
  assert (Hclean : clean_upto ended_script 1).
  { intros j t d Hj E. assert (j = 0%nat) as -> by lia.
    injection E as _ <-. reflexivity. }
  destruct (@phases_stop_at_block plainLib example_collector ended_script
              20%nat initial_registry 1%nat CtlTypeEnd no_data Hplain eq_refl
              (or_intror eq_refl))
    as (_ & _ & _ & Htimer).
  destruct (Htimer eq_refl ltac:(lia)) as (Hem & _ & Hres).
  destruct (Hres Hclean) as [Hr Hc].
  split; [exact Hr|]. split; [exact Hc|]. rewrite Hem. reflexivity.
Defined.

End PhaseFacts.

(** ** Describe, and names that sanitize alike *)

Module DescriptorFacts.
Import Libknot Collector CollectorFacts.

Ltac in_list := cbn; solve [repeat (first [left; reflexivity | right])].

(** X11. [Describe] sends the build-info descriptor first, then the pairs of
    the options that are on: 1 + 2 (memory) + 2 (serial) + 10 (timers)
    descriptors, no name and no allocation twice, none of them dynamic.
    The zone-status refresh and expiration descriptors are sent under the
    timers option, not under the zone-status option. *)
Theorem Describe_spec (c : KnotCollector) :
  (exists rest, Describe c = buildInfoDesc :: rest)
  /\ NoDup (List.map fqName (Describe c))
  /\ NoDup (List.map addr (Describe c))
  /\ List.length (Describe c)
     = (1 + (if collectMemInfo c then 2 else 0) + (if collectZoneSerial c then 2 else 0)
        + (if collectZoneTimers c then 10 else 0))%nat
  /\ (forall d, List.In d (Describe c) -> (addr d < first_dynamic_addr)%nat)
  /\ (List.In zoneStatusRefreshDesc.1 (Describe c) <-> collectZoneTimers c = true)
  /\ (List.In zoneStatusExpirationDesc.1 (Describe c) <-> collectZoneTimers c = true).
Proof.
  unfold Describe.
  destruct (collectMemInfo c), (collectZoneSerial c), (collectZoneTimers c);
    (split; [eexists; reflexivity|]);
    (split; [apply (bool_decide_unpack _); vm_compute; exact I|]);
    (split; [apply (bool_decide_unpack _); vm_compute; exact I|]);
    (split; [reflexivity|]);
    (split; [intros d Hd; cbn in Hd;
             repeat (destruct Hd as [<-|Hd]; [cbn; unfold first_dynamic_addr; lia|]);
             destruct Hd|]);
    split; (split; [intros Hd; first [reflexivity | cbn in Hd; intuition discriminate]
                   | intros E; first [discriminate E | in_list]]).
Qed.

Section Names.
Context `{GoLib}.

Lemma append_injective p s t : p +:+ s = p +:+ t -> s = t.
Proof.
  induction p as [|a p IH]; [auto|]. rewrite !StringFacts.append_cons.
  intros E. injection E as E. auto.
Qed.

(** X12. The registries are keyed by the raw name.  Two different raw names
    with the same sanitized name get two descriptor pairs, both kept, with
    the same metric name and different help texts. *)
Theorem sanitized_names_collide (reg : Registry) (item1 item2 : string) :
  reachable reg -> item1 <> item2 ->
  Utils.SanitizeMetricName item1 = Utils.SanitizeMetricName item2 ->
  (let g1 := getGlobalStatsDescriptor item1 reg in
   let g2 := getGlobalStatsDescriptor item2 g1.2 in
   globalStatsDescriptors g2.2 !! item1 = Some g1.1
   /\ globalStatsDescriptors g2.2 !! item2 = Some g2.1
   /\ fqName g1.1.1 = fqName g2.1.1 /\ fqName g1.1.2 = fqName g2.1.2
   /\ help g1.1.1 <> help g2.1.1)
  /\ (let z1 := getZoneStatsDescriptor item1 reg in
      let z2 := getZoneStatsDescriptor item2 z1.2 in
      zoneStatsDescriptors z2.2 !! item1 = Some z1.1
      /\ zoneStatsDescriptors z2.2 !! item2 = Some z2.1
      /\ fqName z1.1.1 = fqName z2.1.1 /\ fqName z1.1.2 = fqName z2.1.2
      /\ help z1.1.1 <> help z2.1.1).
Proof.
  intros Hr Hne Hs. apply reachable_ok in Hr. cbv zeta. split.
  - destruct (registry_ok_global item1 reg Hr) as [Hok1 (a1 & E1 & _)].
    destruct (registry_ok_global item2 _ Hok1) as [Hok2 (a2 & E2 & _)].
    pose proof (getGlobalStatsDescriptor_stored item1 reg) as S1.
    pose proof (getGlobalStatsDescriptor_stored item2
                  (getGlobalStatsDescriptor item1 reg).2) as S2.
    destruct (getGlobalStatsDescriptor_keeps item2
                (getGlobalStatsDescriptor item1 reg).2) as [K _].
    split; [now apply K|]. split; [exact S2|].
    rewrite E1, E2. cbn. rewrite Hs. repeat split.
    intros E. now apply append_injective in E.
  - destruct (registry_ok_zone item1 reg Hr) as [Hok1 (a1 & E1 & _)].
    destruct (registry_ok_zone item2 _ Hok1) as [Hok2 (a2 & E2 & _)].
    pose proof (getZoneStatsDescriptor_stored item1 reg) as S1.
    pose proof (getZoneStatsDescriptor_stored item2
                  (getZoneStatsDescriptor item1 reg).2) as S2.
    destruct (getZoneStatsDescriptor_keeps item2
                (getZoneStatsDescriptor item1 reg).2) as [K _].
    split; [now apply K|]. split; [exact S2|].
    rewrite E1, E2. cbn. rewrite Hs. repeat split.
    intros E. now apply append_injective in E.
Qed.

End Names.

Lemma sanitized_names_collide_witness :
  fqName (getGlobalStatsDescriptor "query.type" initial_registry).1.1
  = fqName (getGlobalStatsDescriptor "query-type"
              (getGlobalStatsDescriptor "query.type" initial_registry).2).1.1
  /\ help (getGlobalStatsDescriptor "query.type" initial_registry).1.1
     <> help (getGlobalStatsDescriptor "query-type"
                (getGlobalStatsDescriptor "query.type" initial_registry).2).1.1.
Proof.
  destruct (@sanitized_names_collide plainLib initial_registry "query.type" "query-type"
              reachable_initial ltac:(discriminate) eq_refl)
    as [(_ & _ & Hname & _ & Hhelp) _].
  split; [exact Hname | exact Hhelp].
Defined.

End DescriptorFacts.

(** ** Passes, step by step *)

Module CollectMore.
Import Libknot Collector CollectorFacts.

Lemma steps_ret {A : Type} I (Q : A -> Prop) a : Q a -> steps I Q (mret a : M A).
Proof. intros Ha st Hi. split; [assumption|]. intros a' E. now injection E as <-. Qed.

Lemma steps_return {A : Type} I (Q : A -> Prop) : steps I Q (return_ : M A).
Proof. intros st Hi. split; [assumption|discriminate]. Qed.

Lemma steps_bind {A B : Type} I (Q : A -> Prop) (Q' : B -> Prop) (m : M A) (f : A -> M B) :
  steps I Q m -> (forall a, Q a -> steps I Q' (f a)) -> steps I Q' (m ≫= f).
Proof.
  intros Hm Hf st Hi. destruct (Hm st Hi) as [Hi' Hq]. unfold mbind, M_bind.
  destruct (m st) as [[a| | |] st']; cbn [fst snd] in *.
  - apply Hf; [now apply Hq|assumption].
  - split; [assumption|discriminate].
  - split; [assumption|discriminate].
  - split; [assumption|discriminate].
Qed.

Lemma steps_then {A B : Type} I (Q' : B -> Prop) (m : M A) (f : A -> M B) :
  steps I (fun _ => True) m -> (forall a, steps I Q' (f a)) -> steps I Q' (m ≫= f).
Proof. intros Hm Hf. apply (steps_bind I (fun _ => True)); auto. Qed.

Lemma steps_when I b (m : M unit) :
  (b = true -> steps I (fun _ => True) m) -> steps I (fun _ => True) (when b m).
Proof. destruct b; intros Hm; [now apply Hm|now apply steps_ret]. Qed.

(** [Collect], decomposed: an invariant of the steps it is made of is an
    invariant of the pass. *)
Lemma Collect_body_steps `{GoLib} (I : CState -> Prop) c b w budget :
  steps I (fun _ => True) (send (send1 (buildInfoMetric c b))) ->
  (forall n, (n < 4)%nat -> steps I (fun _ => True) (open_ctl c w n)) ->
  (forall n, (n < 3)%nat -> steps I (fun _ => True) (event_ (CtlClose n))) ->
  (collectMemInfo c = true -> steps I (fun _ => True) (send (memoryMetrics w))) ->
  (collectStats c = true ->
     forall k, steps I (fun _ => True) (with_registry (collectGlobalStats k budget))) ->
  (collectZoneStatus c || collectZoneSerial c = true ->
     forall k, steps I (fun _ => True) (phase (collectZoneStatusInfo c k budget))) ->
  (collectZoneStats c = true ->
     forall k, steps I (fun _ => True) (with_registry (collectZoneStatistics k budget))) ->
  (collectZoneTimers c = true ->
     forall k, steps I (fun _ => True) (phase (collectZoneTimerInfo k))) ->
  steps I (fun _ => True) (Collect_body c b w budget).
Proof.
  intros Hbuild Hopen Hclose Hmem Hglobal Hstatus Hzone Htimer. unfold Collect_body.
  apply steps_then; [assumption|intros _].
  apply steps_then; [apply Hopen; lia|intros ctl0].
  apply steps_then; [now apply steps_when|intros _].
  apply steps_then; [apply steps_when; intros E; now apply Hglobal|intros _].
  apply steps_then; [apply Hclose; lia|intros _].
  apply steps_then; [apply Hopen; lia|intros ctl1].
  apply steps_then.
  { apply steps_when. intros E. apply steps_then; [now apply Hstatus|intros _].
    now apply steps_ret. }
  intros _.
  apply (steps_bind I (fun last => last = 1 \/ last = 2)%nat).
  { destruct (collectZoneStats c) eqn:E; [|apply steps_ret; now left].
    apply steps_then; [apply Hclose; lia|intros _].
    apply steps_then; [apply Hopen; lia|intros ctl2].
    apply steps_then; [now apply Hzone|intros _]. apply steps_ret. now right. }
  intros last Hlast. apply steps_when. intros E.
  apply steps_then; [apply Hclose; lia|intros _].
  apply steps_then; [apply Hopen; lia|intros ctl3].
  apply steps_then; [now apply Htimer|intros _]. now apply steps_ret.
Qed.

(** What [Collect] reports, from the state its body ends in: the
    deferred closes follow the trace when it returns or panics. *)
Lemma Collect_events `{GoLib} c b w budget reg :
  let st := (Collect_body c b w budget
               {| trace := []; registry := reg; deferred := [] |}).2 in
  let r := Collect c b w budget reg in
  registry_after r = registry st
  /\ (finished r = true \/ panicked r <> None ->
      events r = (trace st ++ List.map CtlClose (deferred st))%list)
  /\ (events r = trace st
      \/ events r = (trace st ++ List.map CtlClose (deferred st))%list).
Proof.
  cbv zeta. unfold Collect.
  destruct (Collect_body c b w budget _) as [[a| |why|] st]; cbn;
    (split; [reflexivity|]); (split; [|auto]); try reflexivity.
  intros [E|E]; [discriminate|now destruct E].
Qed.

(** *** Control objects are closed *)

Section Closing.
Context (w : World).

Lemma closes_pending_trace st extra :
  (forall n, ~ List.In (CtlNew n) extra) ->
  closes_pending w st ->
  closes_pending w {| trace := (trace st ++ extra)%list; registry := registry st;
                      deferred := deferred st |}.
Proof.
  intros Hex Hc n Hin Hs. cbn [trace deferred] in *.
  apply in_app_or in Hin as [Hin|Hin]; [now apply Hc|]. now apply Hex in Hin.
Qed.

Lemma no_new_observe ms n : ~ List.In (CtlNew n) (List.map Observe ms).
Proof. intros Hin. apply in_map_iff in Hin as (m & E & _). discriminate. Qed.

Lemma closing_send s : steps (closes_pending w) (fun _ => True) (send s).
Proof.
  intros st Hc. split; [|auto]. unfold send.
  destruct s.2; cbn [snd]; (apply closes_pending_trace; [|assumption]);
    intros n; apply no_new_observe.
Qed.

Lemma closing_event e :
  (forall n, e <> CtlNew n) -> steps (closes_pending w) (fun _ => True) (event_ e).
Proof.
  intros He st Hc. split; [|auto]. apply closes_pending_trace; [|assumption].
  intros n [E|[]]. now apply (He n).
Qed.

Lemma closing_phase {St : Type} (r : PhaseResult St) :
  steps (closes_pending w) (fun _ => True) (phase r).
Proof.
  intros st Hc. split; [|auto]. unfold phase.
  destruct (result r); cbn [snd]; (apply closes_pending_trace; [|assumption]);
    intros n; apply no_new_observe.
Qed.

Lemma closing_with_registry (f : Registry -> PhaseResult Registry) :
  steps (closes_pending w) (fun _ => True) (with_registry f).
Proof.
  intros st Hc. split; [|auto]. unfold with_registry, phase.
  destruct (result (f (registry st))); cbn [snd];
    intros n Hin Hs; cbn [trace deferred] in *;
    (apply in_app_or in Hin as [Hin|Hin]; [now apply Hc|now apply no_new_observe in Hin]).
Qed.

Lemma closing_open_ctl c n : steps (closes_pending w) (fun _ => True) (open_ctl c w n).
Proof.
  intros st Hc. split; [|auto].
  unfold open_ctl, mbind, M_bind, event_, defer_Close, return_, mret, M_ret.
  destruct (sessions w n) as [s|] eqn:Es.
  - destruct (connectError s); cbn [snd trace deferred];
      intros n' Hin Hs; cbn [trace deferred] in *;
      rewrite ?in_app_iff in Hin; cbn [List.In] in Hin;
      destruct (Nat.eq_dec n n') as [->|Hne]; try (now left); right; apply Hc;
      try assumption; intuition congruence.
  - cbn [snd]. intros n' Hin Hs. cbn [trace deferred] in *.
    apply in_app_or in Hin as [Hin|[E|[]]]; [now apply Hc|].
    injection E as <-. contradiction.
Qed.

End Closing.

(** *** Invariants of the registry and of the events *)

Section Inv.
Context (R : Registry -> Prop) (P : event -> Prop).

Lemma inv_extend st extra :
  inv R P st -> Forall P extra ->
  inv R P {| trace := (trace st ++ extra)%list; registry := registry st;
             deferred := deferred st |}.
Proof. intros [Hr Ht] Hex. split; [assumption|]. now apply Forall_app. Qed.

Lemma Forall_map_Observe ms :
  Forall (fun m => P (Observe m)) ms -> Forall P (List.map Observe ms).
Proof. induction 1; constructor; assumption. Qed.

Lemma inv_send s :
  (forall reg, R reg -> Forall (fun m => P (Observe m)) s.1) ->
  steps (inv R P) (fun _ => True) (send s).
Proof.
  intros Hms st Hi. split; [|auto]. unfold send.
  destruct s.2; cbn [snd]; (apply inv_extend; [assumption|]);
    apply Forall_map_Observe, (Hms (registry st)), Hi.
Qed.

Lemma inv_event e : P e -> steps (inv R P) (fun _ => True) (event_ e).
Proof.
  intros He st Hi. split; [|auto]. apply inv_extend; [assumption|].
  now repeat constructor.
Qed.

Lemma inv_phase {St : Type} (r : PhaseResult St) :
  (forall reg, R reg -> Forall (fun m => P (Observe m)) (emitted r)) ->
  steps (inv R P) (fun _ => True) (phase r).
Proof.
  intros Hms st Hi. split; [|auto]. unfold phase.
  destruct (result r); cbn [snd]; (apply inv_extend; [assumption|]);
    apply Forall_map_Observe, (Hms (registry st)), Hi.
Qed.

Lemma inv_with_registry (f : Registry -> PhaseResult Registry) :
  (forall reg, R reg ->
     Forall (fun m => P (Observe m)) (emitted (f reg)) /\ R (final (f reg))) ->
  steps (inv R P) (fun _ => True) (with_registry f).
Proof.
  intros Hf st [Hr Ht]. destruct (Hf (registry st) Hr) as [Hms Hfin].
  split; [|auto]. unfold with_registry, phase.
  destruct (result (f (registry st))); cbn [snd]; (split; cbn [registry trace];
    [assumption|apply Forall_app; split; [assumption|now apply Forall_map_Observe]]).
Qed.

Lemma inv_open_ctl c w n :
  P (CtlNew n) -> P (CtlConnect n (sockPath c)) -> P (CtlSetTimeout n (timeout c)) ->
  steps (inv R P) (fun _ => True) (open_ctl c w n).
Proof.
  intros Hn Hc Ht st [Hr Htr]. split; [|auto].
  unfold open_ctl, mbind, M_bind, event_, defer_Close, return_, mret, M_ret.
  destruct (sessions w n) as [s|]; [destruct (connectError s)|];
    cbn [snd]; (split; cbn [registry trace]; [assumption|]);
    repeat (apply Forall_app; split); try assumption; now repeat constructor.
Qed.

End Inv.

Section Passes.
Context `{GoLib}.

Lemma Collect_few_objects c b w budget :
  steps (inv (fun _ => True) few_objects) (fun _ => True) (Collect_body c b w budget).
Proof.
  assert (Hobs : forall ms, Forall (fun m : Metric => few_objects (Observe m)) ms).
  { intros ms. now apply Forall_forall. }
  apply Collect_body_steps; intros.
  - apply inv_send. intros. apply Hobs.
  - now apply inv_open_ctl.
  - now apply inv_event.
  - apply inv_send. intros. apply Hobs.
  - now apply inv_with_registry.
  - now apply inv_phase.
  - now apply inv_with_registry.
  - now apply inv_phase.
Qed.

Lemma Collect_closes_pending c b w budget :
  steps (closes_pending w) (fun _ => True) (Collect_body c b w budget).
Proof.
  apply Collect_body_steps; intros;
    first [ apply closing_send | apply closing_open_ctl | apply closing_phase
          | apply closing_with_registry | apply closing_event; discriminate ].
Qed.

(** X13. [Collect] allocates at most four control objects, numbered 0 to 3 in
    the order of the [libknot.New()] calls; and when it returns, whichever
    way, [Close] has been called on every one it allocated; the same
    holds when it panics. *)
Theorem collect_closes_what_it_opens (c : KnotCollector) (b : BuildInfo) (w : World)
    (budget : nat) (reg : Registry) :
  let r := Collect c b w budget reg in
  (forall n, List.In (CtlNew n) (events r) -> (n < 4)%nat)
  /\ (finished r = true ->
      forall n, List.In (CtlNew n) (events r) -> sessions w n <> None ->
                List.In (CtlClose n) (events r))
  /\ (panicked r <> None ->
      forall n, List.In (CtlNew n) (events r) -> sessions w n <> None ->
                List.In (CtlClose n) (events r)).
Proof.
  cbv zeta. destruct (Collect_events c b w budget reg) as (_ & Hfin & Hev).
  set (st0 := {| trace := []; registry := reg; deferred := [] |}) in *.
  assert (Hclosed : finished (Collect c b w budget reg) = true
                    \/ panicked (Collect c b w budget reg) <> None ->
            forall n, List.In (CtlNew n) (events (Collect c b w budget reg)) ->
                      sessions w n <> None ->
                      List.In (CtlClose n) (events (Collect c b w budget reg))).
  { intros Ef n Hin Hs. rewrite (Hfin Ef) in *.
    destruct (Collect_closes_pending c b w budget st0) as [Hall _]; [intros k []|].
    apply in_app_or in Hin as [Hin|Hin].
    - apply in_or_app. right. apply in_map. now apply Hall.
    - apply in_map_iff in Hin as (k & E & _). discriminate. }
  split; [|split; intros E; apply Hclosed; auto].
  intros n Hin.
  destruct (Collect_few_objects c b w budget st0) as [[_ Hall] _];
    [split; [exact I|constructor]|].
  rewrite Forall_forall in Hall.
  destruct Hev as [E|E]; rewrite E in Hin.
  - apply list_elem_of_In in Hin. exact (Hall _ Hin).
  - apply in_app_or in Hin as [Hin|Hin].
    + apply list_elem_of_In in Hin. exact (Hall _ Hin).
    + apply in_map_iff in Hin as (k & E' & _). discriminate.
Qed.

Lemma observed_app es es' : observed (es ++ es') = (observed es ++ observed es')%list.
Proof. unfold observed. now rewrite List.map_app, List.concat_app. Qed.

Lemma observed_closes ns : observed (List.map CtlClose ns) = [].
Proof. induction ns as [|n ns IH]; [reflexivity|exact IH]. Qed.

Lemma observed_Forall (P : Metric -> Prop) es :
  Forall (event_metric P) es -> Forall P (observed es).
Proof.
  induction 1 as [|e es He _ IH]; [constructor|].
  unfold observed in *. cbn [List.map List.concat].
  apply Forall_app. split; [|exact IH]. destruct e; now repeat constructor.
Qed.

(** From an invariant of the events of the body to the observations of
    the pass. *)
Lemma Collect_observed (R : Registry -> Prop) (P : Metric -> Prop) c b w budget reg :
  steps (inv R (event_metric P)) (fun _ => True) (Collect_body c b w budget) ->
  R reg -> Forall P (observed (events (Collect c b w budget reg))).
Proof.
  intros Hb Hr. destruct (Collect_events c b w budget reg) as (_ & _ & Hev).
  destruct (Hb {| trace := []; registry := reg; deferred := [] |}) as [[_ Hall] _];
    [split; [exact Hr|constructor]|].
  apply observed_Forall in Hall.
  destruct Hev as [-> | ->]; [exact Hall|].
  rewrite observed_app, observed_closes, app_nil_r. exact Hall.
Qed.

Lemma pair_arity (d : DescPair) m labels :
  pair_metric d m -> labelValues m = labels ->
  List.length (variableLabels d.1) = List.length labels ->
  List.length (variableLabels d.2) = List.length labels -> arity_ok m.
Proof. unfold arity_ok. intros [[-> _]|[-> _]] -> H1 H2; congruence. Qed.

Lemma global_stat_facts reg m :
  registry_ok reg -> global_stat reg m ->
  arity_ok m /\ (first_dynamic_addr <= addr (desc m))%nat.
Proof.
  intros (Hg & _ & _) (item & p & sec & id & Hl & Hm & Hlab).
  destruct (Hg item p Hl) as (a & -> & Ha & _). split.
  - now apply (pair_arity _ m [sec; id] Hm Hlab).
  - destruct Hm as [[-> _]|[-> _]]; cbn; lia.
Qed.

Lemma zone_stat_facts reg m :
  registry_ok reg -> zone_stat reg m ->
  arity_ok m /\ (first_dynamic_addr <= addr (desc m))%nat.
Proof.
  intros (_ & Hz & _) (item & p & zone & sec & id & Hl & Hm & Hlab & _).
  destruct (Hz item p Hl) as (a & -> & Ha & _). split.
  - now apply (pair_arity _ m [zone; sec; id] Hm Hlab).
  - destruct Hm as [[-> _]|[-> _]]; cbn; lia.
Qed.

Lemma memory_metrics_shape (P : Metric -> Prop) w :
  (forall m pid, pair_metric memoryUsageDesc m -> labelValues m = [pid] -> P m) ->
  Forall P (memoryMetrics w).1.
Proof.
  intros HP. unfold memoryMetrics.
  induction (memUsage w) as [|[pid usage] l IH]; cbn [foldr].
  - constructor.
  - apply andThen_Forall; [|exact IH]. apply PhaseFacts.sendMetrics_pair.
    intros m Hm Hl _. now apply (HP m pid).
Qed.

(** The build-info statement sends the build-info observation or
    nothing. *)
Lemma build_info_sent (P : Metric -> Prop) c b :
  P (build_observation c b) -> Forall P (send1 (buildInfoMetric c b)).1.
Proof.
  intros HP. rewrite buildInfoMetric_valid.
  destruct (valid_build c b); repeat constructor. exact HP.
Qed.

(** **** The label count never fails *)

Lemma andThen_count a b :
  a.2 <> Some LabelCount -> b.2 <> Some LabelCount ->
  (andThen a b).2 <> Some LabelCount.
Proof. destruct a as [ma [wa|]]; [intros Ha _; exact Ha|intros _ Hb; exact Hb]. Qed.

Lemma globalStatsRecord_count reg dataType data :
  registry_ok reg -> (globalStatsRecord reg dataType data).2.2 <> Some LabelCount.
Proof.
  intros Hok. unfold globalStatsRecord.
  destruct (_ && _); [|discriminate].
  destruct (Strconv.ParseFloat (Data data)) as [v|]; [|discriminate].
  destruct (registry_ok_global (Item data) reg Hok) as [Hok' (a & E & _)].
  destruct (getGlobalStatsDescriptor (Item data) reg) as [d reg']. cbn [fst snd] in *.
  subst d. now apply sendMetrics_count.
Qed.

Lemma zoneStatsRecord_count reg dataType data :
  registry_ok reg -> (zoneStatsRecord reg dataType data).2.2 <> Some LabelCount.
Proof.
  intros Hok. unfold zoneStatsRecord.
  destruct (_ && _); [|discriminate].
  destruct (Strconv.ParseFloat (Data data)) as [v|]; [|discriminate].
  destruct (registry_ok_zone (Item data) reg Hok) as [Hok' (a & E & _)].
  destruct (getZoneStatsDescriptor (Item data) reg) as [d reg']. cbn [fst snd] in *.
  subst d. now apply sendMetrics_count.
Qed.

Lemma zoneStatusRecord_count c cur dataType data :
  (zoneStatusRecord c cur dataType data).2.2 <> Some LabelCount.
Proof.
  unfold zoneStatusRecord.
  destruct (_ || _); [|discriminate].
  destruct (_ && _); [discriminate|].
  destruct (_ && _); [|discriminate]. cbn [snd]. apply andThen_count.
  - destruct (_ && _); [|discriminate].
    destruct (Strconv.ParseFloat _); [|discriminate].
    now apply sendMetrics_count.
  - destruct (_ && _); [|discriminate].
    destruct (_ =? 7).
    + destruct (convertStateTime _); [|discriminate].
      now apply sendMetrics_count.
    + destruct (_ =? 9); [|discriminate].
      destruct (convertStateTime _); [|discriminate].
      now apply sendMetrics_count.
Qed.

Lemma zoneTimerRecord_count u dataType data :
  (zoneTimerRecord u dataType data).2.2 <> Some LabelCount.
Proof.
  unfold zoneTimerRecord.
  destruct (_ && _); [|discriminate].
  destruct (_ =? _)%nat; [|discriminate].
  destruct (_ && _); [|discriminate].
  destruct (parse_numeric _); [|discriminate]. cbn [snd].
  apply andThen_count; [|apply andThen_count]; now apply sendMetrics_count.
Qed.

Lemma memoryMetrics_count w : (memoryMetrics w).2 <> Some LabelCount.
Proof.
  unfold memoryMetrics.
  induction (memUsage w) as [|[pid usage] l IH]; cbn [foldr].
  - discriminate.
  - apply andThen_count; [|exact IH]. now apply sendMetrics_count.
Qed.

Lemma collectGlobalStats_count ctl budget reg :
  registry_ok reg ->
  registry_ok (final (collectGlobalStats ctl budget reg))
  /\ result (collectGlobalStats ctl budget reg) <> Panicked LabelCount.
Proof.
  intros Hok. split; [now apply collectGlobalStats_quiet|].
  unfold collectGlobalStats. destruct (SendCommand ctl "stats"); [discriminate|].
  intros E.
  refine (receive_loop_reason globalStatsRecord registry_ok (fun why => why <> LabelCount) ctl _
            budget 0%nat reg LabelCount Hok E eq_refl).
  intros st t d Hst. split; [now apply globalStatsRecord_quiet|].
  intros why Ew ->. now apply (globalStatsRecord_count st t d).
Qed.

Lemma collectZoneStatistics_count ctl budget reg :
  registry_ok reg ->
  registry_ok (final (collectZoneStatistics ctl budget reg))
  /\ result (collectZoneStatistics ctl budget reg) <> Panicked LabelCount.
Proof.
  intros Hok. split; [now apply collectZoneStatistics_quiet|].
  unfold collectZoneStatistics. destruct (SendCommand ctl "zone-stats"); [discriminate|].
  intros E.
  refine (receive_loop_reason zoneStatsRecord registry_ok (fun why => why <> LabelCount) ctl _
            budget 0%nat reg LabelCount Hok E eq_refl).
  intros st t d Hst. split; [now apply zoneStatsRecord_quiet|].
  intros why Ew ->. now apply (zoneStatsRecord_count st t d).
Qed.

Lemma collectZoneStatusInfo_count c ctl budget :
  result (collectZoneStatusInfo c ctl budget) <> Panicked LabelCount.
Proof.
  unfold collectZoneStatusInfo. destruct (SendCommand ctl "zone-status"); [discriminate|].
  intros E.
  refine (receive_loop_reason (zoneStatusRecord c) (fun _ => True) (fun why => why <> LabelCount) ctl _
            budget 0%nat _ LabelCount I E eq_refl).
  intros st t d _. split; [exact I|].
  intros why Ew ->. now apply (zoneStatusRecord_count c st t d).
Qed.

Lemma collectZoneTimerInfo_count ctl :
  result (collectZoneTimerInfo ctl) <> Panicked LabelCount.
Proof.
  unfold collectZoneTimerInfo.
  destruct (SendCommandWithType ctl "zone-read" "SOA"); [discriminate|].
  destruct (leave_at_bound_spec
              (receive_loop zoneTimerRecord ctl (Z.to_nat maxResponses) 0 tt))
    as (_ & _ & ->).
  pose proof (receive_loop_reason zoneTimerRecord (fun _ => True)
                (fun why => why <> LabelCount) ctl
                ltac:(intros st t d _; split; [exact I|];
                      intros why E ->; now apply (zoneTimerRecord_count st t d))
                (Z.to_nat maxResponses) 0%nat tt LabelCount I) as Hq.
  destruct (result _) as [e|why|]; [discriminate| |discriminate].
  intros E. injection E as ->. now apply Hq.
Qed.

Section Only.
Context (R : refusal -> Prop).

Lemma only_ret {A : Type} (a : A) : panics_only R (mret a : M A).
Proof. intros st Hok. split; [assumption|discriminate]. Qed.

Lemma only_return {A : Type} : panics_only R (return_ : M A).
Proof. intros st Hok. split; [assumption|discriminate]. Qed.

Lemma only_bind {A B : Type} (m : M A) (f : A -> M B) :
  panics_only R m -> (forall a, panics_only R (f a)) -> panics_only R (m ≫= f).
Proof.
  intros Hm Hf st Hok. destruct (Hm st Hok) as [Hok' Hp].
  unfold mbind, M_bind. destruct (m st) as [[a| |why|] st']; cbn [fst snd] in *.
  - now apply Hf.
  - split; [assumption|discriminate].
  - split; [assumption|]. intros why' E. injection E as <-. now apply Hp.
  - split; [assumption|discriminate].
Qed.

Lemma only_event e : panics_only R (event_ e).
Proof. intros st Hok. split; [assumption|discriminate]. Qed.

Lemma only_defer n : panics_only R (defer_Close n).
Proof. intros st Hok. split; [assumption|discriminate]. Qed.

Lemma only_send s : (forall why, s.2 = Some why -> R why) -> panics_only R (send s).
Proof.
  intros Hs st Hok. unfold send. destruct s.2 as [why|]; cbn [fst snd registry];
    (split; [assumption|]); [|discriminate].
  intros why' E. injection E as <-. now apply Hs.
Qed.

Lemma only_when b (m : M unit) : panics_only R m -> panics_only R (when b m).
Proof. intros Hm. destruct b; [assumption|apply only_ret]. Qed.

Lemma only_phase {St : Type} (r : PhaseResult St) :
  (forall why, result r = Panicked why -> R why) -> panics_only R (phase r).
Proof.
  intros Hr st Hok. unfold phase.
  destruct (result r) as [e|why|]; cbn [fst snd registry];
    (split; [assumption|]); try discriminate.
  intros why' E. injection E as <-. now apply Hr.
Qed.

Lemma only_with_registry (f : Registry -> PhaseResult Registry) :
  (forall reg, registry_ok reg ->
     registry_ok (final (f reg)) /\ forall why, result (f reg) = Panicked why -> R why) ->
  panics_only R (with_registry f).
Proof.
  intros Hf st Hok. destruct (Hf (registry st) Hok) as [Hfin Hp].
  unfold with_registry, phase.
  destruct (result (f (registry st))) as [e|why|]; cbn [fst snd registry];
    (split; [assumption|]); try discriminate.
  intros why' E. injection E as <-. now apply Hp.
Qed.

Lemma only_open_ctl c w n : panics_only R (open_ctl c w n).
Proof.
  unfold open_ctl. apply only_bind; [apply only_event|intros _].
  destruct (sessions w n) as [s|]; [|apply only_return].
  apply only_bind; [apply only_defer|intros _].
  apply only_bind; [apply only_event|intros _].
  destruct (connectError s); [apply only_return|].
  apply only_bind; [apply only_event|intros _]. apply only_ret.
Qed.

End Only.

(** The panics of a pass come from label values, or from a descriptor
    that the library refuses, never from the label count. *)
Lemma Collect_body_count c b w budget :
  panics_only (fun why => why <> LabelCount) (Collect_body c b w budget).
Proof.
  unfold Collect_body.
  apply only_bind.
  { apply only_send. intros why. rewrite buildInfoMetric_valid.
    destruct (valid_build c b); [discriminate|]. intros E. now injection E as <-. }
  intros _. apply only_bind; [apply only_open_ctl|intros ctl0].
  apply only_bind.
  { apply only_when, only_send. intros why E ->. now apply (memoryMetrics_count w). }
  intros _. apply only_bind.
  { apply only_when, only_with_registry. intros reg Hok.
    destruct (collectGlobalStats_count ctl0 budget reg Hok) as [Hfin Hp].
    split; [assumption|]. now intros why E ->. }
  intros _. apply only_bind; [apply only_event|intros _].
  apply only_bind; [apply only_open_ctl|intros ctl1].
  apply only_bind.
  { apply only_when, only_bind; [|intros; apply only_ret].
    apply only_phase. intros why E ->.
    now apply (collectZoneStatusInfo_count c ctl1 budget). }
  intros _. apply only_bind.
  { destruct (collectZoneStats c); [|apply only_ret].
    apply only_bind; [apply only_event|intros _].
    apply only_bind; [apply only_open_ctl|intros ctl2].
    apply only_bind; [|intros; apply only_ret].
    apply only_with_registry. intros reg Hok.
    destruct (collectZoneStatistics_count ctl2 budget reg Hok) as [Hfin Hp].
    split; [assumption|]. now intros why E ->. }
  intros last. apply only_when.
  apply only_bind; [apply only_event|intros _].
  apply only_bind; [apply only_open_ctl|intros ctl3].
  apply only_bind; [|intros; apply only_ret].
  apply only_phase. intros why E ->. now apply (collectZoneTimerInfo_count ctl3).
Qed.

Lemma Collect_arity c b w budget :
  steps (inv registry_ok (event_metric arity_ok)) (fun _ => True)
    (Collect_body c b w budget).
Proof.
  apply Collect_body_steps.
  - apply inv_send. intros. now apply build_info_sent.
  - intros. now apply inv_open_ctl.
  - intros. now apply inv_event.
  - intros _. apply inv_send. intros. apply memory_metrics_shape.
    intros m pid Hm Hl. now apply (pair_arity _ m [pid] Hm Hl).
  - intros _ k. apply inv_with_registry. intros reg Hok.
    destruct (PhaseFacts.global_stats_grows k budget reg Hok) as (Hok' & _ & Hall).
    split; [|assumption]. eapply Forall_impl; [exact Hall|].
    intros m Hm. now apply (global_stat_facts _ m Hok').
  - intros _ k. apply inv_phase. intros _ _.
    eapply Forall_impl; [apply PhaseFacts.zone_status_shape|].
    intros m ([zone [Hl _]] & [[_ Hm]|[_ [Hm|Hm]]]);
      now apply (pair_arity _ m [zone] Hm Hl).
  - intros _ k. apply inv_with_registry. intros reg Hok.
    destruct (PhaseFacts.zone_stats_grows k budget reg Hok) as (Hok' & _ & Hall).
    split; [|assumption]. eapply Forall_impl; [exact Hall|].
    intros m Hm. now apply (zone_stat_facts _ m Hok').
  - intros _ k. apply inv_phase. intros _ _.
    eapply Forall_impl; [apply PhaseFacts.zone_timer_shape|].
    intros m ([zone [Hl _]] & [Hm|[Hm|Hm]]);
      now apply (pair_arity _ m [zone] Hm Hl).
Qed.

(** X15. Every observation of a pass has as many label values as its
    descriptor has variable labels, the dynamic descriptors included: the
    label count that [MustNewConstMetric] checks never fails, so that no
    pass panics for it. *)
Theorem collect_label_arity (c : KnotCollector) (b : BuildInfo) (w : World)
    (budget : nat) (reg : Registry) :
  reachable reg ->
  Forall arity_ok (observed (events (Collect c b w budget reg)))
  /\ panicked (Collect c b w budget reg) <> Some LabelCount.
Proof.
  intros Hr. split.
  - apply (Collect_observed registry_ok); [apply Collect_arity|].
    now apply reachable_ok.
  - unfold Collect.
    destruct (Collect_body_count c b w budget
                {| trace := []; registry := reg; deferred := [] |}
                (reachable_ok reg Hr)) as [_ Hp].
    destruct (Collect_body c b w budget _) as [[a| |why|] st];
      cbn [panicked fst] in *; try discriminate.
    intros E. injection E as ->. now apply (Hp LabelCount).
Qed.

Lemma pair_announced c (d : DescPair) m :
  pair_metric d m -> List.In d.1 (Describe c) -> List.In d.2 (Describe c) ->
  announced c m.
Proof. intros [[E _]|[E _]] H1 H2; right; now rewrite E. Qed.

Import DescriptorFacts.

Lemma Collect_announced c b w budget :
  (collectZoneStatus c = true -> collectZoneTimers c = true) ->
  steps (inv registry_ok (event_metric (announced c))) (fun _ => True)
    (Collect_body c b w budget).
Proof.
  intros Himp. apply Collect_body_steps.
  - apply inv_send. intros. apply build_info_sent. right. now left.
  - intros. now apply inv_open_ctl.
  - intros. now apply inv_event.
  - intros Hopt. apply inv_send. intros. apply memory_metrics_shape. intros m pid Hm _.
    apply (pair_announced c _ m Hm); unfold Describe; rewrite Hopt; in_list.
  - intros _ k. apply inv_with_registry. intros reg Hok.
    destruct (PhaseFacts.global_stats_grows k budget reg Hok) as (Hok' & _ & Hall).
    split; [|assumption]. eapply Forall_impl; [exact Hall|].
    intros m Hm. left. now apply (global_stat_facts _ m Hok').
  - intros _ k. apply inv_phase. intros _ _.
    eapply Forall_impl; [apply PhaseFacts.zone_status_shape|].
    intros m (_ & [[Hs Hm]|[Hs Hm]]).
    + apply (pair_announced c _ m Hm); unfold Describe; rewrite Hs;
        destruct (collectMemInfo c); in_list.
    + specialize (Himp Hs).
      destruct Hm as [Hm|Hm]; apply (pair_announced c _ m Hm);
        unfold Describe; rewrite Himp;
        destruct (collectMemInfo c), (collectZoneSerial c); in_list.
  - intros _ k. apply inv_with_registry. intros reg Hok.
    destruct (PhaseFacts.zone_stats_grows k budget reg Hok) as (Hok' & _ & Hall).
    split; [|assumption]. eapply Forall_impl; [exact Hall|].
    intros m Hm. left. now apply (zone_stat_facts _ m Hok').
  - intros Hopt k. apply inv_phase. intros _ _.
    eapply Forall_impl; [apply PhaseFacts.zone_timer_shape|].
    intros m (_ & Hm).
    destruct Hm as [Hm|[Hm|Hm]]; apply (pair_announced c _ m Hm);
      unfold Describe; rewrite Hopt;
      destruct (collectMemInfo c), (collectZoneSerial c); in_list.
Qed.

(** X16. [Describe] announces the zone-status refresh and expiration
    descriptors under the timers option, while the zone-status phase emits
    them under the zone-status option.  When the zone-status option is off
    or the timers option is on, every observation of a pass carries a
    descriptor that [Describe] announces or one made on demand by the
    registries. *)
Theorem collect_observes_announced (c : KnotCollector) (b : BuildInfo) (w : World)
    (budget : nat) (reg : Registry) :
  reachable reg ->
  (collectZoneStatus c = true -> collectZoneTimers c = true) ->
  Forall (announced c) (observed (events (Collect c b w budget reg))).
Proof.
  intros Hr Himp. apply (Collect_observed registry_ok); [now apply Collect_announced|].
  now apply reachable_ok.
Qed.

(** *** A pass whose connections all succeed *)

Lemma run_bind {A B : Type} (m : M A) (f : A -> M B) st a st' :
  m st = (Next a, st') -> (m ≫= f) st = f a st'.
Proof. intros E. unfold mbind, M_bind. now rewrite E. Qed.

Lemma run_send s st :
  s.2 = None ->
  send s st
  = (Next tt, {| trace := (trace st ++ List.map Observe s.1)%list;
                 registry := registry st; deferred := deferred st |}).
Proof. intros E. unfold send. now rewrite E. Qed.

Lemma run_event e st :
  event_ e st
  = (Next tt, {| trace := (trace st ++ [e])%list; registry := registry st;
                 deferred := deferred st |}).
Proof. reflexivity. Qed.

Lemma run_ret {A : Type} (a : A) st : (mret a : M A) st = (Next a, st).
Proof. reflexivity. Qed.

Lemma run_open c w n s st :
  sessions w n = Some s -> connectError s = None ->
  open_ctl c w n st
  = (Next (ctl s),
     {| trace := (trace st ++ [CtlNew n; CtlConnect n (sockPath c);
                               CtlSetTimeout n (timeout c)])%list;
        registry := registry st; deferred := n :: deferred st |}).
Proof.
  intros Hs Hc. unfold open_ctl, mbind, M_bind, event_, defer_Close, mret, M_ret.
  rewrite Hs, Hc. cbn. now rewrite <- !app_assoc.
Qed.

Lemma run_phase {St : Type} (r : PhaseResult St) st :
  (exists err, result r = Returned err) ->
  phase r st
  = (Next (final r),
     {| trace := (trace st ++ List.map Observe (emitted r))%list;
        registry := registry st; deferred := deferred st |}).
Proof. intros [err E]. unfold phase. now rewrite E. Qed.

Lemma run_with_registry (f : Registry -> PhaseResult Registry) st :
  (exists err, result (f (registry st)) = Returned err) ->
  with_registry f st
  = (Next tt, {| trace := (trace st ++ List.map Observe (emitted (f (registry st))))%list;
                 registry := final (f (registry st)); deferred := deferred st |}).
Proof. intros [err E]. unfold with_registry, phase. now rewrite E. Qed.

Lemma observed_Observe ms : observed (List.map Observe ms) = ms.
Proof.
  unfold observed. induction ms as [|m ms IH]; [reflexivity|].
  cbn [List.map List.concat app]. now rewrite IH.
Qed.

Section Online.
Context (c : KnotCollector) (b : BuildInfo) (w : World) (budget : nat).
Context (s0 s1 s2 s3 : Session).
Hypothesis open0 : sessions w 0%nat = Some s0 /\ connectError s0 = None.
Hypothesis open1 : sessions w 1%nat = Some s1 /\ connectError s1 = None.
Hypothesis open2 : sessions w 2%nat = Some s2 /\ connectError s2 = None.
Hypothesis open3 : sessions w 3%nat = Some s3 /\ connectError s3 = None.
Hypothesis ends : streams_end w budget.
Hypothesis valid : valid_build c b = true.
Hypothesis clean : clean_world w.

Lemma settled {St : Type} (r : PhaseResult St) :
  result r <> Receiving -> (forall why, result r <> Panicked why) ->
  exists err, result r = Returned err.
Proof.
  intros Hr Hp. destruct (result r) as [err|why|]; [now exists err| |contradiction].
  now destruct (Hp why).
Qed.

Lemma session_returns n s :
  sessions w n = Some s ->
  (forall reg, registry_ok reg ->
     exists err, result (collectGlobalStats (ctl s) budget reg) = Returned err)
  /\ (exists err, result (collectZoneStatusInfo c (ctl s) budget) = Returned err)
  /\ (forall reg, registry_ok reg ->
        exists err, result (collectZoneStatistics (ctl s) budget reg) = Returned err)
  /\ (exists err, result (collectZoneTimerInfo (ctl s)) = Returned err).
Proof.
  intros Hs. destruct (ends n s Hs) as (k & Hk & Hstop).
  pose proof (proj2 clean n s Hs) as Hc. repeat split; intros; apply settled.
  - now apply (collectGlobalStats_returns _ _ _ k).
  - now apply collectGlobalStats_calm.
  - now apply (collectZoneStatusInfo_returns _ _ _ k).
  - now apply collectZoneStatusInfo_calm.
  - now apply (collectZoneStatistics_returns _ _ _ k).
  - now apply collectZoneStatistics_calm.
  - apply zone_timer_ends.
  - now apply collectZoneTimerInfo_calm.
Qed.

Lemma global_stats_keep_ok reg :
  registry_ok reg -> registry_ok (final (collectGlobalStats (ctl s0) budget reg)).
Proof.
  intros Hok. apply collectGlobalStats_calm; [assumption|].
  apply (proj2 clean 0%nat s0), open0.
Qed.

Ltac registry_step :=
  cbn [registry]; first [ assumption | apply global_stats_keep_ok; assumption ].

Ltac run_prim :=
  first [ apply run_send; first [ reflexivity | apply memoryMetrics_calm, clean ]
        | apply run_event | apply run_ret
        | apply run_open; [apply open0|apply open0]
        | apply run_open; [apply open1|apply open1]
        | apply run_open; [apply open2|apply open2]
        | apply run_open; [apply open3|apply open3]
        | apply run_phase; first [ apply (session_returns 1 s1), open1
                                 | apply (session_returns 2 s2), open2
                                 | apply (session_returns 3 s3), open3 ]
        | apply run_with_registry;
          first [ apply (session_returns 0 s0 (proj1 open0)); registry_step
                | apply (session_returns 2 s2 (proj1 open2)); registry_step ] ].

Ltac run :=
  cbv beta; cbn [trace registry deferred];
  lazymatch goal with
  | |- (_ ≫= _) _ = _ => erewrite run_bind; [|solve [run]]; run
  | |- _ => run_prim
  end.

Lemma Collect_body_online reg :
  registry_ok reg ->
  let g := collectGlobalStats (ctl s0) budget reg in
  let reg1 := if collectStats c then final g else reg in
  let zs := collectZoneStatusInfo c (ctl s1) budget in
  let zst := collectZoneStatistics (ctl s2) budget reg1 in
  let zt := collectZoneTimerInfo (ctl (if collectZoneStats c then s3 else s2)) in
  exists st,
    Collect_body c b w budget {| trace := []; registry := reg; deferred := [] |}
    = (Next tt, st)
    /\ observed (trace st)
       = (build_observation c b
          :: (if collectMemInfo c then (memoryMetrics w).1 else [])
          ++ (if collectStats c then emitted g else [])
          ++ (if collectZoneStatus c || collectZoneSerial c then emitted zs else [])
          ++ (if collectZoneStats c then emitted zst else [])
          ++ (if collectZoneTimers c then emitted zt else []))%list
    /\ registry st = (if collectZoneStats c then final zst else reg1).
Proof.
  intros Hok. cbv zeta. unfold Collect_body.
  rewrite buildInfoMetric_valid, valid. cbn [send1].
  destruct (collectMemInfo c), (collectStats c),
    (collectZoneStatus c || collectZoneSerial c), (collectZoneStats c),
    (collectZoneTimers c); cbn [when]; eexists; (split; [run|]);
    cbn [registry trace deferred fst snd]; (split; [|reflexivity]);
    rewrite ?observed_app, ?observed_Observe;
    cbn [observed List.map List.concat app];
    rewrite ?app_nil_r; cbn [app]; rewrite <- ?app_assoc; reflexivity.
Qed.

(** X14. When the four control objects connect, every stream ends, and the
    build strings, the pids and the records of the streams are clean (valid
    UTF-8, plain statistic names), the pass returns, and what it observed
    is the build-info observation, then the memory observations, then what
    each enabled phase emitted, in the order global statistics, zone
    status, zone statistics, zone timers.  An error that a phase returns is
    only logged: the later phases still run and nothing they emit is
    lost. *)
Theorem collect_runs_every_phase (reg : Registry) :
  reachable reg ->
  let g := collectGlobalStats (ctl s0) budget reg in
  let reg1 := if collectStats c then final g else reg in
  let zs := collectZoneStatusInfo c (ctl s1) budget in
  let zst := collectZoneStatistics (ctl s2) budget reg1 in
  let zt := collectZoneTimerInfo (ctl (if collectZoneStats c then s3 else s2)) in
  let r := Collect c b w budget reg in
  finished r = true
  /\ panicked r = None
  /\ observed (events r)
     = (build_observation c b
        :: (if collectMemInfo c then (memoryMetrics w).1 else [])
        ++ (if collectStats c then emitted g else [])
        ++ (if collectZoneStatus c || collectZoneSerial c then emitted zs else [])
        ++ (if collectZoneStats c then emitted zst else [])
        ++ (if collectZoneTimers c then emitted zt else []))%list
  /\ registry_after r = (if collectZoneStats c then final zst else reg1).
Proof.
  intros Hr. cbv zeta.
  destruct (Collect_body_online reg (reachable_ok reg Hr)) as (st & E & Ho & Hreg).
  unfold Collect. rewrite E. cbn [finished panicked events registry_after].
  split; [reflexivity|]. split; [reflexivity|]. split; [|exact Hreg].
  now rewrite observed_app, observed_closes, app_nil_r.
Qed.

End Online.

End Passes.

Lemma scripted_clean sendResult rs :
  Forall (fun r => match r with
                   | Recv _ data => clean_record data = true
                   | RecvError _ => True
                   end) rs ->
  clean_stream (scripted sendResult rs).
Proof.
  intros Hall j t d. cbn [scripted ReceiveResponse].
  destruct (rs !! j) as [r|] eqn:E; simpl.
  - intros ->. apply list_elem_of_lookup_2 in E.
    exact (proj1 (Forall_forall _ _) Hall _ E).
  - intros Er. injection Er as _ <-. reflexivity.
Qed.

Lemma online_streams_end : streams_end online_world 16.
Proof.
  intros n s Hs. injection Hs as <-. cbn [ctl].
  destruct n as [|[|[|n]]]; [exists 3%nat|exists 10%nat|exists 3%nat|exists 1%nat];
    (split; [lia|left; reflexivity]).
Qed.

Lemma online_world_clean : clean_world online_world.
Proof.
  split; [repeat constructor|].
  intros n s Hs. injection Hs as <-. cbn [ctl].
  destruct n as [|[|[|n]]]; apply scripted_clean; repeat constructor.
Qed.

Lemma collect_runs_every_phase_witness :
  finished (Collect example_collector example_build online_world 16 initial_registry)
  = true
  /\ List.length
       (observed (events (Collect example_collector example_build online_world 16
                            initial_registry))) = 21%nat.
Proof.
  destruct (@collect_runs_every_phase plainLib example_collector example_build
              online_world 16%nat _ _ _ _
              (conj eq_refl eq_refl) (conj eq_refl eq_refl) (conj eq_refl eq_refl)
              (conj eq_refl eq_refl) online_streams_end eq_refl online_world_clean
              initial_registry reachable_initial)
    as (Hfin & _ & Hobs & _).
  split; [exact Hfin|]. rewrite Hobs. vm_compute. reflexivity.
Defined.

Lemma collect_label_arity_witness :
  Forall arity_ok
    (observed (events (Collect example_collector example_build online_world 16
                         initial_registry)))
  /\ panicked (Collect example_collector example_build online_world 16 initial_registry)
     <> Some LabelCount.
Proof.
  exact (@collect_label_arity plainLib example_collector example_build online_world
           16%nat initial_registry reachable_initial).
Defined.

Lemma collect_observes_announced_witness :
  Forall (announced example_collector)
    (observed (events (Collect example_collector example_build online_world 16
                         initial_registry))).
Proof.
  exact (@collect_observes_announced plainLib example_collector example_build
           online_world 16%nat initial_registry reachable_initial (fun _ => eq_refl)).
Defined.

End CollectMore.

(** ** The control object and the connection test *)

Module LibknotFacts.
Import Libknot LibknotCtl Main StringFacts.

(** X19. A closed control object is inert: [Close] sends END, closes and frees
    the handle once and forgets it; after that a second [Close] and
    [SetTimeout] make no call into libknot, and [Connect], [SendCommand],
    [SendCommandWithType] and [ReceiveResponse] make none either and
    return the "control object not initialized" error of their kind. *)
Theorem closed_object_is_inert (k : Ctl) :
  let k' := (Close k).1 in
  ctl k' = None
  /\ (forall h, ctl k = Some h ->
        (Close k).2 = [knot_ctl_send h CtlTypeEnd None; knot_ctl_close h; knot_ctl_free h])
  /\ (ctl k = None -> (Close k).2 = [])
  /\ Close k' = (k', [])
  /\ (forall timeout, SetTimeout k' timeout = [])
  /\ (forall path ret strerror,
        Connect k' path ret strerror = (Some (not_initialized "connect"), []))
  /\ (forall cmd r1 r2 strerror,
        SendCommand k' cmd r1 r2 strerror = (Some (not_initialized "send"), []))
  /\ (forall cmd rtype r1 r2 strerror,
        SendCommandWithType k' cmd rtype r1 r2 strerror
        = (Some (not_initialized "send"), []))
  /\ (forall ret dataType raw strerror,
        ReceiveResponse k' ret dataType raw strerror
        = ((0, None, Some (not_initialized "receive")), [])).
Proof.
  cbv zeta. assert (E : ctl (Close k).1 = None).
  { unfold Close. now destruct (ctl k) eqn:Ek. }
  split; [exact E|]. split; [intros h Hk; unfold Close; now rewrite Hk|].
  split; [intros Hk; unfold Close; now rewrite Hk|].
  unfold Close at 1, SetTimeout, Connect, SendCommand, SendCommandWithType, send_with,
    ReceiveResponse.
  rewrite E. now repeat split.
Qed.

(** X20. The timeout that reaches libknot is never negative and never above
    the largest [C.int]: a Go timeout in that range is passed as it is, a
    negative one becomes 0 and a larger one the largest [C.int]; the
    conversion keeps the order of timeouts. *)
Theorem SetTimeout_clamps (k : Ctl) (timeout : Z) :
  Forall (fun c => exists h ms,
             ctl k = Some h /\ c = knot_ctl_set_timeout h ms /\ 0 <= ms <= 2147483647)
    (SetTimeout k timeout)
  /\ (0 <= timeout <= 2147483647 -> cTimeout timeout = timeout)
  /\ (timeout < 0 -> cTimeout timeout = 0)
  /\ (2147483647 < timeout -> cTimeout timeout = 2147483647)
  /\ (forall timeout', timeout <= timeout' -> cTimeout timeout <= cTimeout timeout').
Proof.
  assert (Hr : forall t, 0 <= cTimeout t <= 2147483647
                         /\ (0 <= t <= 2147483647 -> cTimeout t = t)
                         /\ (t < 0 -> cTimeout t = 0)
                         /\ (2147483647 < t -> cTimeout t = 2147483647)).
  { intros t. unfold cTimeout.
    destruct (Z.ltb_spec 0 t), (Z.leb_spec t 2147483647), (Z.leb_spec t 0);
      cbn [andb]; lia. }
  split.
  - unfold SetTimeout. destruct (ctl k) as [h|]; [|constructor].
    constructor; [|constructor]. exists h, (cTimeout timeout).
    repeat split; apply Hr.
  - destruct (Hr timeout) as (_ & H1 & H2 & H3). repeat split; try assumption.
    intros t' Hle. destruct (Hr t') as (R' & H1' & H2' & H3').
    destruct (Hr timeout) as (R & _).
    destruct (Z.lt_ge_cases timeout 0); [rewrite H2 by lia; lia|].
    destruct (Z.le_gt_cases timeout 2147483647).
    + rewrite H1 by lia. destruct (Z.le_gt_cases t' 2147483647).
      * rewrite H1' by lia. lia.
      * rewrite H3' by lia. lia.
    + rewrite H3, H3' by lia. lia.
Qed.

Lemma until_nul_clean s : str_all (fun c => negb (byte_val c =? 0)) (until_nul s) = true.
Proof.
  induction s as [|c s IH]; [reflexivity|]. cbn [until_nul].
  destruct (byte_val c =? 0) eqn:E; [reflexivity|]. cbn [str_all]. now rewrite E, IH.
Qed.

Lemma until_nul_fixed s :
  str_all (fun c => negb (byte_val c =? 0)) s = true -> until_nul s = s.
Proof.
  induction s as [|c s IH]; [reflexivity|]. cbn [str_all until_nul]. intros Hc.
  apply andb_prop in Hc as [Hc Hs]. apply negb_true_iff in Hc. now rewrite Hc, IH.
Qed.

Lemma str_take_clean p n : forall s, str_all p s = true -> str_all p (str_take n s) = true.
Proof.
  induction n as [|n IH]; intros [|c s]; try reflexivity. cbn [str_all str_take].
  intros Hc. apply andb_prop in Hc as [Hc Hs]. now rewrite Hc, IH.
Qed.

Lemma str_take_length n : forall s, (String.length (str_take n s) <= n)%nat.
Proof.
  induction n as [|n IH]; intros [|c s]; cbn; try lia. specialize (IH s). lia.
Qed.

Lemma str_take_short n : forall s, (String.length s <= n)%nat -> str_take n s = s.
Proof.
  induction n as [|n IH]; intros [|c s] Hl; cbn in *; try reflexivity; try lia.
  rewrite IH; [reflexivity|lia].
Qed.

Lemma copy_field_spec src :
  (String.length (copy_field src bufSize) <= 1023)%nat
  /\ str_all (fun c => negb (byte_val c =? 0)) (copy_field src bufSize) = true
  /\ match src with
     | None => copy_field src bufSize = ""
     | Some s =>
         (exists rest, until_nul s = copy_field src bufSize +:+ rest)
         /\ ((String.length s <= 1023)%nat ->
             str_all (fun c => negb (byte_val c =? 0)) s = true ->
             copy_field src bufSize = s)
     end.
Proof.
  unfold copy_field, bufSize. change (1024 - 1)%nat with 1023%nat.
  destruct src as [s|]; [|repeat split; cbn; lia].
  split; [apply str_take_length|]. split; [apply str_take_clean, until_nul_clean|].
  split.
  - exists (str_drop 1023 (until_nul s)). apply UtilsMore.str_take_drop.
  - intros Hl Hc. rewrite (until_nul_fixed s Hc). now apply str_take_short.
Qed.

(** X21. [ReceiveResponse] returns data exactly when it returns no error, so
    the collector, which reads the data only after checking the error,
    never reads a nil pointer.  The data then carries the type libknot
    gave, and each of its five fields is at most 1023 bytes long (the
    buffers hold 1024), has no NUL byte, is the empty string for a NULL
    entry and otherwise a prefix of the entry: the entry itself when that
    has at most 1023 bytes. *)
Theorem ReceiveResponse_fields (k : Ctl) (ret : Z) (dataType : CtlType) (raw : RawData)
    (strerror : Z -> string) :
  let '(type, data, err, calls) := ReceiveResponse k ret dataType raw strerror in
  (err = None <-> data <> None)
  /\ (err = None <-> ctl k <> None /\ ret = 0)
  /\ (forall d, data = Some d ->
        type = dataType
        /\ Forall (fun f => (String.length f <= 1023)%nat
                            /\ str_all (fun c => negb (byte_val c =? 0)) f = true)
             (fields d)
        /\ Forall2 (fun f src =>
                      match src with
                      | None => f = ""
                      | Some s =>
                          (exists rest, until_nul s = f +:+ rest)
                          /\ ((String.length s <= 1023)%nat ->
                              str_all (fun c => negb (byte_val c =? 0)) s = true ->
                              f = s)
                      end)
             (fields d) (raw_fields raw)).
Proof.
  unfold ReceiveResponse, receive_simple_response.
  destruct (ctl k) as [h|]; [|repeat split; try discriminate; intros []; congruence].
  destruct (Z.eqb_spec ret 0) as [->|Hne]; cbn [negb].
  - change (0 =? 0) with true. cbn [negb]. split; [split; [discriminate|reflexivity]|].
    split; [split; [intros _; split; [discriminate|reflexivity]|reflexivity]|].
    intros d E. injection E as <-. split; [reflexivity|].
    unfold fields, raw_fields. cbn [Section_ ID Item Zone Data].
    pose proof (copy_field_spec (raw_section raw)) as (A1 & B1 & C1).
    pose proof (copy_field_spec (raw_id raw)) as (A2 & B2 & C2).
    pose proof (copy_field_spec (raw_item raw)) as (A3 & B3 & C3).
    pose proof (copy_field_spec (raw_zone raw)) as (A4 & B4 & C4).
    pose proof (copy_field_spec (raw_data raw)) as (A5 & B5 & C5).
    split.
    + do 5 (constructor; [split; assumption|]). constructor.
    + do 5 (constructor; [assumption|]). constructor.
  - destruct (Z.eqb_spec ret 0) as [|_]; [contradiction|]. cbn [negb].
    split; [split; [discriminate|congruence]|].
    split; [split; [discriminate|intros [_ E]; contradiction]|]. discriminate.
Qed.

(** X22. Sending a command: nil is returned exactly when the object is open
    and both units, DATA and BLOCK, were sent; BLOCK is not sent when DATA
    failed; the error carries libknot's text for the first failure; and an
    empty record type is no record type: [SendCommandWithType(cmd, "")]
    does what [SendCommand(cmd)] does. *)
Theorem SendCommand_units (k : Ctl) (cmd : string) (ret_data ret_block : Z)
    (strerror : Z -> string) :
  SendCommandWithType k cmd "" ret_data ret_block strerror
  = SendCommand k cmd ret_data ret_block strerror
  /\ ((SendCommand k cmd ret_data ret_block strerror).1 = None
      <-> ctl k <> None /\ ret_data = 0 /\ ret_block = 0)
  /\ (forall h, ctl k = Some h ->
        SendCommand k cmd ret_data ret_block strerror
        = if negb (ret_data =? 0)
          then (Some (CtlError "send" (strerror ret_data)),
                [knot_ctl_send h CtlTypeData (Some (until_nul cmd, None))])
          else (if negb (ret_block =? 0)
                then Some (CtlError "send" (strerror ret_block)) else None,
                [knot_ctl_send h CtlTypeData (Some (until_nul cmd, None));
                 knot_ctl_send h CtlTypeBlock None])).
Proof.
  unfold SendCommandWithType, SendCommand, send_with, send_command_with_type.
  split; [reflexivity|].
  destruct (ctl k) as [h|];
    [|split; [split; [discriminate|intros [[] _]; reflexivity]|discriminate]].
  cbn [until_nul str_nonempty].
  destruct (Z.eqb_spec ret_data 0) as [->|Hd]; cbn [negb fst snd].
  - destruct (Z.eqb_spec ret_block 0) as [->|Hb]; cbn [negb fst snd].
    + split; [|intros h' E; now injection E as <-].
      split; [intros _; repeat split; discriminate|reflexivity].
    + split; [|intros h' E; now injection E as <-].
      split; [discriminate|intros (_ & _ & E); contradiction].
  - destruct (Z.eqb_spec ret_data 0) as [|_]; [contradiction|]. cbn [negb].
    split; [|intros h' E; now injection E as <-].
    split; [discriminate|intros (_ & E & _); contradiction].
Qed.

(** *** The connection test *)




End LibknotFacts.

(** ** Memory usage *)

Module MemoryFacts.
Import Collector.

Lemma vmRSS_range lines : 0 <= vmRSS lines < 2 ^ 64 /\ (vmRSS lines) mod 1024 = 0.
Proof.
  induction lines as [|line rest IH]; cbn [vmRSS]; [split; [lia|reflexivity]|].
  destruct (Strings.HasPrefix line "VmRSS:"); [|exact IH].
  destruct (2 <=? _)%nat; [|split; [lia|reflexivity]].
  destruct (Strconv.ParseUint64 _) as [kb|]; [|split; [lia|reflexivity]].
  split; [apply Z.mod_pos_bound; lia|].
  change (2 ^ 64) with (1024 * 2 ^ 54). rewrite Z.mul_comm.
  rewrite Zmult_mod_distr_l. now rewrite Z.mul_comm, Z.mod_mul.
Qed.

Lemma getProcessMemory_spec host pid :
  0 <= getProcessMemory host pid < 2 ^ 64
  /\ (getProcessMemory host pid) mod 1024 = 0
  /\ (0 < getProcessMemory host pid ->
      1 <= pid <= 4194304
      /\ exists lines, proc_status host pid = Some lines
                       /\ getProcessMemory host pid = vmRSS lines).
Proof.
  unfold getProcessMemory.
  destruct (Z.leb_spec pid 0); [cbn [orb]; repeat split; (lia || reflexivity)|].
  destruct (Z.ltb_spec 4194304 pid); cbn [orb]; [repeat split; (lia || reflexivity)|].
  destruct (proc_status host pid) as [lines|]; [|repeat split; (lia || reflexivity)].
  destruct (vmRSS_range lines) as [Hr Hm]. repeat split; try lia; try assumption.
  now exists lines.
Qed.

(** What the fold has put in the map after some of the fields. *)
Lemma memoryUsage_fold host : forall fields (out : gmap string Z) pidStr usage,
  foldl (fun out pidStr =>
           match Strconv.ParseInt pidStr with
           | Some pid =>
               let usage := getProcessMemory host pid in
               if 0 <? usage then <[pidStr := usage]> out else out
           | None => out
           end) out fields !! pidStr = Some usage
  <-> (List.In pidStr fields
       /\ exists pid, Strconv.ParseInt pidStr = Some pid
                      /\ usage = getProcessMemory host pid /\ 0 < usage)
      \/ (~ (List.In pidStr fields
             /\ exists pid, Strconv.ParseInt pidStr = Some pid
                            /\ 0 < getProcessMemory host pid)
          /\ out !! pidStr = Some usage).
Proof.
  induction fields as [|f fields IH]; intros out pidStr usage; cbn [foldl].
  - split; [intros E; right; split; [intros [[] _]|exact E]|intros [[[] _]|[_ E]]; exact E].
  - rewrite IH. clear IH. cbn [List.In].
    destruct (Strconv.ParseInt f) as [pid|] eqn:Ef.
    + cbv zeta. destruct (Z.ltb_spec 0 (getProcessMemory host pid)) as [Hpos|Hpos].
      * destruct (decide (f = pidStr)) as [->|Hne].
        -- rewrite lookup_insert_eq. split.
           ++ intros [(Hin & pid' & Ep & -> & Hu)|(Hn & E)].
              ** left. split; [now right|]. now exists pid'.
              ** injection E as <-. left. split; [now left|]. now exists pid.
           ++ intros [(Hin & pid' & Ep & -> & Hu)|(Hn & _)].
              ** destruct (List.in_dec (fun a b : string => decide (a = b)) pidStr fields)
                   as [Hf|Hf].
                 --- left. split; [assumption|]. now exists pid'.
                 --- right. split; [intros [Hf' _]; contradiction|].
                     rewrite Ef in Ep. now injection Ep as <-.
              ** exfalso. apply Hn. split; [now left|]. now exists pid.
        -- rewrite lookup_insert_ne by assumption. split.
           ++ intros [(Hin & Hp)|(Hn & E)]; [left; split; [now right|exact Hp]|].
              right. split; [|exact E]. intros [[->|Hin] Hp]; [contradiction|].
              apply Hn. now split.
           ++ intros [([->|Hin] & Hp)|(Hn & E)]; [contradiction|left; now split|].
              right. split; [|exact E]. intros [Hin Hp]. apply Hn. split; [now right|exact Hp].
      * split.
        -- intros [(Hin & Hp)|(Hn & E)]; [left; split; [now right|exact Hp]|].
           right. split; [|exact E]. intros [[->|Hin] (pid' & Ep & Hu)].
           ++ rewrite Ef in Ep. injection Ep as <-. lia.
           ++ apply Hn. split; [assumption|]. now exists pid'.
        -- intros [([->|Hin] & pid' & Ep & -> & Hu)|(Hn & E)].
           ++ rewrite Ef in Ep. injection Ep as <-. lia.
           ++ left. split; [assumption|]. now exists pid'.
           ++ right. split; [|exact E]. intros [Hin Hp]. apply Hn.
              split; [now right|exact Hp].
    + split.
      * intros [(Hin & Hp)|(Hn & E)]; [left; split; [now right|exact Hp]|].
        right. split; [|exact E]. intros [[->|Hin] (pid' & Ep & Hu)]; [congruence|].
        apply Hn. split; [assumption|]. now exists pid'.
      * intros [([->|Hin] & pid' & Ep & Hu)|(Hn & E)]; [congruence| |].
        -- left. split; [assumption|]. now exists pid'.
        -- right. split; [|exact E]. intros [Hin Hp]. apply Hn.
           split; [now right|exact Hp].
Qed.

(** X18. [memoryUsage] holds an entry for a pid string exactly when the string
    is one of the fields that [pidof] printed, it parses as an integer
    between 1 and 4194304, the status file of that process can be read and
    its first [VmRSS:] line gives a usage that is not 0; the entry is that
    usage: the kilobytes times 1024, in [uint64], so a positive multiple of
    1024 below 2^64.  When [pidof] fails the map is empty. *)
Theorem memoryUsage_entries (host : Host) (pidStr : string) (usage : Z) :
  (memoryUsage host !! pidStr = Some usage <->
   exists output pid lines,
     pidof host = Some output /\ List.In pidStr (Strings.Fields output)
     /\ Strconv.ParseInt pidStr = Some pid /\ 1 <= pid <= 4194304
     /\ proc_status host pid = Some lines /\ usage = vmRSS lines /\ 0 < usage)
  /\ (memoryUsage host !! pidStr = Some usage ->
      0 < usage < 2 ^ 64 /\ usage mod 1024 = 0)
  /\ (pidof host = None -> memoryUsage host = ∅).
Proof.
  assert (Hiff : memoryUsage host !! pidStr = Some usage <->
            exists output pid lines,
              pidof host = Some output /\ List.In pidStr (Strings.Fields output)
              /\ Strconv.ParseInt pidStr = Some pid /\ 1 <= pid <= 4194304
              /\ proc_status host pid = Some lines /\ usage = vmRSS lines /\ 0 < usage).
  { unfold memoryUsage. destruct (pidof host) as [output|].
    - rewrite memoryUsage_fold. split.
      + intros [(Hin & pid & Ep & -> & Hu)|(_ & E)]; [|now rewrite lookup_empty in E].
        destruct (getProcessMemory_spec host pid) as (_ & _ & Hpos).
        destruct (Hpos Hu) as (Hr & lines & Hl & Hv).
        exists output, pid, lines. rewrite <- Hv. now repeat split.
      + intros (output' & pid & lines & E & Hin & Ep & Hr & Hl & -> & Hu).
        injection E as <-. left. split; [assumption|]. exists pid.
        assert (Hg : getProcessMemory host pid = vmRSS lines).
        { unfold getProcessMemory.
          destruct (Z.leb_spec pid 0); [lia|]. destruct (Z.ltb_spec 4194304 pid); [lia|].
          cbn [orb]. now rewrite Hl. }
        rewrite Hg. now repeat split.
    - rewrite lookup_empty. split; [discriminate|].
      intros (output & _ & _ & E & _). discriminate. }
  split; [exact Hiff|]. split.
  - intros E. apply Hiff in E as (_ & _ & lines & _ & _ & _ & _ & _ & -> & Hu).
    destruct (vmRSS_range lines). split; [lia|assumption].
  - intros E. unfold memoryUsage. now rewrite E.
Qed.

Lemma memoryUsage_entries_witness : memoryUsage example_host !! "4711" = Some 52428800.
Proof.
  apply (memoryUsage_entries example_host "4711" 52428800).
  exists ("4711 4712" +:+ String "010" ""), 4711,
    ["Name:   knotd"; "VmPeak:   812345 kB"; "VmRSS:     51200 kB"; "Threads:        7"].
  split; [reflexivity|]. split; [vm_compute; left; reflexivity|].
  split; [reflexivity|]. split; [lia|]. split; [reflexivity|].
  split; [reflexivity|reflexivity].
Defined.

End MemoryFacts.

(** ** Observations that were not announced *)

Module AnnounceFacts.
Import Libknot Collector CollectorFacts.

Section Unannounced.
Context `{GoLib}.

Lemma convertStateTime_text timeStr seconds :
  convertStateTime timeStr = Some seconds ->
  str_nonempty timeStr = true /\ String.eqb timeStr "-" = false.
Proof.
  intros E. split.
  - destruct timeStr; [discriminate E|reflexivity].
  - destruct (String.eqb timeStr "-") eqn:Ed; [|reflexivity].
    apply String.eqb_eq in Ed. subst timeStr. discriminate E.
Qed.

Lemma timers_off_unannounced c (d : DescPair) t t' v labels :
  collectZoneTimers c = false ->
  d = zoneStatusRefreshDesc \/ d = zoneStatusExpirationDesc ->
  ~ announced c {| desc := d.1; valueType := t; value := v; labelValues := labels |}
  /\ ~ announced c {| desc := d.2; valueType := t'; value := v; labelValues := labels |}.
Proof.
  intros Ht Hd. unfold announced, Describe. rewrite Ht.
  destruct Hd as [-> | ->]; split; cbn [desc];
    (intros [Ha|Hin]; [cbn in Ha; unfold first_dynamic_addr in Ha; lia|]);
    destruct (collectMemInfo c), (collectZoneSerial c); cbn in Hin;
    intuition discriminate.
Qed.

(** X17. With the zone-status option on and the timers option off, the seventh
    and the ninth EXTRA record of a zone, when their text is a state or a
    duration, make the zone-status phase send a gauge and a counter of the
    zone-status refresh (seventh) or expiration (ninth) timer with that
    value and the zone as label, and [Describe] has announced neither
    descriptor; that is when the zone is valid UTF-8: otherwise
    [MustNewConstMetric] panics on the gauge and nothing is sent. *)
Theorem zone_status_timers_unannounced (c : KnotCollector) (cur : ZoneCursor)
    (data : CtlData) (seconds : float64) :
  collectZoneStatus c = true -> collectZoneTimers c = false ->
  str_nonempty (currentZone cur) = true ->
  responseIndex cur = 6 \/ responseIndex cur = 8 ->
  convertStateTime (Data data) = Some seconds ->
  let d := if responseIndex cur =? 6 then zoneStatusRefreshDesc
           else zoneStatusExpirationDesc in
  let gauge := {| desc := d.1; valueType := GaugeValue; value := seconds;
                  labelValues := [currentZone cur] |} in
  let counter := {| desc := d.2; valueType := CounterValue; value := seconds;
                    labelValues := [currentZone cur] |} in
  let s := (zoneStatusRecord c cur CtlTypeExtra data).2 in
  (Utf8.ValidString (currentZone cur) = true -> s = ([gauge; counter], None))
  /\ (Utf8.ValidString (currentZone cur) = false -> s = ([], Some LabelNotUTF8))
  /\ ~ announced c gauge /\ ~ announced c counter.
Proof.
  intros Hs Ht Hz Hi Hc. cbv zeta.
  destruct (convertStateTime_text _ _ Hc) as [Hn Hd].
  rewrite zoneStatusRecord_extra by assumption. cbn [snd].
  rewrite Hs, Hn, Hd, Hc. cbn [andb negb].
  destruct Hi as [-> | ->].
  - change (int_wrap (6 + 1)) with 7. change (7 =? 1) with false.
    change (7 =? 7) with true. change (6 =? 6) with true.
    rewrite andb_false_r, andThen_nothing_l, sendMetrics_one by reflexivity.
    split; [now intros ->|]. split; [now intros ->|].
    apply timers_off_unannounced; auto.
  - change (int_wrap (8 + 1)) with 9. change (9 =? 1) with false.
    change (9 =? 7) with false. change (9 =? 9) with true. change (8 =? 6) with false.
    rewrite andb_false_r, andThen_nothing_l, sendMetrics_one by reflexivity.
    split; [now intros ->|]. split; [now intros ->|].
    apply timers_off_unannounced; auto.
Qed.

End Unannounced.

Lemma zone_status_timers_unannounced_witness :
  (zoneStatusRecord status_only_collector (at_position 6) CtlTypeExtra
     (zone_record "" "+1h30m")).2
  = ([ observation zoneStatusRefreshDesc.1 GaugeValue 5400 ["example.com"];
       observation zoneStatusRefreshDesc.2 CounterValue 5400 ["example.com"] ], None)
  /\ ~ announced status_only_collector
         (observation zoneStatusRefreshDesc.1 GaugeValue 5400 ["example.com"]).
Proof.
  destruct (@zone_status_timers_unannounced plainLib status_only_collector
              (at_position 6) (zone_record "" "+1h30m") (F64.of_Z 5400)
              eq_refl eq_refl eq_refl (or_introl eq_refl)
              (convert_refresh_example (H := plainLib)))
    as (Hsent & _ & Hg & _).
  split; [exact (Hsent eq_refl)|exact Hg].
Defined.

End AnnounceFacts.
